(** * X Feed Curator: relevance scoring and ranked filtering

    A shallow embedding of the content script of the extension
    (the second script in [src/popup.js]): the cosine primitive, the
    attention ranker, the command parser, the batching coordinator and the
    ranked filtering pass, followed by the properties the specification
    states about them.

    Conventions of the embedding.
    - A JavaScript string is a [string]; every character is one UTF-16 code
      unit in the range U+0000..U+00FF.
    - A JavaScript Number is an element of a [Number] structure.  Two
      structures are given: [Binary64] (IEEE 754 double precision, built on
      [SpecFloat], the arithmetic the engine really runs) and [Ideal] (the
      real numbers, arithmetic without rounding).
    - A [Float32Array] is a [list num]; every store goes through [fround].
    - [null] is [None].
    - The [Map] of processed posts is a list of entries in insertion order;
      the object held by an entry is identified by the entry's position.
    - An [async] function without an [await] that yields runs to completion;
      the DOM updates of [hidePost] and [showPost], the storage writes and
      the messages to the popup are left out: the properties are about the
      [hidden] flags, the buffer and the filter list. *)

From Stdlib Require Import ZArith List Bool Ascii String Lia Permutation Sorted.
From Stdlib Require Import Reals Lra.
From Stdlib Require Import Floats.SpecFloat.
Import ListNotations.

Local Open Scope Z_scope.

(** ** Strings *)

Module JSString.

Definition charCode (c : ascii) : Z := Z.of_N (N_of_ascii c).

(** WhiteSpace and LineTerminator code units below U+0100: the set used by
    [String.prototype.trim] and by the regular expression class [\s]. *)
Definition isWhiteSpace (c : ascii) : bool :=
  let n := charCode c in
  ((9 <=? n) && (n <=? 13)) || (n =? 32) || (n =? 160).

Definition isDigit (c : ascii) : bool :=
  let n := charCode c in (48 <=? n) && (n <=? 57).

Definition lowerChar (c : ascii) : ascii :=
  let n := charCode c in
  if ((65 <=? n) && (n <=? 90))
     || ((192 <=? n) && (n <=? 222) && negb (n =? 215))
  then ascii_of_N (Z.to_N (n + 32)) else c.

Fixpoint toLowerCase (s : string) : string :=
  match s with
  | EmptyString => EmptyString
  | String c r => String (lowerChar c) (toLowerCase r)
  end.

Fixpoint trimStart (s : string) : string :=
  match s with
  | EmptyString => EmptyString
  | String c r => if isWhiteSpace c then trimStart r else s
  end.

Fixpoint trimEnd (s : string) : string :=
  match s with
  | EmptyString => EmptyString
  | String c r =>
      match trimEnd r with
      | EmptyString => if isWhiteSpace c then EmptyString else String c EmptyString
      | r' => String c r'
      end
  end.

Definition trim (s : string) : string := trimEnd (trimStart s).

Definition isEmpty (s : string) : bool :=
  match s with EmptyString => true | _ => false end.

Fixpoint startsWith (p s : string) : bool :=
  match p, s with
  | EmptyString, _ => true
  | String a p', String b s' => Ascii.eqb a b && startsWith p' s'
  | String _ _, EmptyString => false
  end.

(** [s.substring(n)] *)
Fixpoint substring (n : nat) (s : string) : string :=
  match n, s with
  | O, _ => s
  | S n', String _ r => substring n' r
  | S _, EmptyString => EmptyString
  end.

Fixpoint includes (p s : string) : bool :=
  startsWith p s ||
  match s with
  | EmptyString => false
  | String _ r => includes p r
  end.

(** The text before and the text after the leftmost occurrence of a
    non-empty separator. *)
Fixpoint cut (sep s : string) : option (string * string) :=
  if startsWith sep s then Some (EmptyString, substring (String.length sep) s)
  else match s with
       | EmptyString => None
       | String c r =>
           match cut sep r with
           | Some (b, a) => Some (String c b, a)
           | None => None
           end
       end.

(** [s.split(sep)[1]] for a non-empty [sep]; [None] is [undefined]. *)
Definition split_1 (sep s : string) : option string :=
  match cut sep s with
  | None => None
  | Some (_, a) =>
      match cut sep a with
      | Some (b, _) => Some b
      | None => Some a
      end
  end.

(** [s.split(/\s+/).filter(Boolean)]: the maximal runs of characters that
    are not white space. *)
Fixpoint words_aux (cur : string) (s : string) : list string :=
  match s with
  | EmptyString => if isEmpty cur then [] else [cur]
  | String c r =>
      if isWhiteSpace c
      then (if isEmpty cur then words_aux EmptyString r
            else cur :: words_aux EmptyString r)
      else words_aux (cur ++ String c EmptyString) r
  end.

Definition words (s : string) : list string := words_aux EmptyString s.

(** The longest prefix whose characters satisfy [p], and the rest. *)
Fixpoint span (p : ascii -> bool) (s : string) : string * string :=
  match s with
  | EmptyString => (EmptyString, EmptyString)
  | String c r =>
      if p c then let '(a, b) := span p r in (String c a, b)
      else (EmptyString, s)
  end.

(** [/top\s+(\d+)/i] anchored at the start of [s]: the captured digits and
    the text after the match.  Both quantifiers are greedy, and giving
    white space back can never produce a digit, so no backtracking is
    involved. *)
Definition match_top_here (s : string) : option (string * string) :=
  match s with
  | String t (String o (String p r)) =>
      if Ascii.eqb (lowerChar t) "t" && Ascii.eqb (lowerChar o) "o"
         && Ascii.eqb (lowerChar p) "p"
      then
        let '(ws, r1) := span isWhiteSpace r in
        let '(ds, r2) := span isDigit r1 in
        if isEmpty ws || isEmpty ds then None else Some (ds, r2)
      else None
  | _ => None
  end.

(** The leftmost match of [/top\s+(\d+)/i] in [s]: the text before it, the
    captured digits and the text after it. *)
Fixpoint match_top (s : string) : option (string * string * string) :=
  match match_top_here s with
  | Some (ds, a) => Some (EmptyString, ds, a)
  | None =>
      match s with
      | EmptyString => None
      | String c r =>
          match match_top r with
          | Some (b, ds, a) => Some (String c b, ds, a)
          | None => None
          end
      end
  end.

(** [parseInt] of a string of decimal digits.  The exact integer is kept;
    JavaScript rounds integers above 2^53 to the nearest double, which
    changes nothing for a value used as a slice bound. *)
Fixpoint parseInt_aux (acc : Z) (s : string) : Z :=
  match s with
  | EmptyString => acc
  | String c r => parseInt_aux (10 * acc + (charCode c - 48)) r
  end.

Definition parseInt (s : string) : Z := parseInt_aux 0 s.

End JSString.

(** ** Numbers *)

(** The operations of JavaScript Numbers that the content script uses. *)
Class Number := {
  num : Type;
  ofZ : Z -> num;                 (* an integer literal *)
  num_add : num -> num -> num;
  num_sub : num -> num -> num;
  num_mul : num -> num -> num;
  num_div : num -> num -> num;
  num_sqrt : num -> num;          (* Math.sqrt *)
  fround : num -> num;            (* the rounding of a Float32Array store *)
  num_eqb : num -> num -> bool;   (* === *)
  num_ltb : num -> num -> bool;   (* < *)
  num_leb : num -> num -> bool;   (* <= *)
  truthy : num -> bool            (* ToBoolean: neither zero nor NaN *)
}.

(** [Math.exp]; ECMAScript leaves its precision to the implementation. *)
Class MathLib (N : Number) := {
  num_exp : num -> num
}.

Declare Scope num_scope.
Delimit Scope num_scope with num.
Notation "x + y" := (num_add x y) : num_scope.
Notation "x - y" := (num_sub x y) : num_scope.
Notation "x * y" := (num_mul x y) : num_scope.
Notation "x / y" := (num_div x y) : num_scope.
Notation "x === y" := (num_eqb x y) (at level 70, no associativity) : num_scope.

(** IEEE 754 binary64 with round-to-nearest-even, and the binary32 rounding
    of typed-array stores. *)
Module Binary64.

Definition prec : Z := 53.
Definition emax : Z := 1024.

(** Re-express a value in the canonical binary64 form (exact for every
    binary32 value) so that [SFcompare] applies. *)
Definition normalize (x : spec_float) : spec_float :=
  match x with
  | S754_finite s m e => binary_round prec emax s m e
  | _ => x
  end.

Definition to_binary32 (x : spec_float) : spec_float :=
  match x with
  | S754_finite s m e => binary_round 24 128 s m e
  | _ => x
  end.

Definition of_Z (z : Z) : spec_float := binary_normalize prec emax z 0 false.

Definition is_truthy (x : spec_float) : bool :=
  match x with
  | S754_zero _ | S754_nan => false
  | _ => true
  end.

#[export] Instance number : Number := {|
  num := spec_float;
  ofZ := of_Z;
  num_add := SFadd prec emax;
  num_sub := SFsub prec emax;
  num_mul := SFmul prec emax;
  num_div := SFdiv prec emax;
  num_sqrt := SFsqrt prec emax;
  fround := fun x => normalize (to_binary32 x);
  num_eqb := SFeqb;
  num_ltb := SFltb;
  num_leb := SFleb;
  truthy := is_truthy
|}.

End Binary64.

(** Arithmetic without rounding: the real numbers. *)
Module Ideal.

Definition Reqb (x y : R) : bool := if Req_dec_T x y then true else false.
Definition Rltb (x y : R) : bool := if Rlt_dec x y then true else false.
Definition Rleb (x y : R) : bool := if Rle_dec x y then true else false.

#[export] Instance number : Number := {|
  num := R;
  ofZ := IZR;
  num_add := Rplus;
  num_sub := Rminus;
  num_mul := Rmult;
  num_div := Rdiv;
  num_sqrt := R_sqrt.sqrt;
  fround := fun x => x;
  num_eqb := Reqb;
  num_ltb := Rltb;
  num_leb := Rleb;
  truthy := fun x => negb (Reqb x 0%R)
|}.

#[global] Instance mathlib : MathLib number := {|
  num_exp := Rtrigo_def.exp
|}.

End Ideal.

(** ** Cosine similarity *)

Section Cosine.
Context {N : Number}.
Local Open Scope num_scope.

Definition zero : num := ofZ 0.

(** The loop of [cosineSimilarity]: one step per index. *)
Definition cosine_step (acc : num * num * num) (ab : num * num)
  : num * num * num :=
  let '(dotProduct, norm1, norm2) := acc in
  let '(a, b) := ab in
  (dotProduct + a * b, norm1 + a * a, norm2 + b * b).

Definition cosineSimilarity (embedding1 embedding2 : option (list num)) : num :=
  match embedding1, embedding2 with
  | Some e1, Some e2 =>
      if negb (Nat.eqb (List.length e1) (List.length e2)) then zero
      else
        let '(dotProduct, norm1, norm2) :=
          fold_left cosine_step (combine e1 e2) (zero, zero, zero) in
        if (norm1 === zero) || (norm2 === zero) then zero
        else dotProduct / (num_sqrt norm1 * num_sqrt norm2)
  | _, _ => zero
  end.

End Cosine.

(** ** The attention ranker *)

Module AttentionRanker.

Definition vocabSize : Z := 8192.
Definition embedDim : nat := 128.

(** *** 32-bit integer operations *)

Definition toInt32 (z : Z) : Z := (z + 2 ^ 31) mod 2 ^ 32 - 2 ^ 31.
Definition toUint32 (z : Z) : Z := z mod 2 ^ 32.

(** [a ^ b], [a << n], [a >>> n] and [a & b] on Numbers holding integers,
    and [Math.imul]. *)
Definition bxor (a b : Z) : Z := Z.lxor (toInt32 a) (toInt32 b).
Definition shl (a n : Z) : Z := toInt32 (Z.shiftl (toInt32 a) n).
Definition ushr (a n : Z) : Z := Z.shiftr (toUint32 a) n.
Definition band (a b : Z) : Z := Z.land (toInt32 a) (toInt32 b).
Definition imul (a b : Z) : Z := toInt32 (toInt32 a * toInt32 b).

Definition hash32_step (h : Z) (c : ascii) : Z :=
  imul (bxor h (JSString.charCode c)) 16777619.

Definition hash32 (str : string) : Z :=
  toUint32 (fold_left hash32_step (list_ascii_of_string str)
                      (toUint32 2166136261)).

Definition tokenIdFor (word : string) : Z := hash32 word mod vocabSize.

(** One round of xorshift32, each assignment followed by [x >>>= 0]. *)
Definition xorshift32 (x : Z) : Z :=
  let x := toUint32 (bxor x (shl x 13)) in
  let x := toUint32 (bxor x (ushr x 17)) in
  toUint32 (bxor x (shl x 5)).

Definition tokenize (text : string) : list string :=
  JSString.words (JSString.toLowerCase text).

Section Vectors.
Context {N : Number}.
Local Open Scope num_scope.

(** The literals [0.2] and [0.1]: the doubles nearest to 1/5 and 1/10,
    which is what a correctly rounded division returns. *)
Definition lit_0_2 : num := ofZ 1 / ofZ 5.
Definition lit_0_1 : num := ofZ 1 / ofZ 10.

(** [new Float32Array(n)] *)
Definition zeros (n : nat) : list num := repeat zero n.

(** The body of the generator loop: [n] entries from state [x]. *)
Fixpoint xorshift_fill (n : nat) (x : Z) : list num :=
  match n with
  | O => []
  | S n' =>
      let x' := xorshift32 x in
      fround (ofZ (band x' 65535) / ofZ 65535 * lit_0_2 - lit_0_1)
        :: xorshift_fill n' x'
  end.

Definition embeddingForTokenId (tokenId : Z) : list num :=
  xorshift_fill embedDim (toUint32 (tokenId + 1)).

(** [for (i...) acc[i] += e[i]] *)
Definition accumulate (acc e : list num) : list num :=
  map (fun ae => fround (fst ae + snd ae)) (combine acc e).

Definition meanEmbeddingForText (text : string) : list num :=
  let words := tokenize text in
  match words with
  | [] => zeros embedDim
  | _ =>
      let acc :=
        fold_left (fun acc w => accumulate acc (embeddingForTokenId (tokenIdFor w)))
                  words (zeros embedDim) in
      map (fun a => fround (a / ofZ (Z.of_nat (List.length words)))) acc
  end.

Definition buildQueryVector (queryText : string) : list num :=
  meanEmbeddingForText queryText.

Context {M : MathLib N}.

Definition scale : num := num_sqrt (ofZ (Z.of_nat embedDim)).

(** [let dp = 0; for (j...) dp += e[j] * queryVec[j]], for a [queryVec]
    of [embedDim] entries. *)
Definition dot (e queryVec : list num) : num :=
  fold_left (fun dp eq => dp + fst eq * snd eq) (combine e queryVec) zero.

(** The maximum loop.  It starts from [-Infinity] in the source; over at
    least one score, none of them NaN, that is the loop started from the
    first score. *)
Definition maximum (scores : list num) : num :=
  match scores with
  | [] => zero
  | s :: rest => fold_left (fun max s => if num_ltb max s then s else max) rest s
  end.

(** [for (j...) ctx[j] += e[j] * w] *)
Definition add_weighted (ctx : list num) (ew : list num * num) : list num :=
  map (fun ce => fround (fst ce + snd ce * snd ew)) (combine ctx (fst ew)).

(** The block under [// softmax]: the weights of the scores. *)
Definition softmax (scores : list num) : list num :=
  let max := maximum scores in
  let scores := map (fun s => fround (num_exp (s - max))) scores in
  let sum := fold_left num_add scores zero in
  map (fun s => fround (s / (if truthy sum then sum else ofZ 1))) scores.

(** The block under [// context vector]. *)
Definition context (embeddings : list (list num)) (weights : list num) : list num :=
  fold_left add_weighted (combine embeddings weights) (zeros embedDim).

Record Attention := { score : num; weights : list num }.

Definition attentionScore (text : string) (queryVec : list num) : Attention :=
  let words := tokenize text in
  match words with
  | [] => {| score := zero; weights := [] |}
  | _ =>
      let embeddings := map (fun w => embeddingForTokenId (tokenIdFor w)) words in
      let scores := map (fun e => fround (dot e queryVec / scale)) embeddings in
      let weights := softmax scores in
      let ctx := context embeddings weights in
      {| score := cosineSimilarity (Some ctx) (Some queryVec); weights := weights |}
  end.

End Vectors.

End AttentionRanker.

(** ** Command parsing *)

Inductive Mode := hide | show.

Section Filters.
Context {N : Number}.
Local Open Scope num_scope.
Local Open Scope string_scope.
Local Open Scope list_scope.

Record Filter := {
  query : string;
  mode : Mode;
  queryVec : list num;
  topK : Z;
  threshold : num
}.

(** The literal [0.5]. *)
Definition lit_0_5 : num := ofZ 1 / ofZ 2.

(** The part of [parseCommand] that determines mode, query and topK from
    the trimmed, non-empty text. *)
Definition parse_text (text : string) : Mode * string * Z :=
  let lower := JSString.toLowerCase text in
  if JSString.startsWith "hide " lower then
    (hide, JSString.trim (JSString.substring 5 text), 20%Z)
  else if JSString.startsWith "remove " lower then
    (hide, JSString.trim (JSString.substring 7 text), 20%Z)
  else if JSString.startsWith "show " lower || JSString.startsWith "only " lower then
    let startIdx := if JSString.startsWith "show " lower then 5%nat else 5%nat in
    let query := JSString.trim (JSString.substring startIdx text) in
    match JSString.match_top query with
    | Some (before, digits, after) =>
        (show, JSString.trim (before ++ after)%string, JSString.parseInt digits)
    | None => (show, query, 20%Z)
    end
  else if JSString.includes "only show " lower then
    match JSString.split_1 "only show " lower with
    | Some q => (show, JSString.trim q, 20%Z)
    | None => (show, text, 20%Z)   (* unreachable: [includes] holds *)
    end
  else (hide, text, 20%Z).

(** [parseCommand]; [None] is [null]. *)
Definition parseCommand (command : string) : option Filter :=
  let text := JSString.trim command in
  if JSString.isEmpty text then None
  else
    let '(mode, query, topK) := parse_text text in
    Some {| query := query;
            mode := mode;
            queryVec := AttentionRanker.buildQueryVector query;
            topK := topK;
            threshold := lit_0_5 |}.

(** *** Persisted filter metadata *)

Record FilterMetadata := {
  meta_query : string;
  meta_mode : Mode;
  meta_topK : Z;
  meta_threshold : num
}.

Definition metadata_of (f : Filter) : FilterMetadata :=
  {| meta_query := query f;
     meta_mode := mode f;
     meta_topK := topK f;
     meta_threshold := threshold f |}.

(** The body of the restore loop of [init] for one saved tuple: the filter
    pushed on [state.filters], if any. *)
Definition restoreFilter (meta : FilterMetadata) : option Filter :=
  match parseCommand (meta_query meta) with
  | Some filter =>
      Some {| query := query filter;
              mode := mode filter;
              queryVec := queryVec filter;
              topK := meta_topK meta;
              threshold := meta_threshold meta |}
  | None => None
  end.

(** The restore loop of [init], from an empty filter list. *)
Definition restoreFilters (stored : list FilterMetadata) : list Filter :=
  fold_left (fun filters meta =>
               match restoreFilter meta with
               | Some filter => filters ++ [filter]
               | None => filters
               end) stored [].

End Filters.

(** ** Arrays and the post map *)

Section Arrays.
Context {A : Type}.

(** [arr.slice(0, end)] *)
Definition slice0 (end_ : Z) (arr : list A) : list A :=
  if end_ <? 0
  then firstn (Z.to_nat (Z.of_nat (List.length arr) + end_)) arr
  else firstn (Z.to_nat end_) arr.

(** [arr.splice(0, n)]: the removed elements and what stays in the array. *)
Definition splice0 (n : nat) (arr : list A) : list A * list A :=
  (firstn n arr, skipn n arr).

(** [Array.prototype.sort] is stable: [sort_insert after x l] puts [x],
    which preceded every element of the sorted [l] in the array, behind
    exactly the leading elements it has to follow.  [after x y] says that
    the comparator is positive on [(x, y)].  For a consistent comparator
    the result of a stable sort is unique, whatever the algorithm
    ([js_sort_unique]). *)
Fixpoint sort_insert (after : A -> A -> bool) (x : A) (l : list A) : list A :=
  match l with
  | [] => [x]
  | y :: r => if after x y then y :: sort_insert after x r else x :: l
  end.

Definition js_sort (after : A -> A -> bool) (arr : list A) : list A :=
  fold_right (sort_insert after) [] arr.

(** Replace the element at a position. *)
Fixpoint update_at (i : nat) (f : A -> A) (l : list A) : list A :=
  match i, l with
  | _, [] => []
  | O, x :: r => f x :: r
  | S i', x :: r => x :: update_at i' f r
  end.

End Arrays.

Record PostData := { text : string; hidden : bool }.

Definition set_hidden (b : bool) (p : PostData) : PostData :=
  {| text := text p; hidden := b |}.

(** [Map]: entries in insertion order, keys pairwise distinct. *)
Definition PostMap := list (string * PostData).

Fixpoint map_has (k : string) (m : PostMap) : bool :=
  match m with
  | [] => false
  | (k', _) :: r => String.eqb k k' || map_has k r
  end.

(** [m.set(k, v)]: an existing key keeps its place. *)
Fixpoint map_set (k : string) (v : PostData) (m : PostMap) : PostMap :=
  match m with
  | [] => [(k, v)]
  | (k', v') :: r => if String.eqb k k' then (k, v) :: r else (k', v') :: map_set k v r
  end.

(** [new Set(ids).has(k)] *)
Definition set_has (k : string) (ids : list string) : bool :=
  existsb (String.eqb k) ids.

(** A post record as the extraction routine delivers it. *)
Record Post := { id : string; post_text : string; user : string }.

(** ** Ranked filtering and batching *)

Section Engine.
Context {N : Number} {M : MathLib N}.
Local Open Scope num_scope.

Definition batchSize : nat := 30.

Record State := {
  filters : list Filter;
  processedPosts : PostMap;
  postBatch : list Post;
  stats_processed : Z;
  stats_hidden : Z;
  enabled : bool;
  batchTimeout : bool      (* an idle timer is pending *)
}.

(** An element of [similarities]; [postData] is the position of the entry
    whose object the element refers to. *)
Record Item := { postId : string; similarity : num; postData : nat }.

(** The scoring loop over the map, from position [i] on. *)
Fixpoint score_posts (filter : Filter) (i : nat) (m : PostMap) : list Item :=
  match m with
  | [] => []
  | (k, v) :: r =>
      {| postId := k;
         similarity := AttentionRanker.score
                         (AttentionRanker.attentionScore (text v) (queryVec filter));
         postData := i |}
        :: score_posts filter (S i) r
  end.

(** The comparator [(a, b) => b.similarity - a.similarity] is positive. *)
Definition by_similarity (a b : Item) : bool :=
  num_ltb zero (similarity b - similarity a).

(** The loop of the hide branch. *)
Definition hide_step (filter : Filter) (m : PostMap) (item : Item) : PostMap :=
  if num_leb (threshold filter) (similarity item) then
    update_at (postData item)
              (fun kv => if negb (hidden (snd kv))
                         then (fst kv, set_hidden true (snd kv)) else kv) m
  else m.

(** The loop of the show branch, for one entry. *)
Definition show_step (topPosts : list string) (kv : string * PostData)
  : string * PostData :=
  if set_has (fst kv) topPosts then
    (if hidden (snd kv) then (fst kv, set_hidden false (snd kv)) else kv)
  else
    (if negb (hidden (snd kv)) then (fst kv, set_hidden true (snd kv)) else kv).

(** The body of [for (const filter of state.filters)]. *)
Definition applyFilter (m : PostMap) (filter : Filter) : PostMap :=
  let similarities := js_sort by_similarity (score_posts filter 0 m) in
  match mode filter with
  | hide => fold_left (hide_step filter) similarities m
  | show =>
      let topK := if topK filter =? 0 then 20 else topK filter in
      let topPosts := map postId (slice0 topK similarities) in
      map (show_step topPosts) m
  end.

Definition count_hidden (m : PostMap) : nat :=
  List.length (filter (fun kv => hidden (snd kv)) m).

Definition show_all (m : PostMap) : PostMap :=
  map (fun kv => if hidden (snd kv) then (fst kv, set_hidden false (snd kv)) else kv) m.

Definition applyRankedFiltering (st : State) : State :=
  match filters st with
  | [] =>
      {| filters := filters st;
         processedPosts := show_all (processedPosts st);
         postBatch := postBatch st;
         stats_processed := stats_processed st;
         stats_hidden := 0;
         enabled := enabled st;
         batchTimeout := batchTimeout st |}
  | _ =>
      let m := fold_left applyFilter (filters st) (processedPosts st) in
      {| filters := filters st;
         processedPosts := m;
         postBatch := postBatch st;
         stats_processed := stats_processed st;
         stats_hidden := Z.of_nat (count_hidden m);
         enabled := enabled st;
         batchTimeout := batchTimeout st |}
  end.

(** The caching loop of [processBatch]. *)
Definition cache_post (acc : PostMap * Z) (post : Post) : PostMap * Z :=
  (map_set (id post) {| text := post_text post; hidden := false |} (fst acc),
   (snd acc + 1)%Z).

(** [processBatch] together with the batch it spliced off the buffer. *)
Definition processBatch_with (st : State) : list Post * State :=
  match postBatch st with
  | [] => ([], st)
  | _ =>
      let '(batch, rest) := splice0 batchSize (postBatch st) in
      let '(m, processed) :=
        fold_left cache_post batch (processedPosts st, stats_processed st) in
      (batch,
       applyRankedFiltering
         {| filters := filters st;
            processedPosts := m;
            postBatch := rest;
            stats_processed := processed;
            stats_hidden := stats_hidden st;
            enabled := enabled st;
            batchTimeout := batchTimeout st |})
  end.

Definition processBatch (st : State) : State := snd (processBatch_with st).

Definition set_postBatch (b : list Post) (st : State) : State :=
  {| filters := filters st;
     processedPosts := processedPosts st;
     postBatch := b;
     stats_processed := stats_processed st;
     stats_hidden := stats_hidden st;
     enabled := enabled st;
     batchTimeout := batchTimeout st |}.

Definition set_batchTimeout (pending : bool) (st : State) : State :=
  {| filters := filters st;
     processedPosts := processedPosts st;
     postBatch := postBatch st;
     stats_processed := stats_processed st;
     stats_hidden := stats_hidden st;
     enabled := enabled st;
     batchTimeout := pending |}.

(** The idle timer fires and runs [processBatch]. *)
Definition timeout_fired (st : State) : State :=
  processBatch (set_batchTimeout false st).

(** The posts of a response that are not yet in [processedPosts]. *)
Definition new_posts (posts : list Post) (st : State) : list Post :=
  filter (fun post => negb (map_has (id post) (processedPosts st))) posts.

(** [processPostData], from the extracted posts on. *)
Definition processPostData (posts : list Post) (st : State) : State :=
  match posts with
  | [] => st
  | _ =>
      match new_posts posts st with
      | [] => st
      | newPosts =>
          let st1 := set_postBatch (postBatch st ++ newPosts) st in
          if (batchSize <=? List.length (postBatch st1))%nat then processBatch st1
          else set_batchTimeout true st1   (* clearTimeout, then setTimeout *)
      end
  end.

Definition set_filters (fs : list Filter) (st : State) : State :=
  {| filters := fs;
     processedPosts := processedPosts st;
     postBatch := postBatch st;
     stats_processed := stats_processed st;
     stats_hidden := stats_hidden st;
     enabled := enabled st;
     batchTimeout := batchTimeout st |}.

(** What the message handlers write to [chrome.storage.local]. *)
Definition filterMetadata (st : State) : list FilterMetadata :=
  map metadata_of (filters st).

(** The handler of the message [addFilter]. *)
Definition addFilter (command : string) (st : State) : State :=
  match parseCommand command with
  | Some filter => applyRankedFiltering (set_filters (filters st ++ [filter]) st)
  | None => st
  end.

(** [state.filters.filter((f, i) => i !== index)] *)
Fixpoint remove_index (index : nat) (fs : list Filter) : list Filter :=
  match fs, index with
  | [], _ => []
  | _ :: r, O => r
  | f :: r, S i => f :: remove_index i r
  end.

(** The handler of the message [removeFilter]. *)
Definition removeFilter (index : nat) (st : State) : State :=
  applyRankedFiltering (set_filters (remove_index index (filters st)) st).

Definition initial_state : State :=
  {| filters := [];
     processedPosts := [];
     postBatch := [];
     stats_processed := 0;
     stats_hidden := 0;
     enabled := true;
     batchTimeout := false |}.

End Engine.

(** * Vocabulary of the properties *)

(** A text that is empty or consists of white space only. *)
Definition blank (s : string) : Prop :=
  forall c, In c (list_ascii_of_string s) -> JSString.isWhiteSpace c = true.

(** ** Order laws of Numbers *)

(** [<] and [>=] exclude each other.  This holds for the reals and for IEEE
    doubles, NaN included. *)
Class NumberCompare (N : Number) : Prop := {
  ltb_not_leb : forall a b, num_ltb a b = true -> num_leb b a = false
}.

(** The ranking results need the relevances at hand to be totally ordered
    by [<], and the sign of a difference, which the comparator of the sort
    tests, to agree with [<] on them.  Real numbers are; doubles need not
    be: a NaN next to two numbers of which one is below the other breaks
    the order. *)
Definition comparable {N : Number} (ss : list num) : Prop :=
  forall a b c, In a ss -> In b ss -> In c ss ->
    num_ltb a a = false
    /\ (num_ltb a b = true -> num_ltb b c = true -> num_ltb a c = true)
    /\ (num_ltb a c = true -> num_ltb a b = true \/ num_ltb b c = true)
    /\ num_ltb zero (num_sub b a) = num_ltb a b.

(** The same as a test, for values that can be computed. *)
Definition comparableb {N : Number} (ss : list num) : bool :=
  forallb (fun a =>
    forallb (fun b =>
      forallb (fun c =>
        negb (num_ltb a a)
        && implb (num_ltb a b && num_ltb b c) (num_ltb a c)
        && implb (num_ltb a c) (num_ltb a b || num_ltb b c)
        && Bool.eqb (num_ltb zero (num_sub b a)) (num_ltb a b)) ss) ss) ss.

(** ** Ranking *)

(** [a] is ranked before [b]: it is strictly greater, or it is not smaller
    and stood earlier in the array. *)
Definition precedes {A : Type} (lt : A -> A -> bool) (idx : A -> nat) (a b : A)
  : bool :=
  lt b a || (negb (lt a b) && (idx a <? idx b)%nat).

(** What no filter changes: the keys and the texts. *)
Definition skeleton (m : PostMap) : list (string * string) :=
  map (fun kv => (fst kv, text (snd kv))) m.

Definition count_visible (m : PostMap) : nat :=
  List.length (filter (fun kv => negb (hidden (snd kv))) m).

Section Vocabulary.
Context {N : Number}.
Local Open Scope num_scope.

(** The filter that [parseCommand] builds from mode, query and topK. *)
Definition built (m : Mode) (q : string) (k : Z) : Filter :=
  {| query := q; mode := m;
     queryVec := AttentionRanker.buildQueryVector q;
     topK := k; threshold := lit_0_5 |}.

(** [filter.topK || 20] *)
Definition effective_topK (f : Filter) : Z :=
  if topK f =? 0 then 20 else topK f.

(** The squared norm as the loop of [cosineSimilarity] accumulates it. *)
Definition squared_norm (v : list num) : num :=
  fold_left (fun n a => n + a * a) v zero.

(** Post [j] is ranked before post [i]: its relevance is strictly higher, or
    it is not lower and [j] comes earlier in the iteration order. *)
Definition outranks (ss : list num) (j i : nat) : bool :=
  num_ltb (nth i ss zero) (nth j ss zero)
  || (negb (num_ltb (nth j ss zero) (nth i ss zero)) && (j <? i)%nat).

(** The number of posts ranked before post [i]. *)
Definition rank (ss : list num) (i : nat) : nat :=
  List.length (filter (fun j => outranks ss j i) (seq 0 (List.length ss))).

(** The order of two elements of [similarities] by the scores [ss] of the
    entries they refer to. *)
Definition by_score (ss : list num) (d : num) (a b : Item) : bool :=
  num_ltb (nth (postData a) ss d) (nth (postData b) ss d).

Context {M : MathLib N}.

(** The relevance of a post against a filter's query vector. *)
Definition relevance (f : Filter) (pd : PostData) : num :=
  AttentionRanker.score (AttentionRanker.attentionScore (text pd) (queryVec f)).

Definition relevances (f : Filter) (m : PostMap) : list num :=
  map (fun kv => relevance f (snd kv)) m.

Definition mk_item (f : Filter) (jkv : nat * (string * PostData)) : Item :=
  {| postId := fst (snd jkv);
     similarity := relevance f (snd (snd jkv));
     postData := fst jkv |}.

(** The sorted [similarities] of a filter. *)
Definition ranked (f : Filter) (m : PostMap) : list Item :=
  js_sort by_similarity (score_posts f 0 m).

(** Some element of [similarities] refers to entry [i] and reaches the
    threshold. *)
Definition reaches (f : Filter) (i : nat) (it : Item) : bool :=
  (postData it =? i)%nat && num_leb (threshold f) (similarity it).

(** The states reached from the initial one by responses, timer events and
    filter commands. *)
Inductive reachable : State -> Prop :=
| reach_init : reachable initial_state
| reach_posts (posts : list Post) (st : State) :
    reachable st -> reachable (processPostData posts st)
| reach_timeout (st : State) :
    reachable st -> reachable (timeout_fired st)
| reach_add (command : string) (st : State) :
    reachable st -> reachable (addFilter command st)
| reach_remove (index : nat) (st : State) :
    reachable st -> reachable (removeFilter index st).

End Vocabulary.

(** ** Sums of real numbers *)

Definition Rsum (l : list R) : R := fold_right Rplus 0%R l.

(** ** The scorer in the words of the specification, in exact arithmetic *)

Module AttentionSpec.

(** The token vectors e_1 .. e_n of a text. *)
Definition token_vectors (text : string) : list (list R) :=
  map (fun w => AttentionRanker.embeddingForTokenId (N := Ideal.number)
                  (AttentionRanker.tokenIdFor w))
      (AttentionRanker.tokenize text).

Fixpoint dot_product (e q : list R) : R :=
  match e, q with
  | x :: e', y :: q' => (x * y + dot_product e' q')%R
  | _, _ => 0%R
  end.

(** s_i = (e_i . q) / sqrt 128 *)
Definition raw_scores (text : string) (q : list R) : list R :=
  map (fun e => (dot_product e q / R_sqrt.sqrt 128)%R) (token_vectors text).

Definition list_max (l : list R) : R :=
  match l with
  | [] => 0%R
  | x :: r => fold_right Rmax x r
  end.

(** The softmax with the maximum subtracted and the fallback divisor 1. *)
Definition softmax (ss : list R) : list R :=
  let ex := map (fun s => Rtrigo_def.exp (s - list_max ss)) ss in
  let total := Rsum ex in
  map (fun x => (x / (if Req_dec_T total 0 then 1 else total))%R) ex.

Definition vadd (a b : list R) : list R :=
  map (fun p => (fst p + snd p)%R) (combine a b).

Definition vscale (w : R) (e : list R) : list R := map (Rmult w) e.

(** c = w_1 e_1 + ... + w_n e_n *)
Definition context (es : list (list R)) (ws : list R) : list R :=
  fold_right (fun ew acc => vadd (vscale (snd ew) (fst ew)) acc)
             (repeat 0%R AttentionRanker.embedDim) (combine es ws).

End AttentionSpec.

(** ** Sample data *)

Module Samples.

Definition entry (k t : string) : string * PostData :=
  (k, {| text := t; hidden := false |}).

Definition one_post : PostMap := [entry "1" "ai news today"].

Definition two_posts : PostMap :=
  [entry "1" "ai news today"; entry "2" "sports results"].

Definition state_of (fs : list (Filter (N := Ideal.number))) (m : PostMap)
  : State (N := Ideal.number) :=
  {| filters := fs;
     processedPosts := m;
     postBatch := [];
     stats_processed := 0;
     stats_hidden := 0;
     enabled := true;
     batchTimeout := false |}.

(** [Math.exp] where ECMAScript prescribes its value exactly: at NaN, at
    the zeros and at the infinities.  Everywhere else the result is left to
    the implementation; the sample returns NaN there, so that nothing
    computed with it rests on an approximation. *)
Definition exp_spec (x : spec_float) : spec_float :=
  match x with
  | S754_zero _ => Binary64.of_Z 1
  | S754_infinity false => S754_infinity false
  | S754_infinity true => S754_zero false
  | _ => S754_nan
  end.

Definition mathlib64 : MathLib Binary64.number :=
  @Build_MathLib Binary64.number exp_spec.

(** A state in double precision. *)
Definition state64 (fs : list (Filter (N := Binary64.number))) (m : PostMap)
  : State (N := Binary64.number) :=
  {| filters := fs;
     processedPosts := m;
     postBatch := [];
     stats_processed := 0;
     stats_hidden := 0;
     enabled := true;
     batchTimeout := false |}.

(** Two posts with the same single token, once and three times. *)
Definition ai_posts : PostMap := [entry "1" "ai"; entry "2" "ai ai ai"].

(** One post about "b" followed by [n] posts about "a". *)
Definition b_then_a (n : nat) : PostMap :=
  entry "0" "b"
  :: map (fun i => entry (String (ascii_of_nat (65 + i)) EmptyString) "a") (seq 0 n).

(** [n] extracted posts with pairwise distinct ids (for [n] below 200). *)
Definition numbered (n : nat) : list Post :=
  map (fun i => {| id := String (ascii_of_nat (33 + i)) EmptyString;
                   post_text := "post";
                   user := "unknown" |})
      (seq 0 n).

End Samples.

(** * Further functions of the content script *)

(** ** The remaining message handlers *)

Section Handlers.
Context {N : Number} {M : MathLib N}.

Definition set_enabled (e : bool) (st : State) : State :=
  {| filters := filters st;
     processedPosts := processedPosts st;
     postBatch := postBatch st;
     stats_processed := stats_processed st;
     stats_hidden := stats_hidden st;
     enabled := e;
     batchTimeout := batchTimeout st |}.

(** The loop [if (postData.hidden) { showPost(postId); postData.hidden =
    false; }] over the map, followed by [state.stats.hidden = 0]. *)
Definition show_everything (st : State) : State :=
  {| filters := filters st;
     processedPosts := show_all (processedPosts st);
     postBatch := postBatch st;
     stats_processed := stats_processed st;
     stats_hidden := 0;
     enabled := enabled st;
     batchTimeout := batchTimeout st |}.

(** The handler of the message [toggle]; [e] is [!!request.enabled]. *)
Definition toggle (e : bool) (st : State) : State :=
  let st1 := set_enabled e st in
  if negb (enabled st1) then show_everything st1
  else applyRankedFiltering st1.

(** The handler of the message [rescan]. *)
Definition rescan (st : State) : State := applyRankedFiltering st.

(** The handler of the message [reset]. *)
Definition reset (st : State) : State :=
  {| filters := [];
     processedPosts := show_all (processedPosts st);
     postBatch := postBatch st;
     stats_processed := 0;
     stats_hidden := 0;
     enabled := enabled st;
     batchTimeout := batchTimeout st |}.

(** The answer to the message [getStatus]. *)
Record Status := {
  status_filters : list FilterMetadata;
  status_processed : Z;
  status_hidden : Z;
  status_enabled : bool
}.

Definition getStatus (st : State) : Status :=
  {| status_filters := filterMetadata st;
     status_processed := stats_processed st;
     status_hidden := stats_hidden st;
     status_enabled := enabled st |}.

End Handlers.

(** ** Request matching *)

(** [CONFIG.apiEndpoints] *)
Definition apiEndpoints : list string :=
  ["/timeline"; "/home_timeline"; "/search/adaptive"; "/graphql"; "/2/timeline"]%string.

(** [CONFIG.apiEndpoints.some(endpoint => url.includes(endpoint))], for a
    [url] that is a string. *)
Definition isTimelineRequest (url : string) : bool :=
  existsb (fun endpoint => JSString.includes endpoint url) apiEndpoints.

(** ** Extraction of posts from a response *)

(** A value produced by [JSON.parse].  An object is the list of its own
    properties in the order of [Object.values]; its keys are pairwise
    distinct. *)
#[local] Unset Elimination Schemes.
Inductive JSON :=
| JNull
| JBool (b : bool)
| JNumber (x : spec_float)
| JString (s : string)
| JArray (items : list JSON)
| JObject (props : list (string * JSON)).
#[local] Set Elimination Schemes.

Module Extract.

(** ToBoolean *)
Definition truthy (v : JSON) : bool :=
  match v with
  | JNull => false
  | JBool b => b
  | JNumber x => Binary64.is_truthy x
  | JString s => negb (JSString.isEmpty s)
  | JArray _ | JObject _ => true
  end.

Fixpoint lookup (k : string) (props : list (string * JSON)) : option JSON :=
  match props with
  | [] => None
  | (k', v) :: r => if String.eqb k k' then Some v else lookup k r
  end.

(** [v.k] for a value [v] other than [null] and one of the keys the
    extraction reads, none of which is inherited; [None] is [undefined]. *)
Definition get (v : JSON) (k : string) : option JSON :=
  match v with
  | JObject props => lookup k props
  | _ => None
  end.

(** [v?.k] for [v] possibly [undefined] or [null]. *)
Definition get_opt (v : option JSON) (k : string) : option JSON :=
  match v with
  | Some v' => get v' k
  | None => None
  end.

Definition truthy_opt (v : option JSON) : bool :=
  match v with
  | Some v' => truthy v'
  | None => false
  end.

(** [a || b] *)
Definition or_else (a b : option JSON) : option JSON :=
  if truthy_opt a then a else b.

(** The object pushed on [posts]. *)
Record RawPost := { raw_id : JSON; raw_text : JSON; raw_user : JSON }.

(** [obj.full_text || obj.text || obj.legacy?.full_text] *)
Definition tweet_text (obj : JSON) : option JSON :=
  or_else (get obj "full_text")
          (or_else (get obj "text") (get_opt (get obj "legacy") "full_text")).

(** [obj.user?.screen_name ||
     obj.core?.user_results?.result?.legacy?.screen_name] *)
Definition tweet_user (obj : JSON) : option JSON :=
  or_else (get_opt (get obj "user") "screen_name")
          (get_opt (get_opt (get_opt (get_opt (get obj "core") "user_results")
                                     "result") "legacy") "screen_name").

(** [obj.id_str || obj.rest_id] *)
Definition tweet_id (obj : JSON) : option JSON :=
  or_else (get obj "id_str") (get obj "rest_id").

Definition default (d : JSON) (v : option JSON) : JSON :=
  match v with
  | Some v' => v'
  | None => d
  end.

(** The [posts.push] of [findTweets]: [random n] is the string that the
    [n]-th evaluation of [Math.random().toString()] returns, and the
    number of evaluations so far is threaded with the array. *)
Definition push_tweet (random : nat -> string) (obj : JSON)
           (acc : list RawPost * nat) : list RawPost * nat :=
  if truthy_opt (tweet_text obj) then
    let '(posts, n) := acc in
    let '(id, n') :=
      if truthy_opt (tweet_id obj) then (default JNull (tweet_id obj), n)
      else (JString (random n), S n) in
    (posts ++ [{| raw_id := id;
                  raw_text := default (JString "")
                                (or_else (tweet_text obj) (Some (JString "")));
                  raw_user := default (JString "unknown")
                                (or_else (tweet_user obj) (Some (JString "unknown"))) |}],
     n')
  else acc.

Fixpoint findTweets (random : nat -> string) (obj : JSON)
         (acc : list RawPost * nat) : list RawPost * nat :=
  let visit (acc : list RawPost * nat) (value : JSON) : list RawPost * nat :=
    match value with
    | JArray items => fold_left (fun acc item => findTweets random item acc) items acc
    | JObject _ => findTweets random value acc
    | _ => acc
    end in
  match obj with
  | JObject props =>
      fold_left (fun acc kv => visit acc (snd kv)) props (push_tweet random obj acc)
  | JArray items =>
      fold_left visit items acc
  | _ => acc
  end.

(** The callback of [Object.values(obj).forEach] in [findTweets]. *)
Definition visit (random : nat -> string) (acc : list RawPost * nat) (value : JSON)
  : list RawPost * nat :=
  match value with
  | JArray items => fold_left (fun acc item => findTweets random item acc) items acc
  | JObject _ => findTweets random value acc
  | _ => acc
  end.

Definition extractPosts (random : nat -> string) (data : JSON) : list RawPost :=
  fst (findTweets random data ([], O)).

(** What [extractPosts] delivers for every post: three truthy fields. *)
Definition complete (p : RawPost) : Prop :=
  truthy (raw_id p) = true /\ truthy (raw_text p) = true /\ truthy (raw_user p) = true.

(** [r] extends the array of [acc] by posts that satisfy [Q]. *)
Definition extends (Q : RawPost -> Prop) (r acc : list RawPost * nat) : Prop :=
  exists l, fst r = fst acc ++ l /\ Forall Q l.

(** A raw post whose three fields are strings is a [Post]. *)
Definition to_post (p : RawPost) : option Post :=
  match raw_id p, raw_text p, raw_user p with
  | JString i, JString t, JString u => Some {| id := i; post_text := t; user := u |}
  | _, _, _ => None
  end.

(** The extracted posts as records of strings, when every field of every
    one of them is a string. *)
Fixpoint typed (raw : list RawPost) : option (list Post) :=
  match raw with
  | [] => Some []
  | p :: r =>
      match to_post p, typed r with
      | Some q, Some qs => Some (q :: qs)
      | _, _ => None
      end
  end.

End Extract.

(** * Vocabulary of the further properties *)

(** Induction on JSON values, through arrays and objects. *)
Section JSONInduction.
Variable P : JSON -> Prop.
Hypothesis Hnull : P JNull.
Hypothesis Hbool : forall b, P (JBool b).
Hypothesis Hnumber : forall x, P (JNumber x).
Hypothesis Hstring : forall s, P (JString s).
Hypothesis Harray : forall items, Forall P items -> P (JArray items).
Hypothesis Hobject : forall props, Forall (fun kv => P (snd kv)) props -> P (JObject props).

Fixpoint JSON_induction (j : JSON) : P j :=
  match j with
  | JNull => Hnull
  | JBool b => Hbool b
  | JNumber x => Hnumber x
  | JString s => Hstring s
  | JArray items =>
      Harray items
        ((fix all (l : list JSON) : Forall P l :=
            match l with
            | [] => Forall_nil P
            | x :: r => Forall_cons x (JSON_induction x) (all r)
            end) items)
  | JObject props =>
      Hobject props
        ((fix all (l : list (string * JSON)) : Forall (fun kv => P (snd kv)) l :=
            match l with
            | [] => Forall_nil _
            | kv :: r =>
                Forall_cons (P := fun kv => P (snd kv)) kv
                  (match kv return P (snd kv) with (k, v) => JSON_induction v end)
                  (all r)
            end) props)
  end.

End JSONInduction.

(** Every entry of a vector lies in [[-b, b]]. *)
Definition within (b : R) (v : list R) : Prop :=
  Forall (fun x => (- b <= x <= b)%R) v.

(** Multiplication of Numbers is commutative.  It is for the reals and for
    IEEE doubles. *)
Class NumberCommutes (N : Number) : Prop := {
  num_mul_comm : forall a b : num, num_mul a b = num_mul b a
}.

(** ** The decision of a pass on one entry *)

Section Decisions.
Context {N : Number} {M : MathLib N}.

(** A filter lets the flag it finds stand (hide) or overwrites it (show). *)
Definition keeps (f : Filter) : bool :=
  match mode f with
  | hide => true
  | show => false
  end.

(** A filter sets the flag of an entry: the relevance reaches the threshold
    (hide), or the key is not in the retain-set (show). *)
Definition forces (f : Filter) (m : PostMap) (kv : string * PostData) : bool :=
  match mode f with
  | hide => num_leb (threshold f) (relevance f (snd kv))
  | show =>
      negb (set_has (fst kv)
              (map postId (slice0 (effective_topK f)
                                  (js_sort by_similarity (score_posts f 0 m)))))
  end.

Definition all_keep (fs : list Filter) : bool := forallb keeps fs.

(** Some filter of the list sets the flag and every later one lets it
    stand. *)
Fixpoint some_forces (fs : list Filter) (m : PostMap) (kv : string * PostData) : bool :=
  match fs with
  | [] => false
  | f :: r => (forces f m kv && all_keep r) || some_forces r m kv
  end.

(** The flag of an entry after the filters [fs], from the flag before. *)
Definition decided (fs : list Filter) (m : PostMap) (kv : string * PostData)
  : string * PostData :=
  (fst kv, set_hidden ((hidden (snd kv) && all_keep fs) || some_forces fs m kv) (snd kv)).

End Decisions.

(** ** The runs of the content script *)

Section Runs.
Context {N : Number} {M : MathLib N}.

(** [init], from the saved tuples on: the restored filters and nothing
    cached. *)
Definition init (stored : list FilterMetadata) : State :=
  set_filters (restoreFilters stored) initial_state.

(** The states the content script goes through: [init], then responses,
    timer events and the messages of the popup, in any order, each handler
    taken as one step.  The responses are those whose extracted posts have
    strings as id, text and user: [extractPosts] passes on any truthy value,
    and on a text that is not a string the scorer throws in the middle of a
    pass, which these runs leave out. *)
Inductive runs : State -> Prop :=
| run_init (stored : list FilterMetadata) : runs (init stored)
| run_response (random : nat -> string) (data : JSON) (posts : list Post) (st : State) :
    Extract.typed (Extract.extractPosts random data) = Some posts ->
    runs st -> runs (processPostData posts st)
| run_timeout (st : State) : runs st -> runs (timeout_fired st)
| run_add (command : string) (st : State) : runs st -> runs (addFilter command st)
| run_remove (index : nat) (st : State) : runs st -> runs (removeFilter index st)
| run_rescan (st : State) : runs st -> runs (rescan st)
| run_toggle (e : bool) (st : State) : runs st -> runs (toggle e st)
| run_reset (st : State) : runs st -> runs (reset st).

(** What every step of a run keeps: the keys of the cache are distinct and
    the hidden count is the number of hidden flags. *)
Definition consistent (st : State) : Prop :=
  NoDup (map fst (processedPosts st))
  /\ stats_hidden st = Z.of_nat (count_hidden (processedPosts st)).

End Runs.

(** * Properties *)

(** ** The model on known values *)

(** The hash is FNV-1a: offset basis on the empty string, and the published
    value on "a". *)
Example hash32_empty : AttentionRanker.hash32 "" = 2166136261.
Proof. reflexivity. Qed.

Example hash32_a : AttentionRanker.hash32 "a" = 3826002220.
Proof. reflexivity. Qed.

(** The first output of xorshift32 (13, 17, 5) from the seed 1. *)
Example xorshift32_1 : AttentionRanker.xorshift32 1 = 270369.
Proof. reflexivity. Qed.

Example tokenize_example :
  AttentionRanker.tokenize "  Hello   World  " = ["hello"; "world"]%string.
Proof. reflexivity. Qed.

(** The literal 0.2 as a double, and stored in a [Float32Array]. *)
Example lit_0_2_binary64 :
  AttentionRanker.lit_0_2 (N := Binary64.number)
  = S754_finite false 7205759403792794 (-55)
  /\ @fround Binary64.number (AttentionRanker.lit_0_2 (N := Binary64.number))
     = S754_finite false 7205759511166976 (-55).
Proof. split; reflexivity. Qed.

(** ** Strings *)

Lemma trimStart_blank (s : string) : blank s -> JSString.trimStart s = EmptyString.
Proof.
  induction s as [|c r IH]; intros Hb; simpl; [reflexivity|].
  rewrite (Hb c) by (simpl; auto).
  apply IH. intros c' Hc'. apply Hb. simpl; auto.
Qed.

Lemma trim_blank (s : string) : blank s -> JSString.trim s = EmptyString.
Proof.
  intros Hb. unfold JSString.trim. rewrite trimStart_blank by assumption. reflexivity.
Qed.

(** ** The command parser *)

Section ParserFacts.
Context {N : Number}.

Lemma parseCommand_null (command : string) :
  JSString.trim command = EmptyString -> parseCommand command = None.
Proof. intros H. unfold parseCommand. rewrite H. reflexivity. Qed.

Lemma parseCommand_some (command txt q : string) (m : Mode) (k : Z) :
  JSString.trim command = txt ->
  JSString.isEmpty txt = false ->
  parse_text txt = (m, q, k) ->
  parseCommand command =
    Some {| query := q; mode := m;
            queryVec := AttentionRanker.buildQueryVector q;
            topK := k; threshold := lit_0_5 |}.
Proof.
  intros Ht He Hp. unfold parseCommand. rewrite Ht, He, Hp. reflexivity.
Qed.

End ParserFacts.

(** C3: [parse "hide sports"] is the hide filter for "sports" with threshold
    0.5; [parse "show top 10 tech"] is the show filter for "tech" with topK
    10, the matched "top 10" removed from the query; and a command that is
    empty or consists of white space only yields null. *)
Theorem parse_grammar_examples (N : Number) :
  parseCommand "hide sports" =
    Some {| query := "sports"; mode := hide;
            queryVec := AttentionRanker.buildQueryVector "sports";
            topK := 20; threshold := lit_0_5 |}
  /\ parseCommand "show top 10 tech" =
    Some {| query := "tech"; mode := show;
            queryVec := AttentionRanker.buildQueryVector "tech";
            topK := 10; threshold := lit_0_5 |}
  /\ parseCommand "" = None
  /\ forall command, blank command -> parseCommand command = None.
Proof.
  split; [|split; [|split]].
  - apply (parseCommand_some "hide sports" "hide sports" "sports" hide 20); reflexivity.
  - apply (parseCommand_some "show top 10 tech" "show top 10 tech" "tech" show 10); reflexivity.
  - apply parseCommand_null. reflexivity.
  - intros command Hb. apply parseCommand_null, trim_blank, Hb.
Qed.

Lemma parse_grammar_examples_witness :
  blank "   " /\ parseCommand (N := Binary64.number) "   " = None.
Proof.
  assert (Hb : blank "   ").
  { intros c Hc. simpl in Hc.
    repeat (destruct Hc as [<- | Hc]; [reflexivity|]). destruct Hc. }
  split; [exact Hb|].
  exact (proj2 (proj2 (proj2 (parse_grammar_examples Binary64.number))) "   "%string Hb).
Defined.

Lemma Rltb_true (x y : R) : Ideal.Rltb x y = true <-> (x < y)%R.
Proof. unfold Ideal.Rltb. destruct (Rlt_dec x y); split; intros; auto; discriminate. Qed.

Lemma Rltb_false (x y : R) : Ideal.Rltb x y = false <-> (y <= x)%R.
Proof.
  unfold Ideal.Rltb. destruct (Rlt_dec x y); split; intros; auto; try discriminate; lra.
Qed.

Lemma Rleb_true (x y : R) : Ideal.Rleb x y = true <-> (x <= y)%R.
Proof. unfold Ideal.Rleb. destruct (Rle_dec x y); split; intros; auto; discriminate. Qed.

Lemma Reqb_true (x y : R) : Ideal.Reqb x y = true <-> x = y.
Proof. unfold Ideal.Reqb. destruct (Req_dec_T x y); split; intros; auto; discriminate. Qed.

#[export] Instance Ideal_compare : NumberCompare Ideal.number.
Proof.
  split. simpl. intros a b H%Rltb_true.
  unfold Ideal.Rleb. destruct (Rle_dec b a); [lra|reflexivity].
Qed.

(** Real numbers are comparable. *)
Lemma Ideal_comparable (ss : list R) : comparable (N := Ideal.number) ss.
Proof.
  intros a b c _ _ _. simpl. repeat split.
  - apply Rltb_false. lra.
  - intros H1%Rltb_true H2%Rltb_true. apply Rltb_true. lra.
  - intros H%Rltb_true.
    destruct (Rlt_dec a b) as [Hab|Hab]; [left; apply Rltb_true; exact Hab|].
    right. apply Rltb_true. lra.
  - unfold zero. simpl. destruct (Rlt_dec a b) as [H|H].
    + rewrite (proj2 (Rltb_true a b) H). apply Rltb_true. lra.
    + rewrite (proj2 (Rltb_false a b)) by lra. apply Rltb_false. lra.
Qed.

Lemma comparableb_sound {N : Number} (ss : list num) :
  comparableb ss = true -> comparable ss.
Proof.
  unfold comparableb. intros H a b c Ha Hb Hc.
  rewrite forallb_forall in H. specialize (H a Ha).
  rewrite forallb_forall in H. specialize (H b Hb).
  rewrite forallb_forall in H. specialize (H c Hc).
  apply andb_true_iff in H. destruct H as [H H4].
  apply andb_true_iff in H. destruct H as [H H3].
  apply andb_true_iff in H. destruct H as [H1 H2].
  apply negb_true_iff in H1. apply Bool.eqb_prop in H4.
  repeat split.
  - exact H1.
  - intros Hab Hbc. rewrite Hab, Hbc in H2. exact H2.
  - intros Hac. rewrite Hac in H3. apply orb_true_iff. exact H3.
  - exact H4.
Qed.

(** Comparability is inherited by every list made of the same values. *)
Lemma comparable_incl {N : Number} (ss ss' : list num) :
  incl ss ss' -> comparable ss' -> comparable ss.
Proof. intros Hi Hc a b c Ha Hb Hc'. apply Hc; apply Hi; assumption. Qed.

Lemma SFcompare_Lt_swap (a b : spec_float) :
  SFcompare a b = Some Lt -> SFcompare b a = Some Gt.
Proof.
  destruct a as [sa|sa| |sa ma ea], b as [sb|sb| |sb mb eb]; simpl;
    try discriminate; try (destruct sa; discriminate);
    try (destruct sb; discriminate); try (destruct sa, sb; discriminate || reflexivity).
  destruct sa, sb; try discriminate; try reflexivity;
    rewrite (Z.compare_antisym ea eb);
    destruct (Z.compare ea eb); simpl; try discriminate; try reflexivity;
    pose proof (Pos.compare_cont_antisym ma mb Eq) as Ha; simpl in Ha;
    rewrite <- Ha;
    destruct (Pos.compare_cont Eq ma mb); simpl; discriminate || reflexivity.
Qed.

#[export] Instance Binary64_compare : NumberCompare Binary64.number.
Proof.
  split. simpl. intros a b H. unfold SFltb in H. unfold SFleb.
  destruct (SFcompare a b) as [[| |]|] eqn:E; try discriminate.
  rewrite (SFcompare_Lt_swap a b E). reflexivity.
Qed.

(** ** Stable sorting *)

Section SortFacts.
Context {A : Type}.
Variable lt : A -> A -> bool.
Variable idx : A -> nat.

Hypothesis lt_irrefl : forall a, lt a a = false.
Hypothesis lt_trans : forall a b c, lt a b = true -> lt b c = true -> lt a c = true.
Hypothesis lt_cotrans : forall a b c, lt a c = true -> lt a b = true \/ lt b c = true.

Local Abbreviation prec := (precedes lt idx).

Lemma sort_insert_perm (x : A) (l : list A) :
  Permutation (sort_insert lt x l) (x :: l).
Proof.
  induction l as [|y r IH]; simpl; [reflexivity|].
  destruct (lt x y).
  - rewrite IH. apply perm_swap.
  - reflexivity.
Qed.

Lemma js_sort_perm (l : list A) : Permutation (js_sort lt l) l.
Proof.
  induction l as [|x r IH]; simpl; [constructor|].
  rewrite sort_insert_perm. constructor. exact IH.
Qed.

Lemma precedes_irrefl (a : A) : prec a a = false.
Proof. unfold precedes. rewrite lt_irrefl, Nat.ltb_irrefl. reflexivity. Qed.

Lemma precedes_asym (a b : A) : prec a b = true -> prec b a = false.
Proof.
  unfold precedes. intros H.
  apply orb_true_iff in H. apply orb_false_iff.
  destruct H as [H|H].
  - split.
    + destruct (lt a b) eqn:E; [|reflexivity].
      pose proof (lt_trans _ _ _ H E) as F. rewrite lt_irrefl in F. discriminate.
    + rewrite H. reflexivity.
  - apply andb_true_iff in H. destruct H as [H1 H2].
    apply negb_true_iff in H1. apply Nat.ltb_lt in H2. split; [exact H1|].
    apply andb_false_iff. right. apply Nat.ltb_ge. lia.
Qed.

Lemma sort_insert_sorted (x : A) (s : list A) :
  StronglySorted (fun a b => prec a b = true) s ->
  Forall (fun y => idx x < idx y)%nat s ->
  StronglySorted (fun a b => prec a b = true) (sort_insert lt x s).
Proof.
  induction 1 as [|y r Hs IH Hy]; intros Hx; simpl.
  - repeat constructor.
  - inversion Hx as [|? ? Hxy Hxr]; subst.
    destruct (lt x y) eqn:E.
    + constructor; [apply IH; exact Hxr|].
      eapply Permutation_Forall; [symmetry; apply sort_insert_perm|].
      constructor; [|exact Hy].
      unfold precedes. rewrite E. reflexivity.
    + constructor; [constructor; assumption|].
      constructor.
      * unfold precedes. rewrite E. simpl.
        rewrite (proj2 (Nat.ltb_lt _ _) Hxy). apply orb_true_r.
      * rewrite Forall_forall in *. intros z Hz.
        specialize (Hy z Hz). specialize (Hxr z Hz).
        unfold precedes in *.
        rewrite (proj2 (Nat.ltb_lt _ _) Hxr), andb_true_r.
        apply orb_true_iff in Hy. destruct Hy as [Hy|Hy].
        -- destruct (lt_cotrans _ x _ Hy) as [F|F].
           ++ rewrite F. reflexivity.
           ++ rewrite E in F. discriminate.
        -- apply andb_true_iff in Hy. destruct Hy as [Hy _].
           apply negb_true_iff in Hy.
           destruct (lt x z) eqn:Exz; [|apply orb_true_r].
           destruct (lt_cotrans _ y _ Exz) as [F|F]; congruence.
Qed.

Lemma js_sort_sorted (l : list A) :
  StronglySorted (fun a b => idx a < idx b)%nat l ->
  StronglySorted (fun a b => prec a b = true) (js_sort lt l).
Proof.
  induction 1 as [|x r Hs IH Hx]; simpl; [constructor|].
  apply sort_insert_sorted; [exact IH|].
  eapply Permutation_Forall; [symmetry; apply js_sort_perm|exact Hx].
Qed.

(** In a list sorted by [precedes], an element belongs to the first [n]
    exactly when fewer than [n] elements precede it. *)
Lemma sorted_firstn (s : list A) :
  StronglySorted (fun a b => prec a b = true) s ->
  forall n a,
    In a (firstn n s) <->
    In a s /\ (List.length (filter (fun b => prec b a) s) < n)%nat.
Proof.
  induction 1 as [|y r Hs IH Hy]; intros n a.
  - rewrite firstn_nil. simpl. tauto.
  - rewrite Forall_forall in Hy.
    assert (Hzero : List.length (filter (fun b => prec b y) r) = 0%nat).
    { rewrite (filter_ext_in (fun b => prec b y) (fun _ => false)).
      - clear. induction r; simpl; auto.
      - intros b Hb. apply precedes_asym, Hy, Hb. }
    destruct n as [|n]; simpl.
    + split; [tauto|]. intros [_ H]. lia.
    + split.
      * intros [<-|Ha].
        -- split; [auto|]. rewrite precedes_irrefl, Hzero. lia.
        -- apply IH in Ha. destruct Ha as [Ha Hc].
           split; [auto|]. rewrite (Hy a Ha). simpl. lia.
      * intros [[<-|Ha] Hc]; [auto|].
        right. apply IH. split; [exact Ha|].
        rewrite (Hy a Ha) in Hc. simpl in Hc. lia.
Qed.

(** The result does not depend on the sorting algorithm: a list has at most
    one arrangement that is sorted by [precedes]. *)
Lemma sorted_unique (l l' : list A) :
  StronglySorted (fun a b => prec a b = true) l ->
  StronglySorted (fun a b => prec a b = true) l' ->
  Permutation l l' -> l = l'.
Proof.
  intros Hl. revert l'. induction Hl as [|x r Hr IH Hx]; intros l' Hl' Hp.
  - apply Permutation_nil in Hp. congruence.
  - destruct l' as [|y r']; [apply Permutation_sym, Permutation_nil in Hp; discriminate|].
    inversion Hl' as [|? ? Hr' Hy]; subst.
    rewrite Forall_forall in Hx, Hy.
    assert (Hxy : x = y).
    { assert (Hin : In x (y :: r')) by (eapply Permutation_in; [exact Hp|left; reflexivity]).
      destruct Hin as [->|Hin]; [reflexivity|].
      assert (Hin' : In y (x :: r))
        by (eapply Permutation_in; [symmetry; exact Hp|left; reflexivity]).
      destruct Hin' as [->|Hin']; [reflexivity|].
      pose proof (precedes_asym _ _ (Hx y Hin')) as F.
      rewrite (Hy x Hin) in F. discriminate. }
    subst y. f_equal. apply IH; [exact Hr'|].
    eapply Permutation_cons_inv. exact Hp.
Qed.

Lemma js_sort_unique (l l' : list A) :
  StronglySorted (fun a b => idx a < idx b)%nat l ->
  Permutation l' l ->
  StronglySorted (fun a b => prec a b = true) l' ->
  l' = js_sort lt l.
Proof.
  intros Hl Hp Hs. apply sorted_unique; [exact Hs|apply js_sort_sorted; exact Hl|].
  rewrite Hp. symmetry. apply js_sort_perm.
Qed.

End SortFacts.

(** The sort looks at the comparator on the elements of the array only. *)
Lemma sort_insert_ext {A : Type} (lt1 lt2 : A -> A -> bool) (x : A) (s : list A) :
  (forall y, In y s -> lt1 x y = lt2 x y) ->
  sort_insert lt1 x s = sort_insert lt2 x s.
Proof.
  induction s as [|y r IH]; intros H; simpl; [reflexivity|].
  rewrite (H y) by (left; reflexivity).
  destruct (lt2 x y); [|reflexivity].
  f_equal. apply IH. intros z Hz. apply H. right. exact Hz.
Qed.

Lemma js_sort_ext {A : Type} (lt1 lt2 : A -> A -> bool) (l : list A) :
  (forall x y, In x l -> In y l -> lt1 x y = lt2 x y) ->
  js_sort lt1 l = js_sort lt2 l.
Proof.
  induction l as [|x r IH]; intros H; simpl; [reflexivity|].
  rewrite IH by (intros a b Ha Hb; apply H; right; assumption).
  apply sort_insert_ext. intros y Hy. apply H; [left; reflexivity|].
  right. apply (Permutation_in _ (js_sort_perm lt2 r)). exact Hy.
Qed.

(** A comparator that is never positive leaves the array as it is. *)
Lemma js_sort_ties {A : Type} (lt : A -> A -> bool) (l : list A) :
  (forall x y, In x l -> In y l -> lt x y = false) -> js_sort lt l = l.
Proof.
  induction l as [|x r IH]; intros H; simpl; [reflexivity|].
  rewrite IH by (intros a b Ha Hb; apply H; right; assumption).
  destruct r as [|y r']; simpl; [reflexivity|].
  rewrite (H x y) by (simpl; auto). reflexivity.
Qed.

Lemma filter_length_perm {A : Type} (p : A -> bool) (l l' : list A) :
  Permutation l l' -> List.length (filter p l) = List.length (filter p l').
Proof.
  induction 1; simpl; auto.
  - destruct (p x); simpl; auto.
  - destruct (p x), (p y); reflexivity.
  - congruence.
Qed.

(** ** The post map *)

Lemma filter_map_length {A B : Type} (g : A -> B) (p : B -> bool) (l : list A) :
  List.length (filter p (map g l)) = List.length (filter (fun x => p (g x)) l).
Proof.
  induction l as [|x r IH]; simpl; [reflexivity|].
  destruct (p (g x)); simpl; congruence.
Qed.

Lemma map_fst_combine_seq {B : Type} (m : list B) (i0 : nat) :
  map fst (combine (seq i0 (List.length m)) m) = seq i0 (List.length m).
Proof.
  revert i0. induction m as [|x r IH]; intros i0; simpl; [reflexivity|].
  f_equal. apply IH.
Qed.

Lemma in_combine_seq {B : Type} (m : list B) (i0 j : nat) (x : B) :
  In (j, x) (combine (seq i0 (List.length m)) m) <->
  (i0 <= j)%nat /\ nth_error m (j - i0) = Some x.
Proof.
  revert i0. induction m as [|y r IH]; intros i0; simpl.
  - split; [tauto|]. intros [_ H]. destruct (j - i0)%nat; discriminate.
  - rewrite IH. split.
    + intros [H|[H1 H2]].
      * inversion H; subst. rewrite Nat.sub_diag. split; [lia|reflexivity].
      * split; [lia|]. replace (j - i0)%nat with (S (j - S i0)) by lia. exact H2.
    + intros [H1 H2].
      destruct (Nat.eq_dec i0 j) as [->|Hne].
      * rewrite Nat.sub_diag in H2. simpl in H2. left. congruence.
      * right. split; [lia|].
        replace (j - i0)%nat with (S (j - S i0)) in H2 by lia. exact H2.
Qed.

Lemma set_has_true (k : string) (ids : list string) :
  set_has k ids = true <-> In k ids.
Proof.
  unfold set_has. rewrite existsb_exists. split.
  - intros [x [Hx He]]. apply String.eqb_eq in He. congruence.
  - intros H. exists k. split; [exact H|apply String.eqb_refl].
Qed.

Lemma nodup_filter_member (ks tp : list string) :
  NoDup ks -> NoDup tp -> incl tp ks ->
  List.length (filter (fun k => set_has k tp) ks) = List.length tp.
Proof.
  intros Hks Htp Hincl. apply Permutation_length.
  apply NoDup_Permutation; [apply NoDup_filter; exact Hks|exact Htp|].
  intros k. rewrite filter_In, set_has_true. split; [tauto|].
  intros H. split; [apply Hincl; exact H|exact H].
Qed.

Lemma nth_error_update_at {A : Type} (f : A -> A) (l : list A) (i j : nat) :
  nth_error (update_at i f l) j =
  if Nat.eqb i j then option_map f (nth_error l j) else nth_error l j.
Proof.
  revert i j. induction l as [|x r IH]; intros i j.
  - destruct i, j; simpl; try reflexivity. destruct (Nat.eqb i j); reflexivity.
  - destruct i, j; simpl; try reflexivity. apply IH.
Qed.

Lemma update_at_length {A : Type} (f : A -> A) (l : list A) (i : nat) :
  List.length (update_at i f l) = List.length l.
Proof.
  revert i. induction l as [|x r IH]; intros [|i]; simpl; auto.
Qed.

Lemma nth_error_ext {A : Type} (l l' : list A) :
  (forall i, nth_error l i = nth_error l' i) -> l = l'.
Proof.
  revert l'. induction l as [|x r IH]; intros [|y r'] H.
  - reflexivity.
  - specialize (H 0%nat). discriminate.
  - specialize (H 0%nat). discriminate.
  - pose proof (H 0%nat) as H0. simpl in H0. inversion H0; subst.
    f_equal. apply IH. intros i. exact (H (S i)).
Qed.

(** ** Ranking *)

Section Ranking.
Context {N : Number} {M : MathLib N}.

Lemma score_posts_combine (f : Filter) (i0 : nat) (m : PostMap) :
  score_posts f i0 m = map (mk_item f) (combine (seq i0 (List.length m)) m).
Proof.
  revert i0. induction m as [|[k v] r IH]; intros i0; simpl; [reflexivity|].
  f_equal. apply IH.
Qed.

Lemma in_score_posts (f : Filter) (m : PostMap) (it : Item) :
  In it (score_posts f 0 m) <->
  exists j kv, nth_error m j = Some kv /\ it = mk_item f (j, kv).
Proof.
  rewrite score_posts_combine, in_map_iff. split.
  - intros [[j kv] [He Hin]]. apply in_combine_seq in Hin.
    rewrite Nat.sub_0_r in Hin. exists j, kv. split; [tauto|congruence].
  - intros [j [kv [Hn He]]]. exists (j, kv). split; [congruence|].
    apply in_combine_seq. rewrite Nat.sub_0_r. split; [lia|exact Hn].
Qed.

Lemma score_posts_increasing (f : Filter) (i0 : nat) (m : PostMap) :
  StronglySorted (fun a b => postData a < postData b)%nat (score_posts f i0 m)
  /\ Forall (fun it => i0 <= postData it)%nat (score_posts f i0 m).
Proof.
  revert i0. induction m as [|[k v] r IH]; intros i0; simpl.
  - split; constructor.
  - destruct (IH (S i0)) as [H1 H2]. split.
    + constructor; [exact H1|].
      eapply Forall_impl; [|exact H2]. simpl. intros; lia.
    + constructor; [simpl; lia|].
      eapply Forall_impl; [|exact H2]. simpl. intros; lia.
Qed.

Lemma nth_relevances (f : Filter) (m : PostMap) (i : nat) (kv : string * PostData) :
  nth_error m i = Some kv -> nth i (relevances f m) zero = relevance f (snd kv).
Proof.
  intros H. apply nth_error_nth. unfold relevances.
  rewrite nth_error_map, H. reflexivity.
Qed.

Lemma nodup_keys_index (m : PostMap) (i j : nat) (kv kv' : string * PostData) :
  NoDup (map fst m) ->
  nth_error m i = Some kv -> nth_error m j = Some kv' -> fst kv = fst kv' -> i = j.
Proof.
  intros Hnd Hi Hj He.
  apply (proj1 (NoDup_nth_error (map fst m)) Hnd).
  - rewrite length_map. apply nth_error_Some. congruence.
  - rewrite !nth_error_map, Hi, Hj. simpl. congruence.
Qed.

Lemma ranked_perm (f : Filter) (m : PostMap) :
  Permutation (ranked f m) (score_posts f 0 m).
Proof. apply js_sort_perm. Qed.

Lemma nth_default_in {A : Type} (l : list A) (d : A) (i : nat) :
  In d l -> In (nth i l d) l.
Proof.
  intros Hd. destruct (Nat.lt_ge_cases i (List.length l)) as [H|H].
  - apply nth_In. exact H.
  - rewrite nth_overflow by exact H. exact Hd.
Qed.

Section Comparable.
Variable f : Filter.
Variable m : PostMap.
Variable d : num.
Hypothesis scores_comparable : comparable (relevances f m).
Hypothesis d_score : In d (relevances f m).

Local Abbreviation ss := (relevances f m).

Lemma by_score_irrefl (a : Item) : by_score ss d a a = false.
Proof.
  unfold by_score.
  apply (scores_comparable _ _ _ (nth_default_in ss d (postData a) d_score)
           d_score d_score).
Qed.

Lemma by_score_trans (a b c : Item) :
  by_score ss d a b = true -> by_score ss d b c = true -> by_score ss d a c = true.
Proof.
  unfold by_score.
  apply (scores_comparable _ _ _ (nth_default_in ss d (postData a) d_score)
           (nth_default_in ss d (postData b) d_score)
           (nth_default_in ss d (postData c) d_score)).
Qed.

Lemma by_score_cotrans (a b c : Item) :
  by_score ss d a c = true -> by_score ss d a b = true \/ by_score ss d b c = true.
Proof.
  unfold by_score.
  apply (scores_comparable _ _ _ (nth_default_in ss d (postData a) d_score)
           (nth_default_in ss d (postData b) d_score)
           (nth_default_in ss d (postData c) d_score)).
Qed.

Lemma similarity_scored (it : Item) :
  In it (score_posts f 0 m) ->
  similarity it = nth (postData it) ss d /\ In (similarity it) ss.
Proof.
  intros H. apply in_score_posts in H. destruct H as [j [kv [Hj ->]]]. simpl.
  assert (E : nth_error ss j = Some (relevance f (snd kv))).
  { unfold relevances. rewrite nth_error_map, Hj. reflexivity. }
  split.
  - symmetry. apply nth_error_nth. exact E.
  - apply (nth_error_In _ _ E).
Qed.

(** On the elements of [similarities] the comparator of the sort is the
    order of the scores. *)
Lemma by_similarity_scored (a b : Item) :
  In a (score_posts f 0 m) -> In b (score_posts f 0 m) ->
  by_similarity a b = by_score ss d a b.
Proof.
  intros Ha Hb.
  destruct (similarity_scored a Ha) as [Ea Ia], (similarity_scored b Hb) as [Eb Ib].
  unfold by_similarity, by_score. rewrite <- Ea, <- Eb.
  apply (scores_comparable _ _ _ Ia Ib Ib).
Qed.

Lemma ranked_by_score : ranked f m = js_sort (by_score ss d) (score_posts f 0 m).
Proof. unfold ranked. apply js_sort_ext. intros a b. apply by_similarity_scored. Qed.

Lemma ranked_sorted :
  StronglySorted (fun a b => precedes (by_score ss d) postData a b = true) (ranked f m).
Proof.
  rewrite ranked_by_score. apply js_sort_sorted.
  - apply by_score_cotrans.
  - apply score_posts_increasing.
Qed.

Lemma count_preceding (i : nat) (kv : string * PostData) :
  nth_error m i = Some kv ->
  List.length (filter (fun b => precedes (by_score ss d) postData b (mk_item f (i, kv)))
                      (ranked f m))
  = rank ss i.
Proof.
  intros Hi.
  rewrite (filter_length_perm _ _ _ (ranked_perm f m)).
  rewrite score_posts_combine, filter_map_length.
  unfold rank. unfold relevances at 3. rewrite length_map.
  rewrite <- (map_fst_combine_seq m 0) at 2.
  rewrite filter_map_length.
  f_equal. apply filter_ext_in. intros [j kv'] Hin.
  apply in_combine_seq in Hin. rewrite Nat.sub_0_r in Hin. destruct Hin as [_ Hj].
  unfold precedes, outranks, by_score. simpl.
  assert (Li : (i < List.length ss)%nat).
  { unfold relevances. rewrite length_map. apply nth_error_Some. congruence. }
  assert (Lj : (j < List.length ss)%nat).
  { unfold relevances. rewrite length_map. apply nth_error_Some. congruence. }
  rewrite (nth_indep ss zero d Li), (nth_indep ss zero d Lj). reflexivity.
Qed.

(** Membership in the retain-set is decided by the rank. *)
Lemma top_member (n i : nat) (kv : string * PostData) :
  NoDup (map fst m) ->
  nth_error m i = Some kv ->
  set_has (fst kv) (map postId (firstn n (ranked f m)))
  = (rank ss i <? n)%nat.
Proof.
  intros Hnd Hi. apply eq_true_iff_eq.
  rewrite set_has_true, in_map_iff, Nat.ltb_lt.
  pose proof (sorted_firstn (by_score ss d) postData by_score_irrefl
                by_score_trans (ranked f m) ranked_sorted n) as Hf.
  split.
  - intros [it [Hid Hin]]. apply Hf in Hin. destruct Hin as [Hin Hc].
    apply (Permutation_in _ (ranked_perm f m)) in Hin.
    apply in_score_posts in Hin. destruct Hin as [j [kv' [Hj ->]]].
    simpl in Hid.
    assert (i = j) by (eapply nodup_keys_index; eauto). subst j.
    assert (kv' = kv) by congruence. subst kv'.
    rewrite (count_preceding i kv Hi) in Hc. exact Hc.
  - intros Hr. exists (mk_item f (i, kv)). split; [reflexivity|].
    apply Hf. split.
    + apply (Permutation_in _ (Permutation_sym (ranked_perm f m))).
      apply in_score_posts. eauto.
    + rewrite (count_preceding i kv Hi). exact Hr.
Qed.

End Comparable.

(** Membership in the retain-set, for comparable scores. *)
Lemma top_member_rank (f : Filter) (m : PostMap) (n i : nat) (kv : string * PostData) :
  comparable (relevances f m) ->
  NoDup (map fst m) ->
  nth_error m i = Some kv ->
  set_has (fst kv) (map postId (firstn n (ranked f m)))
  = (rank (relevances f m) i <? n)%nat.
Proof.
  intros Hc Hnd Hi.
  apply (top_member f m (relevance f (snd kv)) Hc); [|exact Hnd|exact Hi].
  unfold relevances. apply in_map_iff. exists kv. split; [reflexivity|].
  apply (nth_error_In _ _ Hi).
Qed.

End Ranking.

(** ** The filtering pass *)

Section PassFacts.
Context {N : Number} {M : MathLib N}.

Lemma skeleton_keys (m : PostMap) : map fst m = map fst (skeleton m).
Proof. unfold skeleton. rewrite map_map. reflexivity. Qed.

Lemma skeleton_relevances (f : Filter) (m : PostMap) :
  relevances f m =
  map (fun kt => AttentionRanker.score
                   (AttentionRanker.attentionScore (snd kt) (queryVec f)))
      (skeleton m).
Proof. unfold relevances, skeleton, relevance. rewrite map_map. reflexivity. Qed.

Lemma skeleton_length (m : PostMap) : List.length (skeleton m) = List.length m.
Proof. apply length_map. Qed.

Lemma update_at_skeleton (g : string * PostData -> string * PostData)
      (m : PostMap) (i : nat) :
  (forall kv, (fst (g kv), text (snd (g kv))) = (fst kv, text (snd kv))) ->
  skeleton (update_at i g m) = skeleton m.
Proof.
  intros Hg. revert i. induction m as [|x r IH]; intros [|i]; simpl; try reflexivity.
  - rewrite Hg. reflexivity.
  - rewrite IH. reflexivity.
Qed.

Lemma hide_step_skeleton (f : Filter) (m : PostMap) (it : Item) :
  skeleton (hide_step f m it) = skeleton m.
Proof.
  unfold hide_step. destruct (num_leb _ _); [|reflexivity].
  apply update_at_skeleton. intros [k [t h]]. simpl. destruct h; reflexivity.
Qed.

Lemma show_step_eq (tp : list string) (kv : string * PostData) :
  show_step tp kv = (fst kv, set_hidden (negb (set_has (fst kv) tp)) (snd kv)).
Proof.
  destruct kv as [k [t h]]. unfold show_step, set_hidden. simpl.
  destruct (set_has k tp), h; reflexivity.
Qed.

Lemma applyFilter_show (m : PostMap) (f : Filter) :
  mode f = show ->
  applyFilter m f =
  map (show_step (map postId (slice0 (effective_topK f)
                                     (js_sort by_similarity (score_posts f 0 m))))) m.
Proof. intros H. unfold applyFilter. rewrite H. reflexivity. Qed.

Lemma applyFilter_hide (m : PostMap) (f : Filter) :
  mode f = hide ->
  applyFilter m f =
  fold_left (hide_step f) (js_sort by_similarity (score_posts f 0 m)) m.
Proof. intros H. unfold applyFilter. rewrite H. reflexivity. Qed.

Lemma applyFilter_skeleton (m : PostMap) (f : Filter) :
  skeleton (applyFilter m f) = skeleton m.
Proof.
  destruct (mode f) eqn:E.
  - rewrite (applyFilter_hide m f E).
    generalize (js_sort by_similarity (score_posts f 0 m)) as l.
    intros l. revert m. induction l as [|it l IH]; intros m; simpl; [reflexivity|].
    rewrite IH. apply hide_step_skeleton.
  - rewrite (applyFilter_show m f E). unfold skeleton. rewrite map_map.
    apply map_ext. intros kv. rewrite show_step_eq. reflexivity.
Qed.

Lemma applyFilters_skeleton (fs : list Filter) (m : PostMap) :
  skeleton (fold_left applyFilter fs m) = skeleton m.
Proof.
  revert m. induction fs as [|f fs IH]; intros m; simpl; [reflexivity|].
  rewrite IH. apply applyFilter_skeleton.
Qed.

Lemma count_hidden_visible (m : PostMap) :
  (count_hidden m + count_visible m = List.length m)%nat.
Proof.
  unfold count_hidden, count_visible.
  induction m as [|[k [t h]] r IH]; simpl; [reflexivity|].
  destruct h; simpl; lia.
Qed.

Lemma in_firstn {A : Type} (n : nat) (l : list A) (x : A) :
  In x (firstn n l) -> In x l.
Proof.
  intros H. rewrite <- (firstn_skipn n l). apply in_or_app. left. exact H.
Qed.

Lemma nodup_firstn {A : Type} (n : nat) (l : list A) :
  NoDup l -> NoDup (firstn n l).
Proof.
  intros H. rewrite <- (firstn_skipn n l) in H.
  exact (NoDup_app_remove_r _ _ H).
Qed.

Lemma score_posts_ids (f : Filter) (i0 : nat) (m : PostMap) :
  map postId (score_posts f i0 m) = map fst m.
Proof.
  revert i0. induction m as [|[k v] r IH]; intros i0; simpl; [reflexivity|].
  f_equal. apply IH.
Qed.

Lemma slice0_nonneg {A : Type} (z : Z) (l : list A) :
  0 <= z -> slice0 z l = firstn (Z.to_nat z) l.
Proof.
  intros H. unfold slice0. destruct (z <? 0) eqn:E; [|reflexivity].
  apply Z.ltb_lt in E. lia.
Qed.

(** A show filter decides every entry by its rank. *)
Lemma show_pass_entry (m : PostMap) (f : Filter) (i : nat) (kv : string * PostData) :
  comparable (relevances f m) ->
  NoDup (map fst m) -> mode f = show -> 0 <= effective_topK f ->
  nth_error m i = Some kv ->
  nth_error (applyFilter m f) i =
  Some (fst kv,
        set_hidden (negb (rank (relevances f m) i <? Z.to_nat (effective_topK f))%nat)
                   (snd kv)).
Proof.
  intros Hc Hnd Hm Hk Hi.
  rewrite (applyFilter_show m f Hm), nth_error_map, Hi. simpl.
  rewrite show_step_eq, slice0_nonneg by exact Hk.
  fold (ranked f m). rewrite (top_member_rank f m _ i kv Hc Hnd Hi). reflexivity.
Qed.

Lemma show_pass_count (m : PostMap) (f : Filter) :
  NoDup (map fst m) -> mode f = show -> 0 <= effective_topK f ->
  count_visible (applyFilter m f)
  = Nat.min (Z.to_nat (effective_topK f)) (List.length m).
Proof.
  intros Hnd Hm Hk.
  rewrite (applyFilter_show m f Hm), slice0_nonneg by exact Hk.
  fold (ranked f m).
  set (tp := map postId (firstn _ (ranked f m))).
  unfold count_visible. rewrite filter_map_length.
  rewrite (filter_ext _ (fun kv => set_has (fst kv) tp)).
  2:{ intros kv. rewrite show_step_eq. simpl. apply negb_involutive. }
  rewrite <- (filter_map_length fst (fun k => set_has k tp)).
  assert (Hp : Permutation (map postId (ranked f m)) (map fst m)).
  { rewrite <- (score_posts_ids f 0 m). apply Permutation_map, ranked_perm. }
  rewrite nodup_filter_member.
  - unfold tp. rewrite length_map, length_firstn.
    rewrite (Permutation_length (ranked_perm f m)), score_posts_combine, length_map.
    rewrite length_combine, length_seq, Nat.min_id. reflexivity.
  - exact Hnd.
  - unfold tp. rewrite <- firstn_map. apply nodup_firstn.
    eapply Permutation_NoDup; [symmetry; exact Hp|exact Hnd].
  - intros k Hin. unfold tp in Hin. rewrite <- firstn_map in Hin.
    apply in_firstn in Hin. eapply Permutation_in; [exact Hp|exact Hin].
Qed.

Lemma skeleton_entry (m1 m : PostMap) (i : nat) (kv : string * PostData) :
  skeleton m1 = skeleton m -> nth_error m i = Some kv ->
  exists kv1, nth_error m1 i = Some kv1
              /\ fst kv1 = fst kv /\ text (snd kv1) = text (snd kv).
Proof.
  intros Hs Hi.
  assert (E : nth_error (skeleton m1) i = Some (fst kv, text (snd kv))).
  { rewrite Hs. unfold skeleton. rewrite nth_error_map, Hi. reflexivity. }
  unfold skeleton in E. rewrite nth_error_map in E.
  destruct (nth_error m1 i) as [kv1|]; [|discriminate].
  exists kv1. simpl in E. inversion E. auto.
Qed.

(** The pass whose last filter is a show filter: what it keeps, how many
    posts it leaves visible and, for comparable relevances, which. *)
Lemma show_pass_final (st : State) (fs : list Filter) (f : Filter) :
  filters st = fs ++ [f] -> mode f = show -> 0 <= effective_topK f ->
  NoDup (map fst (processedPosts st)) ->
  let n := Z.to_nat (effective_topK f) in
  let m := processedPosts st in
  let m' := processedPosts (applyRankedFiltering st) in
  skeleton m' = skeleton m
  /\ List.length m' = List.length m
  /\ count_visible m' = Nat.min n (List.length m)
  /\ stats_hidden (applyRankedFiltering st) = Z.of_nat (count_hidden m')
  /\ (comparable (relevances f m) ->
      forall i kv, nth_error m i = Some kv ->
        nth_error m' i
        = Some (fst kv, set_hidden (negb (rank (relevances f m) i <? n)%nat) (snd kv))).
Proof.
  intros Hf Hm Hk Hnd n m m'.
  assert (Hm' : m' = applyFilter (fold_left applyFilter fs m) f
                /\ stats_hidden (applyRankedFiltering st) = Z.of_nat (count_hidden m')).
  { unfold m', m, applyRankedFiltering. rewrite Hf.
    destruct (fs ++ [f]) eqn:E; [destruct fs; discriminate|].
    rewrite <- E. simpl. rewrite fold_left_app. simpl. split; reflexivity. }
  destruct Hm' as [Hm' Hstat]. clearbody m'.
  set (m1 := fold_left applyFilter fs m) in *.
  assert (Hs1 : skeleton m1 = skeleton m) by apply applyFilters_skeleton.
  assert (Hnd1 : NoDup (map fst m1)).
  { rewrite skeleton_keys, Hs1, <- skeleton_keys. exact Hnd. }
  assert (Hlen1 : List.length m1 = List.length m).
  { rewrite <- (skeleton_length m1), Hs1. apply skeleton_length. }
  assert (Hrel : relevances f m1 = relevances f m).
  { rewrite !skeleton_relevances, Hs1. reflexivity. }
  assert (Hs' : skeleton m' = skeleton m).
  { rewrite Hm', applyFilter_skeleton. exact Hs1. }
  split; [exact Hs'|]. split.
  { rewrite <- (skeleton_length m'), Hs'. apply skeleton_length. }
  split.
  { rewrite Hm', <- Hlen1. apply show_pass_count; assumption. }
  split; [exact Hstat|].
  intros Hc i kv Hi.
  destruct (skeleton_entry m1 m i kv Hs1 Hi) as [kv1 [E1 [Ek Et]]].
  rewrite Hm'. rewrite <- Hrel in Hc |- *.
  rewrite (show_pass_entry m1 f i kv1 Hc Hnd1 Hm Hk E1).
  rewrite Ek. unfold set_hidden. rewrite Et. reflexivity.
Qed.

End PassFacts.

Section HideFacts.
Context {N : Number} {M : MathLib N}.

Lemma hide_fold (f : Filter) (l : list Item) (m : PostMap) (i : nat) :
  nth_error (fold_left (hide_step f) l m) i =
  option_map (fun kv => (fst kv,
                         set_hidden (hidden (snd kv) || existsb (reaches f i) l)
                                    (snd kv)))
             (nth_error m i).
Proof.
  revert m. induction l as [|it l IH]; intros m; simpl.
  - destruct (nth_error m i) as [[k [t h]]|]; simpl; [|reflexivity].
    rewrite orb_false_r. reflexivity.
  - rewrite IH. unfold hide_step, reaches at 2.
    destruct (num_leb (threshold f) (similarity it)).
    + rewrite nth_error_update_at.
      destruct (Nat.eqb (postData it) i); simpl.
      * destruct (nth_error m i) as [[k [t h]]|]; simpl; [|reflexivity].
        destruct h; reflexivity.
      * reflexivity.
    + rewrite andb_false_r. reflexivity.
Qed.

Lemma existsb_perm {A : Type} (p : A -> bool) (l l' : list A) :
  Permutation l l' -> existsb p l = existsb p l'.
Proof.
  intros H. apply eq_true_iff_eq. rewrite !existsb_exists.
  split; intros [x [Hx Hp]]; exists x; split; auto.
  - eapply Permutation_in; eauto.
  - eapply Permutation_in; [symmetry|]; eauto.
Qed.

Lemma reaches_scored (f : Filter) (m : PostMap) (i : nat) (kv : string * PostData) :
  nth_error m i = Some kv ->
  existsb (reaches f i) (score_posts f 0 m)
  = num_leb (threshold f) (relevance f (snd kv)).
Proof.
  intros Hi. apply eq_true_iff_eq. rewrite existsb_exists. split.
  - intros [it [Hin Hr]]. apply in_score_posts in Hin.
    destruct Hin as [j [kv' [Hj ->]]]. unfold reaches in Hr. simpl in Hr.
    apply andb_true_iff in Hr. destruct Hr as [He Hr].
    apply Nat.eqb_eq in He. subst j. congruence.
  - intros Hr. exists (mk_item f (i, kv)). split.
    + apply in_score_posts. eauto.
    + unfold reaches. simpl. rewrite Nat.eqb_refl. exact Hr.
Qed.

(** A hide filter, entry by entry. *)
Lemma hide_pass_entry (m : PostMap) (f : Filter) (i : nat) (kv : string * PostData) :
  mode f = hide ->
  nth_error m i = Some kv ->
  nth_error (applyFilter m f) i =
  Some (fst kv,
        set_hidden (hidden (snd kv) || num_leb (threshold f) (relevance f (snd kv)))
                   (snd kv)).
Proof.
  intros Hm Hi. rewrite (applyFilter_hide m f Hm), hide_fold, Hi. simpl.
  rewrite (existsb_perm _ _ _ (js_sort_perm by_similarity (score_posts f 0 m))).
  rewrite (reaches_scored f m i kv Hi). reflexivity.
Qed.

End HideFacts.

(** ** Results on the filtering pass *)

(** C6: a hide filter with threshold T marks hidden every known post whose
    relevance against the filter's query vector is at least T, and leaves
    the visibility of every post whose relevance is below T as it was; in
    particular a post that was hidden stays hidden. *)
Theorem hide_filter_frame {N : Number} {M : MathLib N} {C : NumberCompare N}
    (m : PostMap) (f : Filter) (i : nat) (kv : string * PostData) :
  mode f = hide ->
  nth_error m i = Some kv ->
  exists kv',
    nth_error (applyFilter m f) i = Some kv'
    /\ fst kv' = fst kv /\ text (snd kv') = text (snd kv)
    /\ (num_leb (threshold f) (relevance f (snd kv)) = true ->
        hidden (snd kv') = true)
    /\ (num_ltb (relevance f (snd kv)) (threshold f) = true ->
        hidden (snd kv') = hidden (snd kv))
    /\ (hidden (snd kv) = true -> hidden (snd kv') = true).
Proof.
  intros Hm Hi. eexists. split; [apply hide_pass_entry; eassumption|].
  simpl. repeat split.
  - intros ->. apply orb_true_r.
  - intros Hlt. rewrite (ltb_not_leb _ _ Hlt). apply orb_false_r.
  - intros ->. reflexivity.
Qed.

(** C4, for K >= 1: after a pass whose last filter is a show filter with
    topK = K over N >= K known posts, the posts and their texts are those of
    before, exactly K posts are visible and N - K are hidden, and, when the
    relevances of the posts are comparable, a post is visible exactly when
    fewer than K posts are ranked before it, where a post is ranked before
    another when its relevance is higher, or equal with an earlier place in
    the iteration order. *)
Theorem show_pass_top_k {N : Number} {M : MathLib N}
    (st : State) (fs : list Filter) (f : Filter) (K : Z) :
  filters st = fs ++ [f] ->
  mode f = show ->
  topK f = K ->
  NoDup (map fst (processedPosts st)) ->
  1 <= K <= Z.of_nat (List.length (processedPosts st)) ->
  let m := processedPosts st in
  let m' := processedPosts (applyRankedFiltering st) in
  skeleton m' = skeleton m
  /\ count_visible m' = Z.to_nat K
  /\ count_hidden m' = (List.length m - Z.to_nat K)%nat
  /\ (comparable (relevances f m) ->
      forall i kv, nth_error m i = Some kv ->
        nth_error m' i
        = Some (fst kv,
                set_hidden (negb (rank (relevances f m) i <? Z.to_nat K)%nat) (snd kv))).
Proof.
  intros Hf Hm HK Hnd Hr m m'.
  assert (He : effective_topK f = K).
  { unfold effective_topK. rewrite HK. destruct (K =? 0) eqn:E; [|reflexivity].
    apply Z.eqb_eq in E. lia. }
  destruct (show_pass_final st fs f Hf Hm) as [Hs [Hlen [Hc [_ Hv]]]];
    [lia|exact Hnd|].
  fold m m' in Hs, Hlen, Hc, Hv. rewrite He in Hc, Hv.
  assert (Hcv : count_visible m' = Z.to_nat K) by (unfold m in Hc; lia).
  split; [exact Hs|]. split; [exact Hcv|]. split.
  - pose proof (count_hidden_visible m'). lia.
  - exact Hv.
Qed.

(** C10: the command "show top 0 x" produces a show filter whose topK is 0,
    and a pass that ends with a show filter whose topK is 0 behaves as
    topK = 20: it keeps the posts and their texts, leaves min(20, N) posts
    visible, so at least one of a non-empty post set, and, when the
    relevances are comparable, the visible posts are those with fewer than
    20 posts ranked before them. *)
Theorem topK_zero_retains_20 {N : Number} {M : MathLib N} :
  parseCommand "show top 0 x" =
    Some {| query := "x"; mode := show;
            queryVec := AttentionRanker.buildQueryVector "x";
            topK := 0; threshold := lit_0_5 |}
  /\ forall (st : State) (fs : list Filter) (f : Filter),
      filters st = fs ++ [f] ->
      mode f = show ->
      topK f = 0 ->
      NoDup (map fst (processedPosts st)) ->
      let m := processedPosts st in
      let m' := processedPosts (applyRankedFiltering st) in
      skeleton m' = skeleton m
      /\ count_visible m' = Nat.min 20 (List.length m)
      /\ (m <> [] -> (1 <= count_visible m')%nat)
      /\ (comparable (relevances f m) ->
          forall i kv, nth_error m i = Some kv ->
            nth_error m' i
            = Some (fst kv,
                    set_hidden (negb (rank (relevances f m) i <? 20)%nat) (snd kv))).
Proof.
  split.
  - apply (parseCommand_some "show top 0 x" "show top 0 x" "x" show 0); reflexivity.
  - intros st fs f Hf Hm HK Hnd m m'.
    assert (He : effective_topK f = 20) by (unfold effective_topK; rewrite HK; reflexivity).
    destruct (show_pass_final st fs f Hf Hm) as [Hs [Hlen [Hc [_ Hv]]]];
      [lia|exact Hnd|].
    fold m m' in Hs, Hlen, Hc, Hv. rewrite He in Hc, Hv.
    change (Z.to_nat 20) with 20%nat in Hc, Hv.
    split; [exact Hs|]. split; [exact Hc|]. split.
    + intros Hne. rewrite Hc. destruct m; [congruence|simpl; lia].
    + exact Hv.
Qed.

(** ** Results on the command parser *)

(** C9: a command whose trimmed text is not empty, starts (lower-cased)
    with none of "hide ", "remove ", "show ", "only " and does not contain
    "only show " is not rejected: it becomes a hide filter whose query is
    the whole trimmed text, with threshold 0.5 and topK 20. *)
Theorem bare_command_is_hide_filter {N : Number} (command : string) :
  let text := JSString.trim command in
  text <> EmptyString ->
  JSString.startsWith "hide " (JSString.toLowerCase text) = false ->
  JSString.startsWith "remove " (JSString.toLowerCase text) = false ->
  JSString.startsWith "show " (JSString.toLowerCase text) = false ->
  JSString.startsWith "only " (JSString.toLowerCase text) = false ->
  JSString.includes "only show " (JSString.toLowerCase text) = false ->
  parseCommand command =
    Some {| query := text; mode := hide;
            queryVec := AttentionRanker.buildQueryVector text;
            topK := 20; threshold := lit_0_5 |}.
Proof.
  intros text Hne H1 H2 H3 H4 H5.
  apply (parseCommand_some command text); [reflexivity| |].
  - destruct text; [congruence|reflexivity].
  - unfold parse_text. rewrite H1, H2, H3, H4, H5. reflexivity.
Qed.

Lemma bare_command_is_hide_filter_witness :
  parseCommand (N := Binary64.number) "sports" =
    Some {| query := "sports"; mode := hide;
            queryVec := AttentionRanker.buildQueryVector "sports";
            topK := 20; threshold := lit_0_5 |}.
Proof.
  apply (bare_command_is_hide_filter (N := Binary64.number) "sports");
    solve [reflexivity | discriminate].
Defined.

(** C2, at the command of the specification: "only show ai news" starts
    with "only ", so the prefix branch takes it and the query keeps the
    word "show"; the "only show " branch is never consulted. *)
Theorem parse_only_show_ai_news {N : Number} :
  parseCommand "only show ai news" =
    Some {| query := "show ai news"; mode := show;
            queryVec := AttentionRanker.buildQueryVector "show ai news";
            topK := 20; threshold := lit_0_5 |}.
Proof.
  apply (parseCommand_some "only show ai news" "only show ai news" "show ai news" show 20);
    reflexivity.
Qed.

(** The "only show " branch itself: reached when no prefix matches, it
    yields a show filter for the lower-cased text between the first and the
    second occurrence of the substring. *)
Lemma only_show_branch (text : string) :
  JSString.startsWith "hide " (JSString.toLowerCase text) = false ->
  JSString.startsWith "remove " (JSString.toLowerCase text) = false ->
  JSString.startsWith "show " (JSString.toLowerCase text) = false ->
  JSString.startsWith "only " (JSString.toLowerCase text) = false ->
  JSString.includes "only show " (JSString.toLowerCase text) = true ->
  exists q, JSString.split_1 "only show " (JSString.toLowerCase text) = Some q
            /\ parse_text text = (show, JSString.trim q, 20).
Proof.
  intros H1 H2 H3 H4 H5. unfold parse_text. rewrite H1, H2, H3, H4, H5. simpl.
  destruct (JSString.split_1 "only show " (JSString.toLowerCase text)) as [q|] eqn:E.
  - exists q. split; reflexivity.
  - exfalso. unfold JSString.split_1 in E.
    destruct (JSString.cut "only show " (JSString.toLowerCase text)) as [[b a]|] eqn:Ec.
    + destruct (JSString.cut "only show " a) as [[b' a']|]; discriminate.
    + clear E. revert H5 Ec. generalize (JSString.toLowerCase text) as s.
      induction s as [|c r IH]; intros Hi Hc.
      * discriminate.
      * cbn [JSString.cut] in Hc. cbn [JSString.includes] in Hi.
        destruct (JSString.startsWith "only show " (String c r)); [discriminate|].
        simpl in Hi.
        destruct (JSString.cut "only show " r) as [[b a]|] eqn:Er; [discriminate|].
        apply IH; [exact Hi|reflexivity].
Qed.

Lemma startsWith_app (p q s : string) :
  JSString.startsWith (p ++ q) s = true -> JSString.startsWith p s = true.
Proof.
  revert s. induction p as [|a p IH]; intros s H; [reflexivity|].
  destruct s as [|b s]; [discriminate|]. simpl in H |- *.
  apply andb_true_iff in H. destruct H as [H1 H2].
  rewrite H1. apply IH. exact H2.
Qed.

Lemma only_show_prefix_shadowed (s : string) :
  JSString.startsWith "only show " s = true -> JSString.startsWith "only " s = true.
Proof. apply (startsWith_app "only " "show "). Qed.

(** ** Results on restoring filters *)

Lemma restoreFilter_fields {N : Number} (meta : FilterMetadata) (f : Filter) :
  restoreFilter meta = Some f ->
  topK f = meta_topK meta /\ threshold f = meta_threshold meta
  /\ queryVec f = AttentionRanker.buildQueryVector (query f).
Proof.
  unfold restoreFilter, parseCommand. intros H.
  destruct (JSString.isEmpty (JSString.trim (meta_query meta))); [discriminate|].
  destruct (parse_text (JSString.trim (meta_query meta))) as [[m q] k].
  inversion H; subst. simpl. auto.
Qed.

Lemma restoreFilters_one {N : Number} (meta : FilterMetadata) :
  restoreFilters [meta] =
  match restoreFilter meta with Some f => [f] | None => [] end.
Proof. unfold restoreFilters. simpl. destruct (restoreFilter meta); reflexivity. Qed.

Lemma restoreFilter_some {N : Number} (meta : FilterMetadata) (txt q : string)
      (m : Mode) (k : Z) :
  JSString.trim (meta_query meta) = txt ->
  JSString.isEmpty txt = false ->
  parse_text txt = (m, q, k) ->
  restoreFilter meta =
    Some {| query := q; mode := m;
            queryVec := AttentionRanker.buildQueryVector q;
            topK := meta_topK meta; threshold := meta_threshold meta |}.
Proof.
  intros Ht He Hp. unfold restoreFilter.
  rewrite (parseCommand_some (meta_query meta) txt q m k Ht He Hp). reflexivity.
Qed.

(** What [addFilter] saves for a command that parses: the tuples saved
    before, followed by the tuple of the new filter. *)
Lemma addFilter_persists {N : Number} {M : MathLib N}
      (command : string) (f : Filter) (st : State) :
  parseCommand command = Some f ->
  filterMetadata (addFilter command st) = filterMetadata st ++ [metadata_of f].
Proof.
  intros H. unfold addFilter, filterMetadata. rewrite H.
  unfold applyRankedFiltering. cbn [filters set_filters].
  destruct (filters st ++ [f]) eqn:E.
  - destruct (filters st); discriminate.
  - cbn [filters]. rewrite <- E. apply map_app.
Qed.

(** C1, at the command "show tech": the filter is created in show mode and
    saved as the tuple ("tech", show, 20, 0.5); restoring that tuple parses
    the saved query as a command, which yields a filter with the same
    query, query vector, topK and threshold but in hide mode. *)
Theorem restore_show_filter_becomes_hide {N : Number} :
  exists f f',
    parseCommand "show tech" = Some f
    /\ metadata_of f =
         {| meta_query := "tech"; meta_mode := show;
            meta_topK := 20; meta_threshold := lit_0_5 |}
    /\ restoreFilters [metadata_of f] = [f']
    /\ mode f = show /\ mode f' = hide
    /\ query f' = query f /\ queryVec f' = queryVec f
    /\ topK f' = topK f /\ threshold f' = threshold f.
Proof.
  exists (built show "tech" 20), (built hide "tech" 20). split.
  - apply (parseCommand_some "show tech" "show tech" "tech" show 20); reflexivity.
  - split; [reflexivity|]. split.
    + rewrite restoreFilters_one.
      rewrite (restoreFilter_some _ "tech" "tech" hide 20); reflexivity.
    + repeat split.
Qed.

(** The saved query of "hide hide x" is "hide x"; the restored filter
    queries "x". *)
Lemma restore_reparses_query {N : Number} :
  exists f f',
    parseCommand "hide hide x" = Some f
    /\ restoreFilters [metadata_of f] = [f']
    /\ query f = "hide x"%string /\ query f' = "x"%string.
Proof.
  exists (built hide "hide x" 20), (built hide "x" 20). split.
  - apply (parseCommand_some "hide hide x" "hide hide x" "hide x" hide 20); reflexivity.
  - split.
    + rewrite restoreFilters_one.
      rewrite (restoreFilter_some _ "hide x" "x" hide 20); reflexivity.
    + split; reflexivity.
Qed.

(** The saved query of "show top 5" is empty; the filter is not restored. *)
Lemma restore_drops_empty_query {N : Number} :
  exists f,
    parseCommand "show top 5" = Some f
    /\ query f = EmptyString /\ topK f = 5
    /\ restoreFilters [metadata_of f] = [].
Proof.
  exists (built show "" 5). split.
  - apply (parseCommand_some "show top 5" "show top 5" "" show 5); reflexivity.
  - repeat split.
Qed.

(** ** Results on batching *)

Lemma processBatch_with_eq {N : Number} {M : MathLib N} (st : State) :
  fst (processBatch_with st) = firstn batchSize (postBatch st)
  /\ postBatch (processBatch st) = skipn batchSize (postBatch st).
Proof.
  unfold processBatch, processBatch_with.
  destruct (postBatch st) as [|p b] eqn:E; [simpl; rewrite E; split; reflexivity|].
  rewrite <- E. unfold splice0.
  destruct (fold_left cache_post (firstn batchSize (postBatch st))
              (processedPosts st, stats_processed st)) as [m processed].
  simpl. split; [reflexivity|].
  unfold applyRankedFiltering. simpl. destruct (filters st); reflexivity.
Qed.

(** C5, as the code has it: a pass, whether entered from the idle timeout or
    from the size check of [processPostData], consumes the first
    [batchSize] = 30 posts of the pending buffer, in arrival order, and
    leaves the others in the buffer; it consumes exactly the buffer's
    contents when the buffer holds at most 30 posts. *)
Theorem pass_consumes_leading_batch {N : Number} {M : MathLib N}
    (st : State) (posts : list Post) :
  (forall s : State,
      fst (processBatch_with s) = firstn batchSize (postBatch s)
      /\ postBatch (processBatch s) = skipn batchSize (postBatch s)
      /\ postBatch s = fst (processBatch_with s) ++ postBatch (processBatch s)
      /\ ((List.length (postBatch s) <= batchSize)%nat ->
          fst (processBatch_with s) = postBatch s /\ postBatch (processBatch s) = []))
  /\ timeout_fired st = processBatch (set_batchTimeout false st)
  /\ (new_posts posts st <> [] ->
      (batchSize <= List.length (postBatch st ++ new_posts posts st))%nat ->
      processPostData posts st =
      processBatch (set_postBatch (postBatch st ++ new_posts posts st) st)).
Proof.
  split; [|split].
  - intros s. destruct (processBatch_with_eq s) as [H1 H2].
    rewrite H1, H2. repeat split.
    + symmetry. apply firstn_skipn.
    + apply firstn_all2. assumption.
    + apply skipn_all2. assumption.
  - reflexivity.
  - intros Hne Hsize. unfold processPostData.
    destruct posts as [|p posts]; [elim Hne; reflexivity|].
    destruct (new_posts (p :: posts) st) as [|q qs] eqn:E; [congruence|].
    cbv zeta. cbn [postBatch set_postBatch].
    apply Nat.leb_le in Hsize. rewrite Hsize. reflexivity.
Qed.

Lemma one_post_nodup : NoDup (map fst Samples.one_post).
Proof. simpl. repeat constructor. simpl. tauto. Defined.

Lemma two_posts_nodup : NoDup (map fst Samples.two_posts).
Proof.
  simpl. repeat constructor; simpl; try tauto.
  intros [H|[]]. discriminate H.
Defined.

Lemma hide_filter_frame_witness :
  exists kv',
    nth_error (applyFilter Samples.two_posts (built (N := Ideal.number) hide "sports" 20)) 1
    = Some kv'
    /\ fst kv' = "2"%string /\ text (snd kv') = "sports results"%string.
Proof.
  destruct (hide_filter_frame (N := Ideal.number) Samples.two_posts
              (built hide "sports" 20) 1
              (Samples.entry "2" "sports results") eq_refl eq_refl)
    as [kv' [H1 [H2 [H3 _]]]].
  exists kv'. auto.
Defined.

Lemma ai_posts_nodup : NoDup (map fst Samples.ai_posts).
Proof.
  simpl. repeat constructor; simpl; try tauto.
  intros [H|[]]. discriminate H.
Defined.

Lemma string_nodup (l : list string) : nodup string_dec l = l -> NoDup l.
Proof. intros E. rewrite <- E. apply NoDup_nodup. Qed.

(** In double precision "ai ai ai" scores higher than "ai" against the
    query "tech", so "show top 1 tech" keeps the second post and hides the
    first. *)
Lemma show_pass_top_k_witness :
  let f := built (N := Binary64.number) show "tech" 1 in
  let st := Samples.state64 [f] Samples.ai_posts in
  let m' := processedPosts (applyRankedFiltering (M := Samples.mathlib64) st) in
  count_visible m' = 1%nat
  /\ nth_error m' 0 = Some ("1"%string, {| text := "ai"; hidden := true |})
  /\ nth_error m' 1 = Some ("2"%string, {| text := "ai ai ai"; hidden := false |}).
Proof.
  intros f st m'.
  assert (Hb : 1 <= 1 <= Z.of_nat (List.length (processedPosts st))) by (simpl; lia).
  set (r1 := relevance (M := Samples.mathlib64) f {| text := "ai"; hidden := false |}).
  set (r2 := relevance (M := Samples.mathlib64) f
               {| text := "ai ai ai"; hidden := false |}).
  assert (Hrel : relevances (M := Samples.mathlib64) f (processedPosts st) = [r1; r2])
    by reflexivity.
  let v := eval vm_compute in r1 in assert (E1 : r1 = v) by (vm_compute; reflexivity).
  let v := eval vm_compute in r2 in assert (E2 : r2 = v) by (vm_compute; reflexivity).
  clearbody r1 r2. subst r1 r2.
  assert (Hc : comparable (relevances (M := Samples.mathlib64) f (processedPosts st))).
  { rewrite Hrel. apply comparableb_sound. reflexivity. }
  destruct (show_pass_top_k (M := Samples.mathlib64) st [] f 1
              eq_refl eq_refl eq_refl ai_posts_nodup Hb) as [_ [H1 [_ Hr]]].
  split; [exact H1|]. split.
  - unfold m'. rewrite (Hr Hc 0%nat _ eq_refl), Hrel. reflexivity.
  - unfold m'. rewrite (Hr Hc 1%nat _ eq_refl), Hrel. reflexivity.
Defined.

(** C4 fails for K = 0: over one known post a show filter with topK 0
    leaves that post visible, where the specification has no post visible. *)
Lemma show_pass_top_0_counterexample :
  let f := built (N := Binary64.number) show "x" 0 in
  let st := Samples.state64 [f] Samples.one_post in
  mode f = show /\ topK f = 0
  /\ 0 <= topK f <= Z.of_nat (List.length (processedPosts st))
  /\ count_visible (processedPosts (applyRankedFiltering (M := Samples.mathlib64) st))
     <> Z.to_nat (topK f).
Proof.
  intros f st. split; [reflexivity|]. split; [reflexivity|]. split; [simpl; lia|].
  destruct (show_pass_final (M := Samples.mathlib64) st [] f eq_refl eq_refl)
    as [_ [_ [Hc _]]].
  - change (0 <= 20). lia.
  - exact one_post_nodup.
  - rewrite Hc. change (Nat.min 20 1 <> 0)%nat. discriminate.
Qed.

Lemma incl_cons_repeat {A : Type} (x y : A) (n : nat) :
  incl (x :: repeat y n) [x; y].
Proof.
  intros z [<-|Hz]; [left; reflexivity|].
  right. left. symmetry. exact (repeat_spec _ _ _ Hz).
Qed.

(** In double precision, with 21 cached posts of which the first is the
    least relevant, "show top 0 a" keeps the 20 others and hides the
    first. *)
Lemma topK_zero_retains_20_witness :
  let f := built (N := Binary64.number) show "a" 0 in
  let st := Samples.state64 [f] (Samples.b_then_a 20) in
  let m' := processedPosts (applyRankedFiltering (M := Samples.mathlib64) st) in
  count_visible m' = 20%nat
  /\ nth_error m' 0 = Some ("0"%string, {| text := "b"; hidden := true |})
  /\ nth_error m' 20 = Some ("T"%string, {| text := "a"; hidden := false |}).
Proof.
  intros f st m'.
  assert (Hnd : NoDup (map fst (processedPosts st))).
  { apply string_nodup. vm_compute. reflexivity. }
  set (rb := relevance (M := Samples.mathlib64) f {| text := "b"; hidden := false |}).
  set (ra := relevance (M := Samples.mathlib64) f {| text := "a"; hidden := false |}).
  assert (Hrel : relevances (M := Samples.mathlib64) f (processedPosts st)
                 = rb :: repeat ra 20) by reflexivity.
  let v := eval vm_compute in rb in assert (Eb : rb = v) by (vm_compute; reflexivity).
  let v := eval vm_compute in ra in assert (Ea : ra = v) by (vm_compute; reflexivity).
  clearbody ra rb. subst ra rb.
  assert (Hc : comparable (relevances (M := Samples.mathlib64) f (processedPosts st))).
  { rewrite Hrel. eapply comparable_incl; [apply incl_cons_repeat|].
    apply comparableb_sound. reflexivity. }
  destruct (proj2 (topK_zero_retains_20 (M := Samples.mathlib64)) st [] f
              eq_refl eq_refl eq_refl Hnd) as [_ [H1 [_ Hr]]].
  split; [exact H1|]. split.
  - unfold m'. rewrite (Hr Hc 0%nat _ eq_refl), Hrel. reflexivity.
  - unfold m'. rewrite (Hr Hc 20%nat _ eq_refl), Hrel. reflexivity.
Defined.

Lemma pass_consumes_leading_batch_witness :
  let s := set_postBatch (Samples.numbered 2) (initial_state (N := Ideal.number)) in
  (List.length (postBatch s) <= batchSize)%nat
  /\ fst (processBatch_with s) = postBatch s
  /\ postBatch (processBatch s) = [].
Proof.
  intros s.
  assert (Hl : (List.length (postBatch s) <= batchSize)%nat)
    by (apply Nat.leb_le; reflexivity).
  split; [exact Hl|].
  destruct (proj1 (pass_consumes_leading_batch (N := Ideal.number) s []) s)
    as [_ [_ [_ H]]].
  exact (H Hl).
Defined.

(** C5 fails when a response brings the buffer above 30 posts: from the
    initial state, 31 new posts trigger a pass at once; the pass consumes 30
    of them and the thirty-first, which was in the buffer when the pass was
    triggered, is what the buffer holds afterwards. *)
Lemma pass_leaves_old_posts_counterexample :
  let posts := Samples.numbered 31 in
  let st0 := initial_state (N := Ideal.number) in
  let at_trigger := set_postBatch (postBatch st0 ++ new_posts posts st0) st0 in
  processPostData posts st0 = processBatch at_trigger
  /\ postBatch at_trigger = posts
  /\ fst (processBatch_with at_trigger) <> postBatch at_trigger
  /\ postBatch (processPostData posts st0) = skipn 30 posts
  /\ postBatch (processPostData posts st0) <> [].
Proof.
  intros posts st0 at_trigger.
  assert (H0 : processPostData posts st0 = processBatch at_trigger) by reflexivity.
  assert (H1 : postBatch at_trigger = posts) by reflexivity.
  destruct (processBatch_with_eq at_trigger) as [Hb Hr].
  split; [exact H0|]. split; [exact H1|]. split; [|split].
  - rewrite Hb, H1. intros H. apply (f_equal (@List.length Post)) in H.
    vm_compute in H. discriminate.
  - rewrite H0, Hr, H1. reflexivity.
  - rewrite H0, Hr, H1. vm_compute. discriminate.
Qed.

(** ** Results on the cosine primitive *)

Section CosineFacts.
Context {N : Number}.
Local Open Scope num_scope.

Lemma cosine_fold (l : list (num * num)) (d n1 n2 : num) :
  fold_left cosine_step l (d, n1, n2) =
  (fold_left (fun d ab => d + fst ab * snd ab) l d,
   fold_left (fun n ab => n + fst ab * fst ab) l n1,
   fold_left (fun n ab => n + snd ab * snd ab) l n2).
Proof.
  revert d n1 n2. induction l as [|[a b] r IH]; intros d n1 n2; simpl; [reflexivity|].
  apply IH.
Qed.

Lemma fold_combine_fst (a b : list num) (n0 : num) :
  List.length a = List.length b ->
  fold_left (fun n ab => n + fst ab * fst ab) (combine a b) n0
  = fold_left (fun n x => n + x * x) a n0.
Proof.
  revert b n0. induction a as [|x a IH]; intros [|y b] n0 H; simpl in *;
    try reflexivity; try discriminate.
  apply IH. congruence.
Qed.

Lemma fold_combine_snd (a b : list num) (n0 : num) :
  List.length a = List.length b ->
  fold_left (fun n ab => n + snd ab * snd ab) (combine a b) n0
  = fold_left (fun n x => n + x * x) b n0.
Proof.
  revert b n0. induction a as [|x a IH]; intros [|y b] n0 H; simpl in *;
    try reflexivity; try discriminate.
  apply IH. congruence.
Qed.

(** [cosineSimilarity] on two arrays of the same length. *)
Lemma cosine_same_length (a b : list num) :
  List.length a = List.length b ->
  cosineSimilarity (Some a) (Some b) =
  if (squared_norm a === zero) || (squared_norm b === zero) then zero
  else fold_left (fun d ab => d + fst ab * snd ab) (combine a b) zero
       / (num_sqrt (squared_norm a) * num_sqrt (squared_norm b)).
Proof.
  intros H. unfold cosineSimilarity.
  rewrite (proj2 (Nat.eqb_eq _ _) H). simpl negb. cbv iota.
  rewrite cosine_fold, fold_combine_fst, fold_combine_snd by exact H.
  reflexivity.
Qed.

Lemma cosine_guards (a b : list num) :
  cosineSimilarity None (Some b) = zero
  /\ cosineSimilarity (Some a) None = zero
  /\ cosineSimilarity None None = zero
  /\ (List.length a <> List.length b -> cosineSimilarity (Some a) (Some b) = zero)
  /\ ((squared_norm a === zero) = true \/ (squared_norm b === zero) = true ->
      cosineSimilarity (Some a) (Some b) = zero).
Proof.
  repeat split.
  - intros H. unfold cosineSimilarity.
    rewrite (proj2 (Nat.eqb_neq _ _) H). reflexivity.
  - intros H.
    destruct (Nat.eq_dec (List.length a) (List.length b)) as [E|E].
    + rewrite (cosine_same_length a b E).
      destruct H as [-> | ->]; [reflexivity|rewrite orb_true_r; reflexivity].
    + unfold cosineSimilarity. rewrite (proj2 (Nat.eqb_neq _ _) E). reflexivity.
Qed.

End CosineFacts.

(** *** Exact arithmetic *)

Lemma fold_left_Rplus {A : Type} (g : A -> R) (l : list A) (a0 : R) :
  fold_left (fun a x => (a + g x)%R) l a0 = (a0 + Rsum (map g l))%R.
Proof.
  revert a0. induction l as [|x r IH]; intros a0; simpl.
  - lra.
  - rewrite IH. lra.
Qed.

Lemma Rsum_squares_nonneg (v : list R) : (0 <= Rsum (map (fun x => x * x) v))%R.
Proof.
  induction v as [|x r IH]; simpl; [lra|]. nra.
Qed.

Lemma Rsum_squares_pos (v : list R) :
  (exists x, In x v /\ x <> 0%R) -> (0 < Rsum (map (fun x => x * x) v))%R.
Proof.
  intros [x [Hin Hx]]. induction v as [|y r IH]; [destruct Hin|].
  simpl. pose proof (Rsum_squares_nonneg r) as Hr.
  destruct Hin as [->|Hin].
  - assert (0 < x * x)%R by nra. lra.
  - specialize (IH Hin). nra.
Qed.

Lemma squared_norm_R (v : list R) :
  squared_norm (N := Ideal.number) v = Rsum (map (fun x => x * x)%R v).
Proof.
  unfold squared_norm. simpl.
  rewrite (fold_left_Rplus (fun x => x * x)%R). unfold zero. simpl. lra.
Qed.

Lemma dot_self_R (v : list R) :
  fold_left (fun d ab => @num_add Ideal.number d (num_mul (fst ab) (snd ab)))
            (combine v v) (zero (N := Ideal.number))
  = Rsum (map (fun x => x * x)%R v).
Proof.
  simpl. rewrite (fold_left_Rplus (fun ab => fst ab * snd ab)%R).
  unfold zero. simpl. rewrite Rplus_0_l. f_equal.
  induction v as [|x r IH]; simpl; [reflexivity|]. f_equal. exact IH.
Qed.





(** More of [cosineSimilarity v v] in double precision: above 1 for
    [1, 1, 1], and NaN for [2^600], whose square overflows. *)
Example cosine_self_binary64 :
  (let v := [Binary64.of_Z 1; Binary64.of_Z 1; Binary64.of_Z 1] in
   cosineSimilarity (N := Binary64.number) (Some v) (Some v)
   = S754_finite false 4503599627370497 (-52)
   /\ SFltb (Binary64.of_Z 1) (cosineSimilarity (N := Binary64.number) (Some v) (Some v))
      = true)
  /\ cosineSimilarity (N := Binary64.number)
       (Some [S754_finite false 4503599627370496 548])
       (Some [S754_finite false 4503599627370496 548])
     = S754_nan.
Proof. vm_compute. repeat split. Qed.

(** ** Results on the attention scorer *)

Lemma lowerChar_whitespace (c : ascii) :
  JSString.isWhiteSpace (JSString.lowerChar c) = JSString.isWhiteSpace c.
Proof. destruct c as [[] [] [] [] [] [] [] []]; reflexivity. Qed.

Lemma words_aux_nonempty (cur s : string) :
  cur <> EmptyString -> JSString.words_aux cur s <> [].
Proof.
  revert cur. induction s as [|c r IH]; intros cur Hc; simpl.
  - destruct cur; [congruence|discriminate].
  - destruct (JSString.isWhiteSpace c).
    + destruct cur; [congruence|discriminate].
    + apply IH. destruct cur; discriminate.
Qed.

Lemma words_nil_iff (s : string) : JSString.words s = [] <-> blank s.
Proof.
  unfold JSString.words. induction s as [|c r IH]; simpl.
  - split; [intros _ c []|reflexivity].
  - destruct (JSString.isWhiteSpace c) eqn:E; simpl.
    + rewrite IH. split.
      * intros Hb c' [<-|Hc']; [exact E|apply Hb, Hc'].
      * intros Hb c' Hc'. apply Hb. simpl. auto.
    + split.
      * intros H. exfalso. revert H. apply words_aux_nonempty. discriminate.
      * intros Hb. specialize (Hb c (or_introl eq_refl)). congruence.
Qed.

Lemma blank_toLowerCase (s : string) : blank (JSString.toLowerCase s) <-> blank s.
Proof.
  induction s as [|c r IH]; simpl; [tauto|].
  split; intros Hb.
  - intros c' [<-|Hc'].
    + rewrite <- lowerChar_whitespace. apply Hb. simpl. auto.
    + apply (proj1 IH); [|exact Hc']. intros x Hx. apply Hb. simpl. auto.
  - intros c' [<-|Hc'].
    + rewrite lowerChar_whitespace. apply Hb. simpl. auto.
    + apply (proj2 IH); [|exact Hc']. intros x Hx. apply Hb. simpl. auto.
Qed.

Lemma tokenize_nil_iff (text : string) :
  AttentionRanker.tokenize text = [] <-> blank text.
Proof.
  unfold AttentionRanker.tokenize. rewrite words_nil_iff. apply blank_toLowerCase.
Qed.

Lemma attentionScore_blank {N : Number} {M : MathLib N} (text : string) (q : list num) :
  blank text ->
  AttentionRanker.attentionScore text q
  = {| AttentionRanker.score := zero; AttentionRanker.weights := [] |}.
Proof.
  intros Hb. unfold AttentionRanker.attentionScore.
  rewrite (proj2 (tokenize_nil_iff text) Hb). reflexivity.
Qed.

Lemma xorshift_fill_length {N : Number} (n : nat) (x : Z) :
  List.length (AttentionRanker.xorshift_fill n x) = n.
Proof.
  revert x. induction n as [|n IH]; intros x; simpl; [reflexivity|].
  f_equal. apply IH.
Qed.

Lemma dot_ideal (e q : list R) :
  AttentionRanker.dot (N := Ideal.number) e q = AttentionSpec.dot_product e q.
Proof.
  unfold AttentionRanker.dot. simpl.
  rewrite (fold_left_Rplus (fun eq => fst eq * snd eq)%R).
  unfold zero. simpl. rewrite Rplus_0_l.
  revert q. induction e as [|x e IH]; intros [|y q]; simpl; try reflexivity.
  rewrite IH. reflexivity.
Qed.

Lemma fold_left_ext_eq {A B : Type} (f g : A -> B -> A) (l : list B) (a : A) :
  (forall x y, f x y = g x y) -> fold_left f l a = fold_left g l a.
Proof.
  intros H. revert a. induction l as [|x r IH]; intros a; simpl; [reflexivity|].
  rewrite H. apply IH.
Qed.

Lemma maximum_ideal (ss : list R) :
  AttentionRanker.maximum (N := Ideal.number) ss = AttentionSpec.list_max ss.
Proof.
  destruct ss as [|s rest]; [reflexivity|]. simpl.
  rewrite (fold_left_ext_eq (fun max s => if Ideal.Rltb max s then s else max) Rmax).
  - apply fold_symmetric.
    + intros x y z. apply Rmax_assoc.
    + intros y. apply Rmax_comm.
  - intros m x. unfold Ideal.Rltb. destruct (Rlt_dec m x).
    + symmetry. apply Rmax_right. lra.
    + symmetry. apply Rmax_left. lra.
Qed.

Lemma sum_ideal (l : list R) :
  fold_left (@num_add Ideal.number) l (zero (N := Ideal.number)) = Rsum l.
Proof.
  simpl. unfold zero, Rsum. simpl. apply fold_symmetric.
  - intros x y z. symmetry. apply Rplus_assoc.
  - intros y. apply Rplus_comm.
Qed.

Lemma Rsum_exp_pos (ss : list R) (c : R) :
  ss <> [] -> (0 < Rsum (map (fun s => Rtrigo_def.exp (s - c)) ss))%R.
Proof.
  intros Hne. destruct ss as [|s r]; [congruence|]. simpl.
  assert (H : (0 <= Rsum (map (fun s => Rtrigo_def.exp (s - c)) r))%R).
  { clear. induction r as [|x r IH]; simpl; [lra|].
    pose proof (exp_pos (x - c)). lra. }
  pose proof (exp_pos (s - c)). lra.
Qed.

Lemma Rsum_div (l : list R) (d : R) :
  Rsum (map (fun x => x / d)%R l) = (Rsum l / d)%R.
Proof.
  induction l as [|x r IH]; simpl; [lra|]. rewrite IH. lra.
Qed.

Lemma softmax_sums_to_one (ss : list R) :
  ss <> [] -> Rsum (AttentionSpec.softmax ss) = 1%R.
Proof.
  intros Hne. unfold AttentionSpec.softmax.
  pose proof (Rsum_exp_pos ss (AttentionSpec.list_max ss) Hne) as Hpos.
  rewrite Rsum_div.
  destruct (Req_dec_T _ 0) as [E|E]; [lra|].
  field. exact E.
Qed.

Lemma scores_ideal (text : string) (q : list R) :
  map (fun e : list R =>
         @fround Ideal.number
           (@num_div Ideal.number (AttentionRanker.dot (N := Ideal.number) e q)
                                  (AttentionRanker.scale (N := Ideal.number))))
      (AttentionSpec.token_vectors text)
  = AttentionSpec.raw_scores text q.
Proof.
  unfold AttentionSpec.raw_scores. apply map_ext. intros e.
  rewrite dot_ideal. reflexivity.
Qed.

Lemma softmax_ideal (ss : list R) :
  AttentionRanker.softmax (N := Ideal.number) ss = AttentionSpec.softmax ss.
Proof.
  unfold AttentionRanker.softmax, AttentionSpec.softmax.
  rewrite maximum_ideal. cbv zeta. rewrite sum_ideal.
  apply map_ext. intros x. simpl. unfold Ideal.Reqb.
  destruct (Req_dec_T _ 0%R); reflexivity.
Qed.

Lemma add_weighted_vadd (ctx e : list R) (w : R) :
  AttentionRanker.add_weighted (N := Ideal.number) ctx (e, w)
  = AttentionSpec.vadd ctx (AttentionSpec.vscale w e).
Proof.
  unfold AttentionRanker.add_weighted, AttentionSpec.vadd, AttentionSpec.vscale.
  simpl. revert e. induction ctx as [|c ctx IH]; intros [|x e]; simpl; try reflexivity.
  rewrite IH. f_equal. lra.
Qed.

Lemma vadd_assoc (a b c : list R) :
  AttentionSpec.vadd (AttentionSpec.vadd a b) c
  = AttentionSpec.vadd a (AttentionSpec.vadd b c).
Proof.
  unfold AttentionSpec.vadd. revert b c.
  induction a as [|x a IH]; intros [|y b] [|z c]; simpl; try reflexivity.
  rewrite IH. f_equal. lra.
Qed.

Lemma vadd_length (a b : list R) :
  List.length (AttentionSpec.vadd a b) = Nat.min (List.length a) (List.length b).
Proof. unfold AttentionSpec.vadd. rewrite length_map. apply length_combine. Qed.

Lemma vadd_zeros_r (a : list R) :
  AttentionSpec.vadd a (repeat 0%R (List.length a)) = a.
Proof.
  unfold AttentionSpec.vadd. induction a as [|x a IH]; simpl; [reflexivity|].
  rewrite IH. f_equal. lra.
Qed.

Lemma vadd_zeros_l (a : list R) :
  AttentionSpec.vadd (repeat 0%R (List.length a)) a = a.
Proof.
  unfold AttentionSpec.vadd. induction a as [|x a IH]; simpl; [reflexivity|].
  rewrite IH. f_equal. lra.
Qed.

Lemma context_fold (d : nat) (l : list (list R * R)) (ctx : list R) :
  List.length ctx = d ->
  Forall (fun ew => List.length (fst ew) = d) l ->
  let total := fold_right (fun ew acc =>
                  AttentionSpec.vadd (AttentionSpec.vscale (snd ew) (fst ew)) acc)
                          (repeat 0%R d) l in
  List.length total = d
  /\ fold_left (AttentionRanker.add_weighted (N := Ideal.number)) l ctx
     = AttentionSpec.vadd ctx total.
Proof.
  intros Hc Hl. revert ctx Hc.
  induction Hl as [|[e w] l He Hl IH]; intros ctx Hc; cbn [fold_left fold_right fst snd].
  - split; [apply repeat_length|]. rewrite <- Hc. symmetry. apply vadd_zeros_r.
  - simpl in He. destruct (IH (AttentionSpec.vadd ctx (AttentionSpec.vscale w e)))
      as [Hlen Heq].
    { rewrite vadd_length. unfold AttentionSpec.vscale. rewrite length_map. lia. }
    split.
    + rewrite vadd_length. unfold AttentionSpec.vscale at 1. rewrite length_map.
      rewrite Hlen. lia.
    + rewrite add_weighted_vadd, Heq. apply vadd_assoc.
Qed.

Lemma context_ideal (es : list (list R)) (ws : list R) :
  Forall (fun e => List.length e = AttentionRanker.embedDim) es ->
  AttentionRanker.context (N := Ideal.number) es ws = AttentionSpec.context es ws.
Proof.
  intros Hes. unfold AttentionRanker.context, AttentionSpec.context.
  destruct (context_fold AttentionRanker.embedDim (combine es ws)
              (AttentionRanker.zeros (N := Ideal.number) AttentionRanker.embedDim))
    as [Hlen Heq].
  - apply repeat_length.
  - clear -Hes. revert ws. induction Hes as [|e es He Hes IH]; intros [|w ws]; simpl;
      constructor; auto.
  - etransitivity; [exact Heq|].
    match goal with |- AttentionSpec.vadd _ ?t = _ =>
      pose proof (vadd_zeros_l t) as Hz end.
    rewrite Hlen in Hz. exact Hz.
Qed.

Lemma token_vectors_length (text : string) :
  Forall (fun e => List.length e = AttentionRanker.embedDim)
         (AttentionSpec.token_vectors text).
Proof.
  unfold AttentionSpec.token_vectors. apply Forall_map, Forall_forall.
  intros w _. unfold AttentionRanker.embeddingForTokenId.
  exact (xorshift_fill_length (N := Ideal.number) _ _).
Qed.

(** The algorithm of the scorer, with rounding left out.  On a text that is
    empty or white space only it returns relevance 0 and no weights,
    whatever the query vector and the arithmetic; on any other text, over
    the real numbers, the weights are the max-subtracted softmax (fallback
    divisor 1) of the dot products scaled by sqrt 128, they sum to 1, and
    the relevance is the cosine similarity between the weight-combined
    context vector and the query vector.  The values the program computes
    in double precision, with its [Float32Array] stores, differ from
    these. *)
Theorem attention_reduction :
  (forall (N : Number) (M : MathLib N) (text : string) (q : list num),
      blank text ->
      AttentionRanker.attentionScore text q
      = {| AttentionRanker.score := zero; AttentionRanker.weights := [] |})
  /\ (forall (text : string) (q : list R),
        ~ blank text ->
        List.length q = AttentionRanker.embedDim ->
        let a := AttentionRanker.attentionScore (N := Ideal.number) text q in
        let w := AttentionSpec.softmax (AttentionSpec.raw_scores text q) in
        AttentionRanker.weights a = w
        /\ Rsum (AttentionRanker.weights a) = 1%R
        /\ AttentionRanker.score a
           = cosineSimilarity (N := Ideal.number)
               (Some (AttentionSpec.context (AttentionSpec.token_vectors text) w))
               (Some q)).
Proof.
  split; [intros N M text q; apply attentionScore_blank|].
  intros text q Hnb Hq a w.
  assert (Hne : AttentionRanker.tokenize text <> [])
    by (intros E; apply Hnb, tokenize_nil_iff, E).
  assert (Ha : a = {| AttentionRanker.score :=
                        cosineSimilarity (N := Ideal.number)
                          (Some (AttentionSpec.context (AttentionSpec.token_vectors text) w))
                          (Some q);
                      AttentionRanker.weights := w |}).
  { unfold a, AttentionRanker.attentionScore.
    pose proof (scores_ideal text q) as Hs.
    pose proof (context_ideal (AttentionSpec.token_vectors text) w
                  (token_vectors_length text)) as Hctx.
    unfold AttentionSpec.token_vectors in Hs, Hctx.
    destruct (AttentionRanker.tokenize text) as [|t ts] eqn:E; [congruence|].
    cbv zeta.
    match goal with |- context [AttentionRanker.softmax ?x] =>
      assert (Hw : AttentionRanker.softmax x = w)
        by (unfold w; rewrite <- softmax_ideal; f_equal; exact Hs)
    end.
    rewrite Hw.
    match goal with |- context [AttentionRanker.context ?es w] =>
      assert (Hc : AttentionRanker.context es w
                   = AttentionSpec.context
                       (map (fun w0 => AttentionRanker.embeddingForTokenId
                                         (N := Ideal.number)
                                         (AttentionRanker.tokenIdFor w0)) (t :: ts)) w)
        by exact Hctx
    end.
    rewrite Hc. unfold AttentionSpec.token_vectors. rewrite E. reflexivity. }
  rewrite Ha. cbn [AttentionRanker.weights AttentionRanker.score].
  split; [reflexivity|]. split; [|reflexivity].
  apply softmax_sums_to_one. unfold AttentionSpec.raw_scores, AttentionSpec.token_vectors.
  destruct (AttentionRanker.tokenize text); [congruence|discriminate].
Qed.

Lemma attention_reduction_witness :
  ~ blank "ai news"
  /\ Rsum (AttentionRanker.weights
             (AttentionRanker.attentionScore (N := Ideal.number) "ai news"
                (repeat 0%R AttentionRanker.embedDim))) = 1%R.
Proof.
  assert (Hnb : ~ blank "ai news").
  { intros H. specialize (H "a"%char (or_introl eq_refl)). discriminate H. }
  split; [exact Hnb|].
  destruct (proj2 attention_reduction "ai news"%string
              (repeat 0%R AttentionRanker.embedDim) Hnb (repeat_length _ _))
    as [_ [H _]].
  exact H.
Defined.

(** ** The keys of the post map stay distinct *)

Lemma map_set_keys (k : string) (v : PostData) (m : PostMap) :
  map fst (map_set k v m) =
  if map_has k m then map fst m else map fst m ++ [k].
Proof.
  induction m as [|[k' v'] r IH]; simpl; [reflexivity|].
  destruct (String.eqb k k') eqn:E; simpl.
  - apply String.eqb_eq in E. subst. reflexivity.
  - rewrite IH. destruct (map_has k r); reflexivity.
Qed.

Lemma map_has_true (k : string) (m : PostMap) :
  map_has k m = true <-> In k (map fst m).
Proof.
  induction m as [|[k' v'] r IH]; simpl; [split; [discriminate|tauto]|].
  rewrite orb_true_iff, IH, String.eqb_eq. split; intros [H|H]; auto.
Qed.

Lemma map_set_nodup (k : string) (v : PostData) (m : PostMap) :
  NoDup (map fst m) -> NoDup (map fst (map_set k v m)).
Proof.
  intros H. rewrite map_set_keys. destruct (map_has k m) eqn:E; [exact H|].
  apply NoDup_app; [exact H|repeat constructor; simpl; tauto|].
  intros x Hx [<-|[]]. apply map_has_true in Hx. congruence.
Qed.

Lemma cache_posts_nodup (batch : list Post) (m : PostMap) (n : Z) :
  NoDup (map fst m) -> NoDup (map fst (fst (fold_left cache_post batch (m, n)))).
Proof.
  revert m n. induction batch as [|p batch IH]; intros m n H; simpl; [exact H|].
  apply IH. apply map_set_nodup. exact H.
Qed.

Section Invariant.
Context {N : Number} {M : MathLib N}.

Lemma applyRankedFiltering_keys (st : State) :
  map fst (processedPosts (applyRankedFiltering st)) = map fst (processedPosts st).
Proof.
  unfold applyRankedFiltering. destruct (filters st) as [|f fs] eqn:E; simpl.
  - unfold show_all. rewrite map_map. apply map_ext.
    intros [k [t h]]. destruct h; reflexivity.
  - rewrite (skeleton_keys (fold_left _ _ _)), applyFilters_skeleton, applyFilter_skeleton.
    symmetry. apply skeleton_keys.
Qed.

Lemma processBatch_nodup (st : State) :
  NoDup (map fst (processedPosts st)) ->
  NoDup (map fst (processedPosts (processBatch st))).
Proof.
  intros H. unfold processBatch, processBatch_with.
  destruct (postBatch st) as [|p b] eqn:E; [exact H|]. rewrite <- E.
  unfold splice0.
  pose proof (cache_posts_nodup (firstn batchSize (postBatch st))
                (processedPosts st) (stats_processed st) H) as Hc.
  destruct (fold_left cache_post _ _) as [m processed]. simpl in Hc |- *.
  rewrite applyRankedFiltering_keys. exact Hc.
Qed.

(** Every reachable state has pairwise distinct keys. *)
Lemma reachable_nodup (st : State) :
  reachable st -> NoDup (map fst (processedPosts st)).
Proof.
  induction 1 as [|posts st Hr IH|st Hr IH|command st Hr IH|index st Hr IH].
  - constructor.
  - unfold processPostData. destruct posts as [|p posts]; [exact IH|].
    destruct (new_posts (p :: posts) st) as [|q qs]; [exact IH|].
    cbv zeta. destruct (Nat.leb _ _).
    + apply processBatch_nodup. exact IH.
    + exact IH.
  - unfold timeout_fired. apply processBatch_nodup. exact IH.
  - unfold addFilter. destruct (parseCommand command); [|exact IH].
    rewrite applyRankedFiltering_keys. exact IH.
  - unfold removeFilter. rewrite applyRankedFiltering_keys. exact IH.
Qed.

End Invariant.

(** * Further properties *)

(** ** Trimming, case and tokens *)

Lemma trimStart_idem (s : string) :
  JSString.trimStart (JSString.trimStart s) = JSString.trimStart s.
Proof.
  induction s as [|c r IH]; simpl; [reflexivity|].
  destruct (JSString.isWhiteSpace c) eqn:E; [exact IH|].
  simpl. rewrite E. reflexivity.
Qed.

Lemma trimEnd_nil_blank (s : string) :
  JSString.trimEnd s = EmptyString <-> blank s.
Proof.
  induction s as [|c r IH]; simpl.
  - split; [intros _ c []|reflexivity].
  - destruct (JSString.trimEnd r) eqn:E.
    + destruct (JSString.isWhiteSpace c) eqn:Ec.
      * split; [|reflexivity]. intros _ c' [<-|Hc']; [exact Ec|].
        apply (proj1 IH eq_refl). exact Hc'.
      * split; [discriminate|]. intros Hb.
        specialize (Hb c (or_introl eq_refl)). congruence.
    + split; [discriminate|]. intros Hb.
      assert (Hr : blank r) by (intros c' Hc'; apply Hb; simpl; auto).
      apply IH in Hr. discriminate.
Qed.

Lemma trimEnd_idem (s : string) :
  JSString.trimEnd (JSString.trimEnd s) = JSString.trimEnd s.
Proof.
  induction s as [|c r IH]; simpl; [reflexivity|].
  destruct (JSString.trimEnd r) eqn:E.
  - destruct (JSString.isWhiteSpace c) eqn:Ec; simpl; [reflexivity|].
    rewrite Ec. reflexivity.
  - simpl. simpl in IH. rewrite IH. reflexivity.
Qed.

Lemma trimStart_trimEnd (s : string) :
  JSString.trimStart (JSString.trimEnd s) = JSString.trimEnd (JSString.trimStart s).
Proof.
  induction s as [|c r IH]; simpl; [reflexivity|].
  destruct (JSString.isWhiteSpace c) eqn:Ec.
  - destruct (JSString.trimEnd r) eqn:E.
    + simpl. apply trimEnd_nil_blank in E.
      rewrite (trimStart_blank r E). reflexivity.
    + rewrite <- IH. simpl. rewrite Ec. reflexivity.
  - simpl. destruct (JSString.trimEnd r); simpl; rewrite Ec; reflexivity.
Qed.

Lemma trim_idem (s : string) : JSString.trim (JSString.trim s) = JSString.trim s.
Proof.
  unfold JSString.trim.
  rewrite trimStart_trimEnd, trimStart_idem, trimEnd_idem. reflexivity.
Qed.

Lemma lowerChar_idem (c : ascii) :
  JSString.lowerChar (JSString.lowerChar c) = JSString.lowerChar c.
Proof. destruct c as [[] [] [] [] [] [] [] []]; reflexivity. Qed.

Lemma toLowerCase_idem (s : string) :
  JSString.toLowerCase (JSString.toLowerCase s) = JSString.toLowerCase s.
Proof.
  induction s as [|c r IH]; simpl; [reflexivity|].
  rewrite lowerChar_idem, IH. reflexivity.
Qed.

Lemma toLowerCase_app (a b : string) :
  JSString.toLowerCase (a ++ b) = (JSString.toLowerCase a ++ JSString.toLowerCase b)%string.
Proof. induction a as [|c r IH]; simpl; [reflexivity|]. rewrite IH. reflexivity. Qed.

Lemma toLowerCase_trimStart (s : string) :
  JSString.toLowerCase (JSString.trimStart s) = JSString.trimStart (JSString.toLowerCase s).
Proof.
  induction s as [|c r IH]; simpl; [reflexivity|].
  rewrite lowerChar_whitespace. destruct (JSString.isWhiteSpace c); [exact IH|reflexivity].
Qed.

Lemma words_aux_blank (cur s : string) :
  blank s -> JSString.words_aux cur s = JSString.words_aux cur EmptyString.
Proof.
  revert cur. induction s as [|c r IH]; intros cur Hb; [reflexivity|].
  assert (Hr : blank r) by (intros c' Hc'; apply Hb; simpl; auto).
  simpl. rewrite (Hb c (or_introl eq_refl)).
  rewrite (IH EmptyString Hr). simpl. destruct cur; reflexivity.
Qed.

Lemma words_aux_app_ws (cur a b : string) (c : ascii) :
  JSString.isWhiteSpace c = true ->
  JSString.words_aux cur (a ++ String c b)
  = JSString.words_aux cur a ++ JSString.words b.
Proof.
  intros Hc. revert cur. induction a as [|x a IH]; intros cur; simpl.
  - rewrite Hc. destruct cur; reflexivity.
  - destruct (JSString.isWhiteSpace x).
    + destruct cur; simpl; rewrite IH; reflexivity.
    + apply IH.
Qed.

Lemma words_trimStart (s : string) :
  JSString.words (JSString.trimStart s) = JSString.words s.
Proof.
  unfold JSString.words. induction s as [|c r IH]; simpl; [reflexivity|].
  destruct (JSString.isWhiteSpace c) eqn:E; [exact IH|].
  simpl. rewrite E. reflexivity.
Qed.

Lemma words_aux_trimEnd (cur s : string) :
  JSString.words_aux cur (JSString.trimEnd s) = JSString.words_aux cur s.
Proof.
  revert cur. induction s as [|c r IH]; intros cur; simpl; [reflexivity|].
  destruct (JSString.trimEnd r) eqn:E.
  - apply trimEnd_nil_blank in E.
    destruct (JSString.isWhiteSpace c) eqn:Ec.
    + rewrite (words_aux_blank EmptyString r E). simpl. destruct cur; reflexivity.
    + simpl. rewrite Ec. symmetry. apply words_aux_blank. exact E.
  - cbn [JSString.words_aux]. destruct (JSString.isWhiteSpace c).
    + rewrite <- (IH EmptyString). reflexivity.
    + rewrite <- IH. reflexivity.
Qed.

Lemma words_trim (s : string) : JSString.words (JSString.trim s) = JSString.words s.
Proof.
  unfold JSString.trim, JSString.words.
  rewrite words_aux_trimEnd. apply words_trimStart.
Qed.

Lemma toLowerCase_trimEnd (s : string) :
  JSString.toLowerCase (JSString.trimEnd s) = JSString.trimEnd (JSString.toLowerCase s).
Proof.
  induction s as [|c r IH]; simpl; [reflexivity|].
  rewrite <- IH, lowerChar_whitespace.
  destruct (JSString.trimEnd r); simpl; [destruct (JSString.isWhiteSpace c)|]; reflexivity.
Qed.

Lemma toLowerCase_trim (s : string) :
  JSString.toLowerCase (JSString.trim s) = JSString.trim (JSString.toLowerCase s).
Proof.
  unfold JSString.trim. rewrite toLowerCase_trimEnd, toLowerCase_trimStart. reflexivity.
Qed.

Lemma in_string_app (c : ascii) (a b : string) :
  In c (list_ascii_of_string (a ++ b)) <->
  In c (list_ascii_of_string a) \/ In c (list_ascii_of_string b).
Proof.
  induction a as [|x a IH]; simpl; [tauto|]. rewrite IH. tauto.
Qed.

Lemma words_aux_chars (P : ascii -> Prop) (s cur : string) :
  (forall c, In c (list_ascii_of_string s) -> P c) ->
  (forall c, In c (list_ascii_of_string cur) -> P c /\ JSString.isWhiteSpace c = false) ->
  forall w, In w (JSString.words_aux cur s) ->
    w <> EmptyString
    /\ forall c, In c (list_ascii_of_string w) -> P c /\ JSString.isWhiteSpace c = false.
Proof.
  revert cur. induction s as [|x r IH]; intros cur Hs Hcur w Hw; simpl in Hw.
  - destruct cur; [destruct Hw|]. destruct Hw as [<-|[]]. split; [discriminate|exact Hcur].
  - assert (Hr : forall c, In c (list_ascii_of_string r) -> P c)
      by (intros c Hc; apply Hs; simpl; auto).
    destruct (JSString.isWhiteSpace x) eqn:E.
    + assert (Hnil : forall c, In c (list_ascii_of_string EmptyString) ->
                               P c /\ JSString.isWhiteSpace c = false)
        by (intros c []).
      destruct cur.
      * exact (IH EmptyString Hr Hnil w Hw).
      * destruct Hw as [<-|Hw]; [split; [discriminate|exact Hcur]|].
        exact (IH EmptyString Hr Hnil w Hw).
    + apply (IH (cur ++ String x EmptyString)%string Hr); [|exact Hw].
      intros c Hc. apply in_string_app in Hc. destruct Hc as [Hc|[<-|[]]].
      * apply Hcur, Hc.
      * split; [apply Hs; simpl; auto|exact E].
Qed.

(** Every token is a non-empty word without white space, in lower case. *)
Theorem tokenize_tokens (text w : string) :
  In w (AttentionRanker.tokenize text) ->
  w <> EmptyString
  /\ JSString.toLowerCase w = w
  /\ forall c, In c (list_ascii_of_string w) -> JSString.isWhiteSpace c = false.
Proof.
  intros Hw.
  destruct (words_aux_chars (fun c => JSString.lowerChar c = c)
              (JSString.toLowerCase text) EmptyString) with (w := w) as [Hne Hc].
  - clear. induction text as [|x r IH]; intros c Hc; [destruct Hc|].
    simpl in Hc. destruct Hc as [<-|Hc]; [apply lowerChar_idem|apply IH, Hc].
  - intros c [].
  - exact Hw.
  - split; [exact Hne|]. split; [|intros c H; apply Hc, H].
    clear Hw Hne. induction w as [|x r IH]; [reflexivity|]. simpl.
    rewrite (proj1 (Hc x (or_introl eq_refl))), IH; [reflexivity|].
    intros c H. apply Hc. simpl. auto.
Qed.

Lemma tokenize_tokens_witness :
  ("news" <> EmptyString)%string
  /\ JSString.toLowerCase "news" = "news"%string.
Proof.
  destruct (tokenize_tokens "AI  News" "news") as [H1 [H2 _]].
  - right. left. reflexivity.
  - split; assumption.
Defined.

Lemma tokenize_lower (text : string) :
  AttentionRanker.tokenize (JSString.toLowerCase text) = AttentionRanker.tokenize text.
Proof. unfold AttentionRanker.tokenize. rewrite toLowerCase_idem. reflexivity. Qed.

Lemma tokenize_trim (text : string) :
  AttentionRanker.tokenize (JSString.trim text) = AttentionRanker.tokenize text.
Proof. unfold AttentionRanker.tokenize. rewrite toLowerCase_trim. apply words_trim. Qed.

(** The tokens of two texts joined by a white space character of Latin-1
    (tab, line feed, vertical tab, form feed, carriage return, space,
    no-break space) are the tokens of the first followed by the tokens of
    the second.  The texts are strings of Latin-1 characters, which
    [toLowerCase] maps one by one. *)
Theorem tokenize_join (a b : string) (c : ascii) :
  JSString.isWhiteSpace c = true ->
  AttentionRanker.tokenize (a ++ String c b)
  = AttentionRanker.tokenize a ++ AttentionRanker.tokenize b.
Proof.
  intros Hc. unfold AttentionRanker.tokenize, JSString.words.
  rewrite toLowerCase_app. simpl.
  apply words_aux_app_ws. rewrite lowerChar_whitespace. exact Hc.
Qed.

Lemma tokenize_join_witness :
  AttentionRanker.tokenize ("ai news" ++ String " " "Today")
  = AttentionRanker.tokenize "ai news" ++ AttentionRanker.tokenize "Today".
Proof. apply tokenize_join. reflexivity. Defined.

Section TokensOnly.
Context {N : Number} {M : MathLib N}.

Lemma buildQueryVector_tokens (t1 t2 : string) :
  AttentionRanker.tokenize t1 = AttentionRanker.tokenize t2 ->
  AttentionRanker.buildQueryVector t1 = AttentionRanker.buildQueryVector t2.
Proof.
  intros H. unfold AttentionRanker.buildQueryVector, AttentionRanker.meanEmbeddingForText.
  rewrite H. reflexivity.
Qed.

Lemma attentionScore_tokens (t1 t2 : string) (q : list num) :
  AttentionRanker.tokenize t1 = AttentionRanker.tokenize t2 ->
  AttentionRanker.attentionScore t1 q = AttentionRanker.attentionScore t2 q.
Proof. intros H. unfold AttentionRanker.attentionScore. rewrite H. reflexivity. Qed.

(** Query vectors and attention scores do not depend on letter case, nor on
    white space around the text. *)
Theorem scoring_ignores_case_and_margins (text : string) (q : list num) :
  AttentionRanker.buildQueryVector (JSString.toLowerCase text)
    = AttentionRanker.buildQueryVector text
  /\ AttentionRanker.buildQueryVector (JSString.trim text)
    = AttentionRanker.buildQueryVector text
  /\ AttentionRanker.attentionScore (JSString.toLowerCase text) q
    = AttentionRanker.attentionScore text q
  /\ AttentionRanker.attentionScore (JSString.trim text) q
    = AttentionRanker.attentionScore text q.
Proof.
  repeat split.
  - apply buildQueryVector_tokens, tokenize_lower.
  - apply buildQueryVector_tokens, tokenize_trim.
  - apply attentionScore_tokens, tokenize_lower.
  - apply attentionScore_tokens, tokenize_trim.
Qed.

End TokensOnly.

(** ** Token ids and embeddings *)

(** Token ids lie in [0, 8192); the hash is an unsigned 32-bit value. *)
Theorem tokenIdFor_range (word : string) :
  0 <= AttentionRanker.hash32 word < 2 ^ 32
  /\ 0 <= AttentionRanker.tokenIdFor word < AttentionRanker.vocabSize.
Proof.
  split.
  - unfold AttentionRanker.hash32, AttentionRanker.toUint32.
    apply Z.mod_pos_bound. reflexivity.
  - unfold AttentionRanker.tokenIdFor. apply Z.mod_pos_bound. reflexivity.
Qed.

Lemma band_65535_range (x : Z) : 0 <= AttentionRanker.band x 65535 <= 65535.
Proof.
  unfold AttentionRanker.band.
  change (AttentionRanker.toInt32 65535) with (Z.ones 16).
  rewrite Z.land_ones by lia.
  pose proof (Z.mod_pos_bound (AttentionRanker.toInt32 x) (2 ^ 16) eq_refl) as H.
  change (2 ^ 16) with 65536 in *. lia.
Qed.

Section VectorLengths.
Context {N : Number}.

Lemma embedding_length (tokenId : Z) :
  List.length (AttentionRanker.embeddingForTokenId tokenId) = AttentionRanker.embedDim.
Proof. apply xorshift_fill_length. Qed.

Lemma accumulate_length (acc e : list num) :
  List.length (AttentionRanker.accumulate acc e)
  = Nat.min (List.length acc) (List.length e).
Proof. unfold AttentionRanker.accumulate. rewrite length_map. apply length_combine. Qed.

Lemma accumulate_words_length (ws : list string) (acc : list num) :
  List.length acc = AttentionRanker.embedDim ->
  List.length
    (fold_left (fun acc w => AttentionRanker.accumulate acc
                               (AttentionRanker.embeddingForTokenId
                                  (AttentionRanker.tokenIdFor w))) ws acc)
  = AttentionRanker.embedDim.
Proof.
  revert acc. induction ws as [|w ws IH]; intros acc H; simpl; [exact H|].
  apply IH. rewrite accumulate_length, embedding_length, H. apply Nat.min_id.
Qed.

Lemma buildQueryVector_length (queryText : string) :
  List.length (AttentionRanker.buildQueryVector queryText) = AttentionRanker.embedDim.
Proof.
  unfold AttentionRanker.buildQueryVector, AttentionRanker.meanEmbeddingForText.
  destruct (AttentionRanker.tokenize queryText) as [|w ws].
  - apply repeat_length.
  - rewrite length_map. apply accumulate_words_length. apply repeat_length.
Qed.

Lemma buildQueryVector_blank (queryText : string) :
  blank queryText ->
  AttentionRanker.buildQueryVector queryText = repeat zero AttentionRanker.embedDim.
Proof.
  intros Hb.
  unfold AttentionRanker.buildQueryVector, AttentionRanker.meanEmbeddingForText.
  rewrite (proj2 (tokenize_nil_iff queryText) Hb). reflexivity.
Qed.

(** Every query vector has 128 entries, and the query vector of a text
    without tokens is the zero vector. *)
Theorem buildQueryVector_shape (queryText : string) :
  List.length (AttentionRanker.buildQueryVector queryText) = AttentionRanker.embedDim
  /\ (blank queryText ->
      AttentionRanker.buildQueryVector queryText
      = repeat zero AttentionRanker.embedDim).
Proof.
  split; [apply buildQueryVector_length|apply buildQueryVector_blank].
Qed.

End VectorLengths.

Lemma buildQueryVector_shape_witness :
  blank "  "
  /\ AttentionRanker.buildQueryVector (N := Binary64.number) "  "
     = repeat zero AttentionRanker.embedDim.
Proof.
  assert (Hb : blank "  ").
  { intros c Hc. simpl in Hc.
    repeat (destruct Hc as [<- | Hc]; [reflexivity|]). destruct Hc. }
  split; [exact Hb|].
  exact (proj2 (buildQueryVector_shape (N := Binary64.number) "  ") Hb).
Defined.

(** *** Bounds in exact arithmetic *)

Lemma zeros_within (b : R) (n : nat) :
  (0 <= b)%R -> within b (AttentionRanker.zeros (N := Ideal.number) n).
Proof.
  intros Hb. unfold within, AttentionRanker.zeros. apply Forall_forall.
  intros x Hx. apply repeat_spec in Hx. subst. unfold zero. simpl. lra.
Qed.

Lemma xorshift_fill_within (n : nat) (x : Z) :
  within (1 / 10) (AttentionRanker.xorshift_fill (N := Ideal.number) n x).
Proof.
  revert x. induction n as [|n IH]; intros x; simpl; constructor; [|apply IH].
  pose proof (band_65535_range (AttentionRanker.xorshift32 x)) as Hb.
  unfold AttentionRanker.lit_0_2, AttentionRanker.lit_0_1. simpl.
  set (k := AttentionRanker.band (AttentionRanker.xorshift32 x) 65535) in *.
  assert (H0 : (0 <= IZR k)%R) by (apply IZR_le; lia).
  assert (H1 : (IZR k <= 65535)%R) by (apply IZR_le; lia).
  lra.
Qed.

Lemma accumulate_within (b c : R) (acc e : list R) :
  within b acc -> within c e ->
  within (b + c) (AttentionRanker.accumulate (N := Ideal.number) acc e).
Proof.
  unfold within, AttentionRanker.accumulate. intros Ha. revert e.
  induction Ha as [|x acc Hx Ha IH]; intros e He; simpl; [constructor|].
  destruct e as [|y e]; simpl; [constructor|].
  inversion He; subst. constructor; [simpl; lra|apply IH; assumption].
Qed.

Lemma accumulate_words_within (ws : list string) (acc : list R) (b : R) :
  within b acc ->
  within (b + INR (List.length ws) * (1 / 10))
    (fold_left (fun acc w => AttentionRanker.accumulate (N := Ideal.number) acc
                               (AttentionRanker.embeddingForTokenId
                                  (AttentionRanker.tokenIdFor w))) ws acc).
Proof.
  revert acc b. induction ws as [|w ws IH]; intros acc b H.
  - simpl. replace (b + 0 * (1 / 10))%R with b by lra. exact H.
  - cbn [fold_left]. rewrite length_cons, S_INR.
    replace (b + (INR (List.length ws) + 1) * (1 / 10))%R
      with ((b + 1 / 10) + INR (List.length ws) * (1 / 10))%R by lra.
    apply IH. apply accumulate_within; [exact H|].
    apply xorshift_fill_within.
Qed.

(** With rounding left out, every entry of a token embedding, and so every
    entry of a query vector, lies in [-0.1, 0.1].  The entries the program
    stores in a [Float32Array] can lie outside by the rounding of 0.1. *)
Lemma embeddings_within_tenth (tokenId : Z) (queryText : string) :
  within (1 / 10) (AttentionRanker.embeddingForTokenId (N := Ideal.number) tokenId)
  /\ within (1 / 10) (AttentionRanker.buildQueryVector (N := Ideal.number) queryText).
Proof.
  split; [apply xorshift_fill_within|].
  unfold AttentionRanker.buildQueryVector, AttentionRanker.meanEmbeddingForText.
  destruct (AttentionRanker.tokenize queryText) as [|w ws] eqn:E.
  - apply zeros_within. lra.
  - set (n := List.length (w :: ws)).
    assert (Hn : (1 <= INR n)%R).
    { unfold n. rewrite length_cons, S_INR. pose proof (pos_INR (List.length ws)). lra. }
    pose proof (accumulate_words_within (w :: ws)
                  (AttentionRanker.zeros (N := Ideal.number) AttentionRanker.embedDim) 0)
      as Hacc.
    fold n in Hacc.
    assert (H0 : within 0 (AttentionRanker.zeros (N := Ideal.number)
                             AttentionRanker.embedDim)).
    { apply zeros_within. lra. }
    specialize (Hacc H0). unfold within in *.
    apply Forall_map. eapply Forall_impl; [|exact Hacc].
    intros x Hx. cbv beta in Hx.
    change (- (1 / 10) <= x / IZR (Z.of_nat n) <= 1 / 10)%R.
    rewrite <- INR_IZR_INZ.
    assert (Hpos : (0 < INR n)%R) by lra.
    split.
    + apply (Rmult_le_reg_r (INR n)); [exact Hpos|].
      unfold Rdiv. rewrite Rmult_assoc, Rinv_l by lra. lra.
    + apply (Rmult_le_reg_r (INR n)); [exact Hpos|].
      unfold Rdiv. rewrite Rmult_assoc, Rinv_l by lra. lra.
Qed.

(** ** More on the cosine primitive *)

#[export] Instance Ideal_commutes : NumberCommutes Ideal.number.
Proof. split. intros a b. simpl. apply Rmult_comm. Qed.

#[export] Instance Binary64_commutes : NumberCommutes Binary64.number.
Proof.
  split. intros a b. simpl.
  destruct a as [sa|sa| |sa ma ea], b as [sb|sb| |sb mb eb]; simpl;
    try reflexivity; try (rewrite xorb_comm; reflexivity).
  rewrite xorb_comm, Pos.mul_comm, Z.add_comm. reflexivity.
Qed.

Section CosineSymmetry.
Context {N : Number} {C : NumberCommutes N}.
Local Open Scope num_scope.

Lemma cosine_fold_swap (a b : list num) (d n1 n2 : num) :
  fold_left cosine_step (combine b a) (d, n2, n1)
  = let '(d', n1', n2') := fold_left cosine_step (combine a b) (d, n1, n2) in
    (d', n2', n1').
Proof.
  revert b d n1 n2. induction a as [|x a IH]; intros [|y b] d n1 n2; simpl;
    try reflexivity.
  rewrite (num_mul_comm y x). apply IH.
Qed.

(** [cosineSimilarity] is symmetric in its two arguments, null included. *)
Theorem cosine_symmetric (embedding1 embedding2 : option (list num)) :
  cosineSimilarity embedding1 embedding2 = cosineSimilarity embedding2 embedding1.
Proof.
  destruct embedding1 as [a|], embedding2 as [b|]; try reflexivity.
  unfold cosineSimilarity. rewrite (Nat.eqb_sym (List.length b) (List.length a)).
  destruct (Nat.eqb (List.length a) (List.length b)); [|reflexivity]. simpl.
  rewrite (cosine_fold_swap a b zero zero zero).
  destruct (fold_left cosine_step (combine a b) (zero, zero, zero)) as [[d n1] n2].
  rewrite (orb_comm (n2 === zero)), (num_mul_comm (num_sqrt n2)). reflexivity.
Qed.

End CosineSymmetry.

Lemma cosine_symmetric_witness :
  cosineSimilarity (N := Binary64.number) (Some [ofZ 1; ofZ 2]) (Some [ofZ 3; ofZ 4])
  = cosineSimilarity (Some [ofZ 3; ofZ 4]) (Some [ofZ 1; ofZ 2]).
Proof.
  exact (cosine_symmetric (N := Binary64.number) (C := Binary64_commutes)
           (Some [ofZ 1; ofZ 2]) (Some [ofZ 3; ofZ 4])).
Defined.

(** *** The Cauchy-Schwarz bound, in exact arithmetic *)

Lemma quadratic_nonneg (l : list (R * R)) (t : R) :
  (0 <= Rsum (map (fun ab => fst ab * fst ab) l) * (t * t)
        + 2 * Rsum (map (fun ab => fst ab * snd ab) l) * t
        + Rsum (map (fun ab => snd ab * snd ab) l))%R.
Proof.
  induction l as [|[a b] l IH]; simpl; [lra|].
  assert (H : (0 <= (a * t + b) * (a * t + b))%R) by apply Rle_0_sqr.
  match goal with |- (0 <= ?g)%R =>
    match type of IH with (0 <= ?h)%R =>
      replace g with (h + (a * t + b) * (a * t + b))%R by ring
    end
  end.
  lra.
Qed.

Lemma cauchy_schwarz (l : list (R * R)) :
  let d := Rsum (map (fun ab => fst ab * snd ab)%R l) in
  let n1 := Rsum (map (fun ab => fst ab * fst ab)%R l) in
  let n2 := Rsum (map (fun ab => snd ab * snd ab)%R l) in
  (0 <= n1 /\ 0 <= n2 /\ d * d <= n1 * n2)%R.
Proof.
  intros d n1 n2.
  assert (H1 : (0 <= n1)%R).
  { unfold n1. clear. induction l as [|[a b] l IH]; simpl; [lra|nra]. }
  assert (H2 : (0 <= n2)%R).
  { unfold n2. clear. induction l as [|[a b] l IH]; simpl; [lra|nra]. }
  split; [exact H1|]. split; [exact H2|].
  pose proof (quadratic_nonneg l) as Hq. fold d n1 n2 in Hq.
  destruct (Req_dec_T n1 0) as [E|E].
  - rewrite E. rewrite E in Hq.
    destruct (Req_dec_T d 0) as [Ed|Ed]; [rewrite Ed; lra|].
    exfalso. specialize (Hq (- (n2 + 1) / (2 * d))%R).
    replace (2 * d * (- (n2 + 1) / (2 * d)))%R with (- (n2 + 1))%R in Hq
      by (field; exact Ed).
    lra.
  - assert (Hpos : (0 < n1)%R) by lra.
    specialize (Hq (- d / n1)%R).
    replace (n1 * (- d / n1 * (- d / n1)) + 2 * d * (- d / n1) + n2)%R
      with ((n1 * n2 - d * d) / n1)%R in Hq by (field; exact E).
    apply (Rmult_le_compat_r n1) in Hq; [|lra].
    unfold Rdiv in Hq. rewrite Rmult_assoc, Rinv_l in Hq by exact E. lra.
Qed.

Lemma fold_combine_dot (a b : list R) :
  fold_left (fun d ab => @num_add Ideal.number d (num_mul (fst ab) (snd ab)))
            (combine a b) (zero (N := Ideal.number))
  = Rsum (map (fun ab => fst ab * snd ab)%R (combine a b)).
Proof.
  simpl. rewrite (fold_left_Rplus (fun ab => fst ab * snd ab)%R).
  unfold zero. simpl. lra.
Qed.

Lemma squared_norm_combine (a b : list R) :
  List.length a = List.length b ->
  squared_norm (N := Ideal.number) a
    = Rsum (map (fun ab => fst ab * fst ab)%R (combine a b))
  /\ squared_norm (N := Ideal.number) b
    = Rsum (map (fun ab => snd ab * snd ab)%R (combine a b)).
Proof.
  intros H. rewrite !squared_norm_R. revert b H.
  induction a as [|x a IH]; intros [|y b] H; simpl in *; try discriminate.
  - split; reflexivity.
  - destruct (IH b) as [H1 H2]; [congruence|]. rewrite H1, H2. split; reflexivity.
Qed.

(** With rounding left out, the cosine similarity of any two inputs, and so
    the relevance of any post against any filter, lies in [-1, 1].  In
    double precision the quotient can exceed 1 by a rounding error. *)
Lemma cosine_within_one :
  (forall a b : option (list R),
      (-1 <= cosineSimilarity (N := Ideal.number) a b <= 1)%R)
  /\ (forall (f : Filter (N := Ideal.number)) (pd : PostData),
        (-1 <= relevance f pd <= 1)%R).
Proof.
  assert (Hcos : forall a b : option (list R),
             (-1 <= cosineSimilarity (N := Ideal.number) a b <= 1)%R).
  { intros [a|] [b|]; try (unfold cosineSimilarity, zero; simpl; lra).
    destruct (Nat.eq_dec (List.length a) (List.length b)) as [E|E].
    - pose proof (cosine_same_length (N := Ideal.number) a b E) as Hc.
      rewrite fold_combine_dot in Hc.
      destruct (squared_norm_combine a b E) as [Hn1 Hn2].
      rewrite Hn1, Hn2 in Hc.
      destruct (cauchy_schwarz (combine a b)) as [H1 [H2 H3]].
      set (d := Rsum (map (fun ab => (fst ab * snd ab)%R) (combine a b))) in *.
      set (n1 := Rsum (map (fun ab => (fst ab * fst ab)%R) (combine a b))) in *.
      set (n2 := Rsum (map (fun ab => (snd ab * snd ab)%R) (combine a b))) in *.
      refine (eq_ind_r (fun c : R => (-1 <= c <= 1)%R) _ Hc). clear Hc.
      simpl. unfold zero. simpl.
      destruct (Ideal.Reqb n1 0) eqn:E1; [simpl; lra|].
      destruct (Ideal.Reqb n2 0) eqn:E2; [simpl; lra|]. simpl.
      assert (Hp1 : (0 < n1)%R).
      { destruct (Req_dec_T n1 0) as [Z1|Z1]; [|lra].
        apply Reqb_true in Z1. congruence. }
      assert (Hp2 : (0 < n2)%R).
      { destruct (Req_dec_T n2 0) as [Z2|Z2]; [|lra].
        apply Reqb_true in Z2. congruence. }
      pose proof (sqrt_lt_R0 n1 Hp1) as Hs1.
      pose proof (sqrt_lt_R0 n2 Hp2) as Hs2.
      pose proof (sqrt_sqrt n1 H1) as Hq1.
      pose proof (sqrt_sqrt n2 H2) as Hq2.
      set (s1 := R_sqrt.sqrt n1) in *. set (s2 := R_sqrt.sqrt n2) in *.
      assert (Hs : (0 < s1 * s2)%R) by nra.
      assert (Hss : ((s1 * s2) * (s1 * s2) = n1 * n2)%R) by nra.
      assert (Hd : (- (s1 * s2) <= d <= s1 * s2)%R) by nra.
      split.
      + apply (Rmult_le_reg_r (s1 * s2)); [exact Hs|].
        unfold Rdiv. rewrite Rmult_assoc, Rinv_l by lra. lra.
      + apply (Rmult_le_reg_r (s1 * s2)); [exact Hs|].
        unfold Rdiv. rewrite Rmult_assoc, Rinv_l by lra. lra.
    - destruct (cosine_guards (N := Ideal.number) a b) as [_ [_ [_ [Hlen _]]]].
      refine (eq_ind_r (fun c : R => (-1 <= c <= 1)%R) _ (Hlen E)).
      unfold zero. simpl. lra. }
  split; [exact Hcos|].
  intros f pd. unfold relevance, AttentionRanker.attentionScore.
  destruct (AttentionRanker.tokenize (text pd)).
  - unfold zero. simpl. lra.
  - cbv zeta. cbn [AttentionRanker.score]. apply Hcos.
Qed.

(** ** More on the attention scorer *)

Lemma softmax_length {N : Number} {M : MathLib N} (scores : list num) :
  List.length (AttentionRanker.softmax scores) = List.length scores.
Proof. unfold AttentionRanker.softmax. rewrite !length_map. reflexivity. Qed.

Lemma Rsum_ge_each (l : list R) (x : R) :
  Forall (fun y => (0 <= y)%R) l -> In x l -> (x <= Rsum l)%R.
Proof.
  induction 1 as [|y l Hy Hl IH]; intros Hin; [destruct Hin|]. simpl.
  assert (Hs : (0 <= Rsum l)%R).
  { clear -Hl. induction Hl as [|z l Hz Hl IH]; simpl; lra. }
  destruct Hin as [->|Hin]; [lra|]. specialize (IH Hin). lra.
Qed.

Lemma softmax_spec_weights (ss : list R) :
  Forall (fun w => (0 < w <= 1)%R) (AttentionSpec.softmax ss).
Proof.
  destruct ss as [|s0 ss0] eqn:Ess; [constructor|]. rewrite <- Ess.
  assert (Hne : ss <> []) by (rewrite Ess; discriminate).
  unfold AttentionSpec.softmax.
  set (ex := map (fun s => Rtrigo_def.exp (s - AttentionSpec.list_max ss)) ss).
  pose proof (Rsum_exp_pos ss (AttentionSpec.list_max ss) Hne) as Hpos. fold ex in Hpos.
  assert (Hex : Forall (fun y => (0 < y)%R) ex).
  { unfold ex. apply Forall_map, Forall_forall. intros s _. apply exp_pos. }
  destruct (Req_dec_T (Rsum ex) 0) as [E|E]; [lra|].
  apply Forall_map, Forall_forall. intros x Hx.
  assert (Hx0 : (0 < x)%R) by (rewrite Forall_forall in Hex; apply Hex, Hx).
  assert (Hle : (x <= Rsum ex)%R).
  { apply Rsum_ge_each; [|exact Hx]. eapply Forall_impl; [|exact Hex].
    simpl. intros; lra. }
  split.
  - apply Rdiv_lt_0_compat; assumption.
  - apply (Rmult_le_reg_r (Rsum ex)); [exact Hpos|].
    unfold Rdiv. rewrite Rmult_assoc, Rinv_l by exact E. lra.
Qed.

(** Over the real numbers every weight is positive and at most 1. *)
Lemma attention_weights_exact (text : string) (q : list R) :
  Forall (fun w => (0 < w <= 1)%R)
         (AttentionRanker.weights
            (AttentionRanker.attentionScore (N := Ideal.number) text q)).
Proof.
  unfold AttentionRanker.attentionScore.
  destruct (AttentionRanker.tokenize text) as [|w ws]; [constructor|].
  cbv zeta. cbn [AttentionRanker.weights].
  match goal with |- Forall _ (AttentionRanker.softmax ?x) =>
    pose proof (softmax_ideal x) as Hs; pose proof (softmax_spec_weights x) as Hw
  end.
  rewrite <- Hs in Hw. exact Hw.
Qed.

(** In every arithmetic the scorer returns one weight per token of the
    text; it returns no weight, and then relevance 0, exactly for the texts
    that are empty or white space only. *)
Theorem attention_weights_shape (N : Number) (M : MathLib N)
        (text : string) (q : list num) :
  List.length (AttentionRanker.weights (AttentionRanker.attentionScore text q))
  = List.length (AttentionRanker.tokenize text)
  /\ (blank text ->
      AttentionRanker.attentionScore text q
      = {| AttentionRanker.score := zero; AttentionRanker.weights := [] |})
  /\ (AttentionRanker.weights (AttentionRanker.attentionScore text q) = [] ->
      blank text).
Proof.
  assert (Hl : List.length (AttentionRanker.weights
                              (AttentionRanker.attentionScore text q))
               = List.length (AttentionRanker.tokenize text)).
  { unfold AttentionRanker.attentionScore.
    destruct (AttentionRanker.tokenize text) as [|w ws]; [reflexivity|].
    cbv zeta. cbn [AttentionRanker.weights].
    rewrite softmax_length, !length_map. reflexivity. }
  split; [exact Hl|]. split.
  - unfold AttentionRanker.attentionScore. intros Hb.
    rewrite (proj2 (tokenize_nil_iff text) Hb). reflexivity.
  - intros Hw. rewrite Hw in Hl. apply tokenize_nil_iff.
    destruct (AttentionRanker.tokenize text); [reflexivity|discriminate].
Qed.

Lemma attention_weights_shape_witness :
  AttentionRanker.attentionScore (N := Binary64.number) (M := Samples.mathlib64)
    " " [Binary64.of_Z 1]
  = {| AttentionRanker.score := zero; AttentionRanker.weights := [] |}.
Proof.
  apply (attention_weights_shape Binary64.number Samples.mathlib64 " "
           [Binary64.of_Z 1]).
  intros c [<-|[]]. reflexivity.
Defined.

(** In double precision the three weights of "ai ai ai" are the binary32
    value next to 1/3 each, 0.3333333432674408, and their sum is not 1. *)
Example weights_binary64 :
  let w := AttentionRanker.weights
             (AttentionRanker.attentionScore (N := Binary64.number)
                (M := Samples.mathlib64) "ai ai ai"
                (AttentionRanker.buildQueryVector "tech")) in
  w = repeat (S754_finite false 6004799682117632 (-54)) 3
  /\ SFeqb (fold_left (SFadd Binary64.prec Binary64.emax) w (Binary64.of_Z 0))
           (Binary64.of_Z 1) = false.
Proof. vm_compute. split; reflexivity. Qed.

(** In double precision the entry 39 of the embedding of "asm" (token id
    160) is the binary32 value next to 0.1, which is above 0.1. *)
Example embedding_entry_binary64 :
  AttentionRanker.tokenIdFor "asm" = 160
  /\ nth 39 (AttentionRanker.embeddingForTokenId (N := Binary64.number) 160) S754_nan
     = S754_finite false 7205759511166976 (-56)
  /\ SFltb (AttentionRanker.lit_0_1 (N := Binary64.number))
           (S754_finite false 7205759511166976 (-56)) = true.
Proof. vm_compute. repeat split. Qed.

(** *** Filters whose query has no token *)

Lemma squared_norm_zeros_ideal (n : nat) :
  @num_eqb Ideal.number (squared_norm (AttentionRanker.zeros (N := Ideal.number) n)) zero
  = true.
Proof.
  rewrite squared_norm_R. apply Reqb_true. unfold zero, AttentionRanker.zeros. simpl.
  induction n as [|n IH]; simpl; [reflexivity|]. rewrite IH. unfold zero. simpl. lra.
Qed.

Lemma squared_norm_zeros_binary64 :
  @num_eqb Binary64.number
    (squared_norm (AttentionRanker.zeros (N := Binary64.number) AttentionRanker.embedDim))
    zero
  = true.
Proof. vm_compute. reflexivity. Qed.

Lemma relevance_zero_norm {N : Number} {M : MathLib N} (f : Filter) (pd : PostData) :
  num_eqb (squared_norm (queryVec f)) zero = true -> relevance f pd = zero.
Proof.
  intros H. unfold relevance, AttentionRanker.attentionScore.
  destruct (AttentionRanker.tokenize (text pd)); [reflexivity|].
  cbv zeta. cbn [AttentionRanker.score].
  apply cosine_guards. right. exact H.
Qed.

(** A filter whose query text has no token scores every post 0, in exact
    arithmetic and in double precision whatever [Math.exp] returns. *)
Theorem blank_query_scores_zero :
  (forall (f : Filter (N := Ideal.number)) (pd : PostData),
      blank (query f) ->
      queryVec f = AttentionRanker.buildQueryVector (query f) ->
      relevance f pd = 0%R)
  /\ (forall (M : MathLib Binary64.number) (f : Filter (N := Binary64.number))
             (pd : PostData),
        blank (query f) ->
        queryVec f = AttentionRanker.buildQueryVector (query f) ->
        relevance f pd = S754_zero false).
Proof.
  split.
  - intros f pd Hb Hq. apply (relevance_zero_norm f pd).
    rewrite Hq, (buildQueryVector_blank (query f) Hb).
    apply squared_norm_zeros_ideal.
  - intros M f pd Hb Hq. apply (relevance_zero_norm f pd).
    rewrite Hq, (buildQueryVector_blank (query f) Hb).
    apply squared_norm_zeros_binary64.
Qed.

Lemma blank_query_scores_zero_witness :
  relevance (built (N := Ideal.number) show "" 5)
            {| text := "ai news today"; hidden := false |} = 0%R.
Proof.
  apply (proj1 blank_query_scores_zero); [intros c []|reflexivity].
Defined.

(** ** More on the command parser *)

Lemma span_fst_forall (p : ascii -> bool) (s : string) :
  forall c, In c (list_ascii_of_string (fst (JSString.span p s))) -> p c = true.
Proof.
  induction s as [|x r IH]; simpl; [intros c []|].
  destruct (p x) eqn:E; [|intros c []].
  destruct (JSString.span p r) as [a b]. simpl in *.
  intros c [<-|Hc]; [exact E|apply IH, Hc].
Qed.

Lemma match_top_digits (s b ds a : string) :
  JSString.match_top s = Some (b, ds, a) ->
  forall c, In c (list_ascii_of_string ds) -> JSString.isDigit c = true.
Proof.
  revert b. induction s as [|x r IH]; intros b H.
  - simpl in H. discriminate.
  - cbn [JSString.match_top] in H.
    destruct (JSString.match_top_here (String x r)) as [[ds' a']|] eqn:E.
    + inversion H; subst. clear H IH. unfold JSString.match_top_here in E.
      destruct r as [|o [|p r]]; try discriminate.
      destruct (_ && _ && _); [|discriminate].
      pose proof (span_fst_forall JSString.isDigit
                    (snd (JSString.span JSString.isWhiteSpace r))) as Hd.
      destruct (JSString.span JSString.isWhiteSpace r) as [ws r1]. simpl in Hd.
      destruct (JSString.span JSString.isDigit r1) as [ds' r2]. simpl in Hd.
      destruct (_ || _); [discriminate|]. inversion E; subst. exact Hd.
    + destruct (JSString.match_top r) as [[[b' ds'] a']|]; [|discriminate].
      inversion H; subst. exact (IH b' eq_refl).
Qed.

Lemma parseInt_aux_nonneg (s : string) (acc : Z) :
  0 <= acc ->
  (forall c, In c (list_ascii_of_string s) -> JSString.isDigit c = true) ->
  0 <= JSString.parseInt_aux acc s.
Proof.
  revert acc. induction s as [|x r IH]; intros acc Hacc Hd; [exact Hacc|].
  cbn [JSString.parseInt_aux].
  apply IH; [|intros c Hc; apply Hd; simpl; auto].
  specialize (Hd x (or_introl eq_refl)). unfold JSString.isDigit in Hd.
  apply andb_true_iff in Hd. destruct Hd as [H1 _]. apply Z.leb_le in H1. lia.
Qed.

Lemma trimEnd_length (s : string) :
  (String.length (JSString.trimEnd s) <= String.length s)%nat.
Proof.
  induction s as [|c r IH]; simpl; [lia|].
  destruct (JSString.trimEnd r); [destruct (JSString.isWhiteSpace c)|]; simpl in *; lia.
Qed.

Lemma trimEnd_app_blank (a r : string) :
  blank r -> JSString.trimEnd (a ++ r) = JSString.trimEnd a.
Proof.
  intros Hb. induction a as [|c a IH]; simpl.
  - apply trimEnd_nil_blank. exact Hb.
  - rewrite IH. reflexivity.
Qed.

Lemma trimEnd_app (a q : string) :
  ~ blank q -> JSString.trimEnd (a ++ q) = (a ++ JSString.trimEnd q)%string.
Proof.
  intros Hq. induction a as [|c a IH]; simpl; [reflexivity|].
  rewrite IH. destruct (a ++ JSString.trimEnd q)%string eqn:E; [|reflexivity].
  exfalso. apply Hq. apply trimEnd_nil_blank.
  destruct a; [exact E|discriminate].
Qed.

Lemma string_length_app (a b : string) :
  String.length (a ++ b) = (String.length a + String.length b)%nat.
Proof. induction a as [|c a IH]; simpl; [reflexivity|]. rewrite IH. reflexivity. Qed.

Lemma substring_app (a x : string) :
  JSString.substring (String.length a) (a ++ x) = x.
Proof. induction a as [|c a IH]; simpl; [destruct x; reflexivity|exact IH]. Qed.

Lemma toLowerCase_length (s : string) :
  String.length (JSString.toLowerCase s) = String.length s.
Proof. induction s as [|c r IH]; simpl; congruence. Qed.

Lemma startsWith_self_app (p x : string) : JSString.startsWith p (p ++ x) = true.
Proof.
  induction p as [|c p IH]; simpl; [reflexivity|].
  rewrite Ascii.eqb_refl. exact IH.
Qed.

Lemma startsWith_split (p s : string) :
  JSString.startsWith p s = true ->
  s = (p ++ JSString.substring (String.length p) s)%string.
Proof.
  revert s. induction p as [|c p IH]; intros s H; simpl.
  - destruct s; reflexivity.
  - destruct s as [|x s]; [discriminate|]. simpl in H.
    apply andb_true_iff in H. destruct H as [H1 H2].
    apply Ascii.eqb_eq in H1. subst. f_equal. apply IH, H2.
Qed.

Lemma lowerChar_space (c : ascii) : JSString.lowerChar c = " "%char -> c = " "%char.
Proof. destruct c as [[] [] [] [] [] [] [] []]; simpl; intros H; try discriminate; reflexivity. Qed.

(** After a keyword that ends with a space, a trimmed text has a word. *)
Lemma keyword_rest_not_blank (kw text : string) :
  JSString.trimEnd text = text ->
  JSString.startsWith (kw ++ " ") (JSString.toLowerCase text) = true ->
  ~ blank (JSString.substring (String.length (kw ++ " ")) text).
Proof.
  intros Ht Hs Hb.
  set (n := String.length (kw ++ " ")) in *.
  set (rest := JSString.substring n text) in *.
  assert (Hlen : (n <= String.length text)%nat).
  { apply startsWith_split in Hs. apply (f_equal String.length) in Hs.
    rewrite toLowerCase_length, string_length_app in Hs. fold n in Hs. lia. }
  assert (Hsplit : exists a, text = (a ++ String " " rest)%string
                             /\ String.length a = String.length kw).
  { unfold rest, n. clear -Hs. revert text Hs.
    induction kw as [|k kw IH]; intros text Hs.
    - destruct text as [|c text]; [discriminate|].
      cbn [JSString.toLowerCase JSString.startsWith String.append] in Hs.
      apply andb_true_iff in Hs. destruct Hs as [Hc _].
      apply Ascii.eqb_eq in Hc. symmetry in Hc. apply lowerChar_space in Hc. subst c.
      exists EmptyString. simpl. destruct text; split; reflexivity.
    - destruct text as [|c text]; [discriminate|].
      cbn [JSString.toLowerCase JSString.startsWith String.append] in Hs.
      apply andb_true_iff in Hs. destruct Hs as [_ Hs].
      destruct (IH text Hs) as [a [Ha Hl]].
      exists (String c a). simpl. split; [f_equal; exact Ha|f_equal; exact Hl]. }
  destruct Hsplit as [a [Ha Hl]].
  assert (Hb' : blank (String " " rest)).
  { intros c [<-|Hc]; [reflexivity|apply Hb, Hc]. }
  pose proof (trimEnd_app_blank a (String " " rest) Hb') as Hcut.
  rewrite <- Ha, Ht in Hcut.
  pose proof (trimEnd_length a) as Hle. rewrite <- Hcut in Hle.
  rewrite Ha, string_length_app in Hle. simpl in Hle. lia.
Qed.

Section ParserInvariants.
Context {N : Number}.

Lemma trim_not_blank (s : string) : ~ blank s -> JSString.trim s <> EmptyString.
Proof.
  intros Hnb E. apply Hnb. unfold JSString.trim in E.
  apply trimEnd_nil_blank in E.
  clear Hnb. induction s as [|c r IH]; [exact E|].
  simpl in E. destruct (JSString.isWhiteSpace c) eqn:Ec.
  - intros c' [<-|Hc']; [exact Ec|apply IH; [exact E|exact Hc']].
  - exact E.
Qed.

Lemma trimEnd_trim (s : string) : JSString.trimEnd (JSString.trim s) = JSString.trim s.
Proof. unfold JSString.trim. apply trimEnd_idem. Qed.

Lemma parse_text_trimmed (text : string) (m : Mode) (q : string) (k : Z) :
  JSString.trim text = text ->
  text <> EmptyString ->
  parse_text text = (m, q, k) ->
  JSString.trim q = q /\ 0 <= k /\ (m = hide -> k = 20 /\ q <> EmptyString).
Proof.
  intros Ht Hne. unfold parse_text.
  assert (Hte : JSString.trimEnd text = text).
  { rewrite <- Ht at 1. rewrite trimEnd_trim. exact Ht. }
  destruct (JSString.startsWith "hide " (JSString.toLowerCase text)) eqn:E1.
  { intros H. inversion H; subst. split; [apply trim_idem|]. split; [lia|].
    intros _. split; [reflexivity|]. apply trim_not_blank.
    exact (keyword_rest_not_blank "hide" text Hte E1). }
  destruct (JSString.startsWith "remove " (JSString.toLowerCase text)) eqn:E2.
  { intros H. inversion H; subst. split; [apply trim_idem|]. split; [lia|].
    intros _. split; [reflexivity|]. apply trim_not_blank.
    exact (keyword_rest_not_blank "remove" text Hte E2). }
  destruct (_ || _) eqn:E3.
  { cbv zeta.
    destruct (JSString.match_top _) as [[[b ds] a]|] eqn:Em; intros H; inversion H; subst.
    - split; [apply trim_idem|]. split; [|discriminate].
      apply parseInt_aux_nonneg; [lia|]. eapply match_top_digits. exact Em.
    - split; [apply trim_idem|]. split; [lia|discriminate]. }
  destruct (JSString.includes "only show " (JSString.toLowerCase text)) eqn:E4.
  { destruct (JSString.split_1 _ _); intros H; inversion H; subst.
    - split; [apply trim_idem|]. split; [lia|discriminate].
    - split; [exact Ht|]. split; [lia|discriminate]. }
  intros H. inversion H; subst. split; [exact Ht|]. split; [lia|].
  intros _. split; [reflexivity|exact Hne].
Qed.

Lemma parseCommand_facts (command : string) (f : Filter) :
  parseCommand command = Some f ->
  JSString.trim (query f) = query f
  /\ threshold f = lit_0_5
  /\ queryVec f = AttentionRanker.buildQueryVector (query f)
  /\ List.length (queryVec f) = AttentionRanker.embedDim
  /\ 0 <= topK f
  /\ (mode f = hide -> topK f = 20 /\ query f <> EmptyString).
Proof.
  unfold parseCommand. intros H.
  destruct (JSString.isEmpty (JSString.trim command)) eqn:E; [discriminate|].
  destruct (parse_text (JSString.trim command)) as [[m q] k] eqn:Ep.
  inversion H; subst. simpl.
  destruct (parse_text_trimmed (JSString.trim command) m q k) as [H1 [H2 H3]].
  - apply trim_idem.
  - intros E'. rewrite E' in E. discriminate.
  - exact Ep.
  - repeat split; try assumption; try (apply H3; assumption).
    apply buildQueryVector_length.
Qed.

(** What every parsed filter satisfies: its query is trimmed, its threshold
    is 0.5, its query vector is the one built from its query and has 128
    entries, its topK is not negative; a hide filter has topK 20 and a
    query that is not empty. *)
Theorem parseCommand_invariants (command : string) (f : Filter) :
  parseCommand command = Some f ->
  JSString.trim (query f) = query f
  /\ threshold f = lit_0_5
  /\ queryVec f = AttentionRanker.buildQueryVector (query f)
  /\ List.length (queryVec f) = AttentionRanker.embedDim
  /\ 0 <= topK f
  /\ (mode f = hide -> topK f = 20 /\ query f <> EmptyString).
Proof. exact (parseCommand_facts command f). Qed.

(** White space around a command does not matter. *)
Theorem parseCommand_trim (command : string) :
  parseCommand (JSString.trim command) = parseCommand command.
Proof. unfold parseCommand. rewrite trim_idem. reflexivity. Qed.

End ParserInvariants.

Lemma parseCommand_invariants_witness :
  exists f, parseCommand (N := Binary64.number) "show top 7 cats" = Some f
            /\ JSString.trim (query f) = query f /\ 0 <= topK f.
Proof.
  exists (built show "cats" 7).
  assert (H : parseCommand (N := Binary64.number) "show top 7 cats"
              = Some (built show "cats" 7)).
  { apply (parseCommand_some "show top 7 cats" "show top 7 cats" "cats" show 7);
      reflexivity. }
  split; [exact H|].
  destruct (parseCommand_invariants _ _ H) as [H1 [_ [_ [_ [H5 _]]]]].
  split; assumption.
Defined.

Section Keywords.
Context {N : Number}.

Lemma keyword_first_char (kw x : string) (c : ascii) :
  JSString.toLowerCase kw = String c x ->
  JSString.isWhiteSpace c = false ->
  forall q, JSString.trimStart (kw ++ q) = (kw ++ q)%string.
Proof.
  intros Hk Hc q. destruct kw as [|k kw]; [discriminate|].
  simpl in Hk. inversion Hk; subst. rewrite lowerChar_whitespace in Hc.
  simpl. rewrite Hc. reflexivity.
Qed.

Lemma trim_trimEnd (q : string) : JSString.trim (JSString.trimEnd q) = JSString.trim q.
Proof.
  unfold JSString.trim. rewrite trimStart_trimEnd, trimEnd_idem. reflexivity.
Qed.

(** "hide" and "remove" are synonyms, in any letter case: followed by a
    space and a text with at least one word, both give the hide filter for
    the trimmed text, with topK 20 and threshold 0.5. *)
Theorem hide_remove_commands (kw q : string) :
  JSString.toLowerCase kw = "hide "%string \/ JSString.toLowerCase kw = "remove "%string ->
  ~ blank q ->
  parseCommand (kw ++ q) = Some (built hide (JSString.trim q) 20).
Proof.
  intros Hkw Hq.
  assert (Htrim : JSString.trim (kw ++ q) = (kw ++ JSString.trimEnd q)%string).
  { unfold JSString.trim.
    assert (Hs : JSString.trimStart (kw ++ q) = (kw ++ q)%string).
    { destruct Hkw as [H|H].
      - apply (keyword_first_char kw "ide " "h" H). reflexivity.
      - apply (keyword_first_char kw "emove " "r" H). reflexivity. }
    rewrite Hs. apply trimEnd_app. exact Hq. }
  apply (parseCommand_some _ _ _ _ _ Htrim).
  - destruct kw; [destruct Hkw; discriminate|reflexivity].
  - unfold parse_text. rewrite toLowerCase_app.
    destruct Hkw as [H|H]; rewrite H.
    + rewrite startsWith_self_app.
      change 5%nat with (String.length "hide ").
      rewrite <- H, toLowerCase_length, substring_app, trim_trimEnd. reflexivity.
    + change (JSString.startsWith "hide " ("remove " ++ JSString.toLowerCase (JSString.trimEnd q)))
        with false.
      rewrite startsWith_self_app.
      change 7%nat with (String.length "remove ").
      rewrite <- H, toLowerCase_length, substring_app, trim_trimEnd. reflexivity.
Qed.

(** A hide filter whose query contains no keyword comes back from its saved
    tuple unchanged. *)
Theorem restore_plain_hide_filter (command : string) (f : Filter) :
  parseCommand command = Some f ->
  mode f = hide ->
  JSString.startsWith "hide " (JSString.toLowerCase (query f)) = false ->
  JSString.startsWith "remove " (JSString.toLowerCase (query f)) = false ->
  JSString.startsWith "show " (JSString.toLowerCase (query f)) = false ->
  JSString.startsWith "only " (JSString.toLowerCase (query f)) = false ->
  JSString.includes "only show " (JSString.toLowerCase (query f)) = false ->
  restoreFilters [metadata_of f] = [f].
Proof.
  intros Hp Hm H1 H2 H3 H4 H5.
  destruct (parseCommand_facts command f Hp) as [Ht [Hth [Hv [_ [_ Hh]]]]].
  destruct (Hh Hm) as [Hk Hne].
  rewrite restoreFilters_one.
  rewrite (restoreFilter_some (metadata_of f) (query f) (query f) hide 20).
  - destruct f as [q m v k th]. simpl in *. subst. reflexivity.
  - exact Ht.
  - destruct (query f); [congruence|reflexivity].
  - unfold parse_text. rewrite H1, H2, H3, H4, H5. reflexivity.
Qed.

(** The mode of a restored filter is read off the saved query text, never
    off the saved mode: a restored filter is in show mode only if the saved
    query, trimmed and lower-cased, starts with "show " or "only " or
    contains "only show ". *)
Theorem restored_mode_from_query (meta : FilterMetadata) (f : Filter) :
  restoreFilter meta = Some f ->
  mode f = show ->
  let saved := JSString.toLowerCase (JSString.trim (meta_query meta)) in
  JSString.startsWith "show " saved = true
  \/ JSString.startsWith "only " saved = true
  \/ JSString.includes "only show " saved = true.
Proof.
  intros H Hm saved. unfold restoreFilter, parseCommand in H.
  destruct (JSString.isEmpty (JSString.trim (meta_query meta))); [discriminate|].
  destruct (parse_text (JSString.trim (meta_query meta))) as [[m q] k] eqn:Ep.
  inversion H; subst. simpl in Hm. subst m. clear H.
  unfold parse_text in Ep. fold saved in Ep.
  destruct (JSString.startsWith "hide " saved); [discriminate|].
  destruct (JSString.startsWith "remove " saved); [discriminate|].
  destruct (JSString.startsWith "show " saved); [left; reflexivity|].
  destruct (JSString.startsWith "only " saved); [right; left; reflexivity|].
  destruct (JSString.includes "only show " saved); [right; right; reflexivity|].
  discriminate.
Qed.

End Keywords.

Lemma hide_remove_commands_witness :
  parseCommand (N := Binary64.number) ("Remove " ++ " crypto tweets ")
  = Some (built hide "crypto tweets" 20).
Proof.
  apply (hide_remove_commands (N := Binary64.number) "Remove " " crypto tweets ").
  - right. reflexivity.
  - intros H. specialize (H "c"%char). discriminate H. simpl. tauto.
Defined.

Lemma restore_plain_hide_filter_witness :
  restoreFilters [metadata_of (built (N := Binary64.number) hide "sports" 20)]
  = [built hide "sports" 20].
Proof.
  apply (restore_plain_hide_filter (N := Binary64.number) "hide sports");
    reflexivity.
Defined.

Lemma restored_mode_from_query_witness :
  JSString.startsWith "show " "show cats" = true
  \/ JSString.startsWith "only " "show cats" = true
  \/ JSString.includes "only show " "show cats" = true.
Proof.
  apply (restored_mode_from_query (N := Binary64.number)
           {| meta_query := "Show cats"; meta_mode := hide;
              meta_topK := 3; meta_threshold := lit_0_5 |}
           {| query := "cats"; mode := show;
              queryVec := AttentionRanker.buildQueryVector "cats";
              topK := 3; threshold := lit_0_5 |}).
  - exact (restoreFilter_some
             {| meta_query := "Show cats"; meta_mode := hide;
                meta_topK := 3; meta_threshold := lit_0_5 |}
             "Show cats" "cats" show 20 eq_refl eq_refl eq_refl).
  - reflexivity.
Defined.

(** ** More on the filtering pass *)

Section PassDecisions.
Context {N : Number} {M : MathLib N}.

Lemma score_posts_skeleton (f : Filter) (i0 : nat) (m1 m2 : PostMap) :
  skeleton m1 = skeleton m2 -> score_posts f i0 m1 = score_posts f i0 m2.
Proof.
  revert i0 m2. induction m1 as [|[k1 [t1 h1]] m1 IH]; intros i0 [|[k2 [t2 h2]] m2] H;
    simpl in *; try discriminate; [reflexivity|].
  inversion H; subst. f_equal. apply IH. assumption.
Qed.

Lemma forces_skeleton (f : Filter) (m1 m2 : PostMap) (kv : string * PostData) :
  skeleton m1 = skeleton m2 -> forces f m1 kv = forces f m2 kv.
Proof.
  intros H. unfold forces. rewrite (score_posts_skeleton f 0 m1 m2 H). reflexivity.
Qed.

Lemma forces_flag (f : Filter) (m : PostMap) (kv : string * PostData) (h : bool) :
  forces f m (fst kv, set_hidden h (snd kv)) = forces f m kv.
Proof. reflexivity. Qed.

Lemma some_forces_skeleton (fs : list Filter) (m1 m2 : PostMap) (kv : string * PostData) :
  skeleton m1 = skeleton m2 -> some_forces fs m1 kv = some_forces fs m2 kv.
Proof.
  intros H. induction fs as [|f r IH]; simpl; [reflexivity|].
  rewrite IH, (forces_skeleton f m1 m2 kv H). reflexivity.
Qed.

Lemma some_forces_flag (fs : list Filter) (m : PostMap) (kv : string * PostData) (h : bool) :
  some_forces fs m (fst kv, set_hidden h (snd kv)) = some_forces fs m kv.
Proof. induction fs as [|f r IH]; simpl; [reflexivity|]. rewrite IH. reflexivity. Qed.

Lemma applyFilter_decided (m : PostMap) (f : Filter) :
  applyFilter m f = map (decided [f] m) m.
Proof.
  apply nth_error_ext. intros i. rewrite nth_error_map.
  destruct (nth_error m i) as [kv|] eqn:E.
  - unfold decided, all_keep. cbn [forallb some_forces option_map].
    unfold keeps, forces. destruct (mode f) eqn:Em.
    + rewrite (hide_pass_entry m f i kv Em E).
      rewrite !andb_true_r, orb_false_r. reflexivity.
    + rewrite (applyFilter_show m f Em), nth_error_map, E. cbn [option_map].
      rewrite show_step_eq, !andb_false_r, andb_true_r, orb_false_r. reflexivity.
  - simpl. apply nth_error_None.
    rewrite <- (skeleton_length (applyFilter m f)), applyFilter_skeleton, skeleton_length.
    apply nth_error_None. exact E.
Qed.

Lemma decided_skeleton (fs : list Filter) (m0 m : PostMap) :
  skeleton (map (decided fs m0) m) = skeleton m.
Proof. unfold skeleton. rewrite map_map. apply map_ext. intros [k [t h]]. reflexivity. Qed.

(** The filters of a pass, entry by entry. *)
Lemma applyFilters_decided (fs : list Filter) (m : PostMap) :
  fold_left applyFilter fs m = map (decided fs m) m.
Proof.
  revert m. induction fs as [|f r IH]; intros m.
  - simpl. rewrite <- (map_id m) at 1. apply map_ext.
    intros [k [t h]]. unfold decided. simpl. rewrite andb_true_r, orb_false_r. reflexivity.
  - cbn [fold_left]. rewrite IH, applyFilter_decided, map_map.
    apply map_ext. intros kv.
    unfold decided at 1.
    rewrite (some_forces_skeleton r _ m) by apply decided_skeleton.
    unfold decided. cbn [fst snd set_hidden hidden text].
    rewrite (some_forces_flag r m kv). cbn [some_forces]. unfold all_keep.
    cbn [forallb].
    destruct (hidden (snd kv)), (keeps f), (forallb keeps r), (forces f m kv),
      (some_forces r m kv); reflexivity.
Qed.

Lemma applyFilters_idempotent (fs : list Filter) (m : PostMap) :
  fold_left applyFilter fs (fold_left applyFilter fs m) = fold_left applyFilter fs m.
Proof.
  rewrite (applyFilters_decided fs (fold_left applyFilter fs m)).
  rewrite (applyFilters_decided fs m) at 2.
  rewrite (applyFilters_decided fs m) at 2.
  rewrite map_map. apply map_ext. intros kv.
  unfold decided at 1.
  rewrite (some_forces_skeleton fs _ m) by apply applyFilters_skeleton.
  unfold decided. cbn [fst snd set_hidden hidden text].
  rewrite (some_forces_flag fs m kv).
  destruct (hidden (snd kv)), (all_keep fs), (some_forces fs m kv); reflexivity.
Qed.

Lemma show_all_idempotent (m : PostMap) : show_all (show_all m) = show_all m.
Proof.
  unfold show_all. rewrite map_map. apply map_ext.
  intros [k [t h]]. destruct h; reflexivity.
Qed.

Lemma count_hidden_show_all (m : PostMap) : count_hidden (show_all m) = 0%nat.
Proof.
  unfold count_hidden, show_all. induction m as [|[k [t h]] m IH]; simpl; [reflexivity|].
  destruct h; simpl; exact IH.
Qed.

(** Running the pass a second time changes nothing: flags and hidden count
    are those of the first run. *)
Theorem pass_idempotent (st : State) :
  applyRankedFiltering (applyRankedFiltering st) = applyRankedFiltering st.
Proof.
  destruct st as [fs m b sp sh e t]. unfold applyRankedFiltering.
  cbn [filters processedPosts postBatch stats_processed stats_hidden enabled
       batchTimeout].
  destruct fs as [|f fs].
  - cbn [filters processedPosts postBatch stats_processed stats_hidden enabled
         batchTimeout].
    rewrite show_all_idempotent. reflexivity.
  - cbv zeta.
    cbn [filters processedPosts postBatch stats_processed stats_hidden enabled
         batchTimeout].
    rewrite (applyFilters_idempotent (f :: fs) m). reflexivity.
Qed.

Lemma pass_skeleton (st : State) :
  skeleton (processedPosts (applyRankedFiltering st)) = skeleton (processedPosts st).
Proof.
  unfold applyRankedFiltering. destruct (filters st) as [|f fs] eqn:E; simpl.
  - unfold skeleton, show_all. rewrite map_map. apply map_ext.
    intros [k [t h]]. destruct h; reflexivity.
  - rewrite applyFilters_skeleton. apply applyFilter_skeleton.
Qed.

Lemma pass_counts (st : State) :
  stats_hidden (applyRankedFiltering st)
  = Z.of_nat (count_hidden (processedPosts (applyRankedFiltering st))).
Proof.
  unfold applyRankedFiltering. destruct (filters st) as [|f fs] eqn:E; simpl.
  - rewrite count_hidden_show_all. reflexivity.
  - reflexivity.
Qed.

(** A pass changes nothing but the hidden flags and the hidden count, and
    the count it reports is the number of hidden flags it leaves. *)
Theorem pass_frame (st : State) :
  let st' := applyRankedFiltering st in
  filters st' = filters st
  /\ postBatch st' = postBatch st
  /\ stats_processed st' = stats_processed st
  /\ enabled st' = enabled st
  /\ batchTimeout st' = batchTimeout st
  /\ skeleton (processedPosts st') = skeleton (processedPosts st)
  /\ stats_hidden st' = Z.of_nat (count_hidden (processedPosts st')).
Proof.
  unfold applyRankedFiltering. destruct (filters st) as [|f fs] eqn:E; simpl.
  - repeat split; try (symmetry; exact E).
    + unfold skeleton, show_all. rewrite map_map. apply map_ext.
      intros [k [t h]]. destruct h; reflexivity.
    + rewrite count_hidden_show_all. reflexivity.
  - repeat split; try (symmetry; exact E).
    rewrite applyFilters_skeleton. apply applyFilter_skeleton.
Qed.

Lemma all_keep_hide (fs : list Filter) :
  Forall (fun f => mode f = hide) fs -> all_keep fs = true.
Proof.
  induction 1 as [|f r Hf Hr IH]; [reflexivity|]. simpl.
  unfold keeps at 1. rewrite Hf. exact IH.
Qed.

Lemma some_forces_hide (fs : list Filter) (m : PostMap) (kv : string * PostData) :
  Forall (fun f => mode f = hide) fs ->
  some_forces fs m kv
  = existsb (fun f => num_leb (threshold f) (relevance f (snd kv))) fs.
Proof.
  induction 1 as [|f r Hf Hr IH]; [reflexivity|]. simpl.
  rewrite IH, (all_keep_hide r Hr), andb_true_r. unfold forces. rewrite Hf. reflexivity.
Qed.

Lemma hide_only_entry (st : State) (i : nat) (kv : string * PostData) :
  filters st <> [] ->
  Forall (fun f => mode f = hide) (filters st) ->
  nth_error (processedPosts st) i = Some kv ->
  nth_error (processedPosts (applyRankedFiltering st)) i
  = Some (fst kv,
          set_hidden
            (hidden (snd kv)
             || existsb (fun f => num_leb (threshold f) (relevance f (snd kv)))
                        (filters st))
            (snd kv)).
Proof.
  intros Hne Hall Hi. unfold applyRankedFiltering.
  destruct (filters st) as [|f fs] eqn:E; [congruence|]. rewrite <- E in *.
  cbn [processedPosts]. rewrite applyFilters_decided, nth_error_map, Hi. simpl.
  unfold decided. rewrite (all_keep_hide _ Hall), andb_true_r.
  rewrite (some_forces_hide _ _ _ Hall). reflexivity.
Qed.

(** When every active filter is a hide filter, a pass only adds hidden
    flags: a post is hidden afterwards exactly when it was hidden before or
    its relevance reaches the threshold of one of the filters. *)
Theorem hide_only_pass (st : State) (i : nat) (kv : string * PostData) :
  filters st <> [] ->
  Forall (fun f => mode f = hide) (filters st) ->
  nth_error (processedPosts st) i = Some kv ->
  nth_error (processedPosts (applyRankedFiltering st)) i
  = Some (fst kv,
          set_hidden
            (hidden (snd kv)
             || existsb (fun f => num_leb (threshold f) (relevance f (snd kv)))
                        (filters st))
            (snd kv)).
Proof. exact (hide_only_entry st i kv). Qed.

Lemma remove_index_forall (P : Filter -> Prop) (index : nat) (fs : list Filter) :
  Forall P fs -> Forall P (remove_index index fs).
Proof.
  intros H. revert index. induction H as [|f r Hf Hr IH]; intros [|i]; simpl;
    try constructor; auto.
Qed.

(** Removing one of several hide filters un-hides nothing: every post that
    was hidden stays hidden, whichever filter had hidden it. *)
Theorem removeFilter_keeps_hidden (index : nat) (st : State) (i : nat)
        (kv : string * PostData) :
  Forall (fun f => mode f = hide) (filters st) ->
  remove_index index (filters st) <> [] ->
  nth_error (processedPosts st) i = Some kv ->
  hidden (snd kv) = true ->
  exists kv',
    nth_error (processedPosts (removeFilter index st)) i = Some kv'
    /\ fst kv' = fst kv /\ hidden (snd kv') = true.
Proof.
  intros Hall Hne Hi Hh. unfold removeFilter. eexists. split.
  - apply hide_only_entry.
    + exact Hne.
    + cbn [filters set_filters]. apply remove_index_forall. exact Hall.
    + exact Hi.
  - simpl. rewrite Hh. split; reflexivity.
Qed.

End PassDecisions.

Lemma hide_only_pass_witness :
  let st := Samples.state_of [built hide "sports" 20] Samples.two_posts in
  let kv := Samples.entry "2" "sports results" in
  nth_error (processedPosts (applyRankedFiltering st)) 1
  = Some (fst kv,
          set_hidden
            (hidden (snd kv)
             || existsb (fun f => num_leb (threshold f) (relevance f (snd kv)))
                        (filters st))
            (snd kv)).
Proof.
  intros st kv.
  apply (hide_only_pass (N := Ideal.number) st 1 kv).
  - intros H. discriminate H.
  - repeat constructor.
  - reflexivity.
Defined.

Lemma removeFilter_keeps_hidden_witness :
  let st := Samples.state_of [built hide "sports" 20; built hide "ai" 20]
              [("1"%string, {| text := "sports results"; hidden := true |})] in
  exists kv',
    nth_error (processedPosts (removeFilter 0 st)) 0 = Some kv'
    /\ fst kv' = "1"%string /\ hidden (snd kv') = true.
Proof.
  intros st.
  apply (removeFilter_keeps_hidden (N := Ideal.number) 0 st 0
           ("1"%string, {| text := "sports results"; hidden := true |})).
  - repeat constructor.
  - intros H. discriminate H.
  - reflexivity.
  - reflexivity.
Defined.

(** ** Show filters whose ranking is decided by the order of arrival *)

Lemma count_hidden_zero (m : PostMap) (kv : string * PostData) :
  count_hidden m = 0%nat -> In kv m -> hidden (snd kv) = false.
Proof.
  unfold count_hidden. intros H Hin.
  destruct (hidden (snd kv)) eqn:E; [|reflexivity].
  assert (Hf : In kv (filter (fun kv => hidden (snd kv)) m)).
  { apply filter_In. split; assumption. }
  destruct (filter (fun kv => hidden (snd kv)) m); [destruct Hf|discriminate].
Qed.

Lemma nodup_firstn_member (ks : list string) (n i : nat) (k : string) :
  NoDup ks -> nth_error ks i = Some k -> set_has k (firstn n ks) = (i <? n)%nat.
Proof.
  intros Hnd Hi. apply eq_true_iff_eq. rewrite set_has_true, Nat.ltb_lt. split.
  - intros Hin. apply In_nth_error in Hin. destruct Hin as [j Hj].
    assert (Hjn : (j < n)%nat).
    { assert (j < List.length (firstn n ks))%nat by (apply nth_error_Some; congruence).
      rewrite length_firstn in H. lia. }
    rewrite nth_error_firstn in Hj.
    rewrite (proj2 (Nat.ltb_lt j n) Hjn) in Hj.
    assert (i = j).
    { apply (proj1 (NoDup_nth_error ks) Hnd).
      - apply nth_error_Some. congruence.
      - congruence. }
    subst j. exact Hjn.
  - intros Hlt. apply (nth_error_In _ i).
    rewrite nth_error_firstn, (proj2 (Nat.ltb_lt i n) Hlt). exact Hi.
Qed.

Section ShowOrder.
Context {N : Number} {M : MathLib N}.

Lemma pass_last (st : State) (fs : list Filter) (f : Filter) :
  filters st = fs ++ [f] ->
  processedPosts (applyRankedFiltering st)
  = applyFilter (fold_left applyFilter fs (processedPosts st)) f.
Proof.
  intros Hf. unfold applyRankedFiltering. rewrite Hf.
  destruct (fs ++ [f]) eqn:E; [destruct fs; discriminate|].
  rewrite <- E. simpl. rewrite fold_left_app. reflexivity.
Qed.

(** With equal scores all over, the stable sort keeps the order of the
    map and the retain-set is made of its first keys. *)
Lemma show_ties_retained (m : PostMap) (f : Filter) (c : num) :
  (forall kv, In kv m -> relevance f (snd kv) = c) ->
  num_ltb zero (num_sub c c) = false ->
  0 <= effective_topK f ->
  map postId (slice0 (effective_topK f) (js_sort by_similarity (score_posts f 0 m)))
  = firstn (Z.to_nat (effective_topK f)) (map fst m).
Proof.
  intros Hc Hz Hk. rewrite slice0_nonneg by exact Hk.
  rewrite js_sort_ties.
  - rewrite <- firstn_map, score_posts_ids. reflexivity.
  - intros a b Ha Hb.
    apply in_score_posts in Ha. destruct Ha as [i [kv [Hi ->]]].
    apply in_score_posts in Hb. destruct Hb as [j [kv' [Hj ->]]].
    unfold by_similarity. simpl.
    rewrite (Hc kv (nth_error_In _ _ Hi)), (Hc kv' (nth_error_In _ _ Hj)).
    exact Hz.
Qed.

Lemma show_ties_flags (st : State) (fs : list Filter) (f : Filter) (c : num) :
  filters st = fs ++ [f] -> mode f = show -> 0 <= effective_topK f ->
  NoDup (map fst (processedPosts st)) ->
  (forall kv, In kv (processedPosts st) -> relevance f (snd kv) = c) ->
  num_ltb zero (num_sub c c) = false ->
  map (fun kv => hidden (snd kv)) (processedPosts (applyRankedFiltering st))
  = map (fun i => negb (i <? Z.to_nat (effective_topK f))%nat)
        (seq 0 (List.length (processedPosts st))).
Proof.
  intros Hf Hm Hk Hnd Hc Hz.
  rewrite (pass_last st fs f Hf).
  set (m := processedPosts st) in *.
  set (m1 := fold_left applyFilter fs m).
  assert (Hs1 : skeleton m1 = skeleton m) by apply applyFilters_skeleton.
  assert (Hlen1 : List.length m1 = List.length m).
  { rewrite <- (skeleton_length m1), Hs1. apply skeleton_length. }
  assert (Hnd1 : NoDup (map fst m1)).
  { rewrite skeleton_keys, Hs1, <- skeleton_keys. exact Hnd. }
  assert (Hc1 : forall kv, In kv m1 -> relevance f (snd kv) = c).
  { intros kv1 Hin.
    assert (Hs : In (fst kv1, text (snd kv1)) (skeleton m)).
    { rewrite <- Hs1. unfold skeleton. apply in_map_iff.
      exists kv1. split; [reflexivity|exact Hin]. }
    unfold skeleton in Hs. apply in_map_iff in Hs. destruct Hs as [kv0 [E Hin0]].
    rewrite <- (Hc kv0 Hin0). inversion E as [[E1 E2]].
    unfold relevance. rewrite E2. reflexivity. }
  rewrite (applyFilter_show m1 f Hm), (show_ties_retained m1 f c Hc1 Hz Hk).
  rewrite map_map, <- Hlen1.
  apply nth_error_ext. intros i. rewrite !nth_error_map.
  destruct (nth_error m1 i) as [kv1|] eqn:E.
  - assert (Hi : (i < List.length m1)%nat) by (apply nth_error_Some; congruence).
    rewrite (nth_error_nth' _ 0%nat) by (rewrite length_seq; exact Hi).
    rewrite seq_nth by exact Hi. simpl.
    rewrite show_step_eq. simpl.
    rewrite (nodup_firstn_member (map fst m1) _ i (fst kv1) Hnd1)
      by (rewrite nth_error_map, E; reflexivity).
    reflexivity.
  - apply nth_error_None in E.
    assert (E' : nth_error (seq 0 (List.length m1)) i = None).
    { apply nth_error_None. rewrite length_seq. exact E. }
    rewrite E'. reflexivity.
Qed.

(** A show filter that ends a pass with [topK || 20] at least the number of
    cached posts leaves every post visible, also those an earlier filter of
    the pass had hidden, and the hidden count is 0, whatever the scores
    are. *)
Theorem show_covers_all (st : State) (fs : list Filter) (f : Filter) :
  filters st = fs ++ [f] -> mode f = show ->
  Z.of_nat (List.length (processedPosts st)) <= effective_topK f ->
  NoDup (map fst (processedPosts st)) ->
  stats_hidden (applyRankedFiltering st) = 0
  /\ forall kv, In kv (processedPosts (applyRankedFiltering st)) ->
                hidden (snd kv) = false.
Proof.
  intros Hf Hm Hk Hnd.
  assert (Hk0 : 0 <= effective_topK f) by lia.
  destruct (show_pass_final st fs f Hf Hm Hk0 Hnd) as [_ [Hl [Hv [Hs _]]]].
  pose proof (count_hidden_visible (processedPosts (applyRankedFiltering st))) as Hcv.
  assert (H0 : count_hidden (processedPosts (applyRankedFiltering st)) = 0%nat) by lia.
  split.
  - rewrite Hs, H0. reflexivity.
  - intros kv Hin. exact (count_hidden_zero _ kv H0 Hin).
Qed.

End ShowOrder.

(** A show filter whose query has no token, as "show top 5" builds it,
    keeps the first [topK || 20] posts in the order of arrival and hides the
    others, whatever the posts say: every score is 0 and the stable sort
    moves nothing.  This holds in exact arithmetic and in double precision,
    whatever [Math.exp] returns. *)
Theorem show_blank_query_keeps_first :
  (forall (st : State (N := Ideal.number)) (fs : list Filter) (f : Filter),
      filters st = fs ++ [f] -> mode f = show -> 0 <= effective_topK f ->
      NoDup (map fst (processedPosts st)) ->
      blank (query f) ->
      queryVec f = AttentionRanker.buildQueryVector (query f) ->
      map (fun kv => hidden (snd kv)) (processedPosts (applyRankedFiltering st))
      = map (fun i => negb (i <? Z.to_nat (effective_topK f))%nat)
            (seq 0 (List.length (processedPosts st))))
  /\ (forall (M : MathLib Binary64.number) (st : State (N := Binary64.number))
             (fs : list Filter) (f : Filter),
        filters st = fs ++ [f] -> mode f = show -> 0 <= effective_topK f ->
        NoDup (map fst (processedPosts st)) ->
        blank (query f) ->
        queryVec f = AttentionRanker.buildQueryVector (query f) ->
        map (fun kv => hidden (snd kv)) (processedPosts (applyRankedFiltering st))
        = map (fun i => negb (i <? Z.to_nat (effective_topK f))%nat)
              (seq 0 (List.length (processedPosts st)))).
Proof.
  split.
  - intros st fs f Hf Hm Hk Hnd Hb Hq.
    apply (show_ties_flags st fs f 0%R Hf Hm Hk Hnd).
    + intros kv _. apply (relevance_zero_norm f (snd kv)).
      rewrite Hq, (buildQueryVector_blank (query f) Hb).
      apply squared_norm_zeros_ideal.
    + simpl. apply Rltb_false. unfold zero. simpl. lra.
  - intros M st fs f Hf Hm Hk Hnd Hb Hq.
    apply (show_ties_flags st fs f (S754_zero false) Hf Hm Hk Hnd).
    + intros kv _. apply (relevance_zero_norm f (snd kv)).
      rewrite Hq, (buildQueryVector_blank (query f) Hb).
      apply squared_norm_zeros_binary64.
    + reflexivity.
Qed.

Lemma blank_empty : blank "".
Proof. intros c []. Qed.

(** In double precision "show top 1" after a hide filter keeps the first
    post and hides the second. *)
Lemma show_blank_query_keeps_first_witness :
  let st := Samples.state64 [built hide "ai" 20; built show "" 1] Samples.two_posts in
  map (fun kv => hidden (snd kv))
      (processedPosts (applyRankedFiltering (M := Samples.mathlib64) st))
  = [false; true].
Proof.
  intros st.
  refine (proj2 show_blank_query_keeps_first Samples.mathlib64 st
            [built hide "ai" 20] (built show "" 1)
            eq_refl eq_refl _ two_posts_nodup blank_empty eq_refl).
  unfold effective_topK. cbn [topK built Z.eqb]. lia.
Defined.

Lemma show_covers_all_witness :
  let st := Samples.state64 [built hide "ai" 20; built show "news" 5]
              Samples.two_posts in
  stats_hidden (applyRankedFiltering (M := Samples.mathlib64) st) = 0
  /\ forall kv, In kv (processedPosts (applyRankedFiltering (M := Samples.mathlib64) st)) ->
                hidden (snd kv) = false.
Proof.
  intros st.
  refine (show_covers_all (M := Samples.mathlib64) st [built hide "ai" 20]
            (built show "news" 5) eq_refl eq_refl _ two_posts_nodup).
  unfold effective_topK. cbn [topK built Z.eqb processedPosts Samples.state64 st
                              Samples.two_posts List.length]. lia.
Defined.

(** ** Counters, cache and buffer along a run *)

Lemma map_set_length (k : string) (v : PostData) (m : PostMap) :
  (List.length m <= List.length (map_set k v m) <= S (List.length m))%nat.
Proof.
  induction m as [|[k' v'] r IH]; simpl; [lia|].
  destruct (String.eqb k k'); simpl; lia.
Qed.

Lemma cache_posts_count (batch : list Post) (m : PostMap) (n : Z) :
  snd (fold_left cache_post batch (m, n)) = n + Z.of_nat (List.length batch)
  /\ (List.length m <= List.length (fst (fold_left cache_post batch (m, n))))%nat
  /\ (List.length (fst (fold_left cache_post batch (m, n)))
      <= List.length m + List.length batch)%nat.
Proof.
  revert m n. induction batch as [|p batch IH]; intros m n.
  - simpl. repeat split; lia.
  - cbn [fold_left]. unfold cache_post at 2 4 6. cbn [fst snd].
    destruct (IH (map_set (id p) {| text := post_text p; hidden := false |} m) (n + 1))
      as [H1 [H2 H3]].
    pose proof (map_set_length (id p) {| text := post_text p; hidden := false |} m).
    rewrite H1. cbn [List.length]. repeat split; lia.
Qed.

Lemma cache_posts_keys (batch : list Post) (m : PostMap) (n : Z) :
  incl (map fst (fst (fold_left cache_post batch (m, n))))
       (map fst m ++ map id batch).
Proof.
  revert m n. induction batch as [|p batch IH]; intros m n.
  - simpl. rewrite app_nil_r. apply incl_refl.
  - cbn [fold_left]. unfold cache_post at 2. cbn [fst snd].
    intros k Hk. apply IH in Hk. rewrite map_set_keys in Hk.
    apply in_app_or in Hk. apply in_or_app. destruct Hk as [Hk|Hk].
    + destruct (map_has (id p) m).
      * left. exact Hk.
      * apply in_app_or in Hk. destruct Hk as [Hk|[<-|[]]].
        -- left. exact Hk.
        -- right. left. reflexivity.
    + right. right. exact Hk.
Qed.

Section Counters.
Context {N : Number} {M : MathLib N}.

Lemma pass_length (st : State) :
  List.length (processedPosts (applyRankedFiltering st))
  = List.length (processedPosts st).
Proof. rewrite <- !skeleton_length, pass_skeleton. reflexivity. Qed.

Lemma pass_processed (st : State) :
  stats_processed (applyRankedFiltering st) = stats_processed st.
Proof. unfold applyRankedFiltering. destruct (filters st); reflexivity. Qed.

Lemma pass_postBatch (st : State) :
  postBatch (applyRankedFiltering st) = postBatch st.
Proof. unfold applyRankedFiltering. destruct (filters st); reflexivity. Qed.

(** [processBatch] on a buffer that is not empty. *)
Lemma processBatch_step (st : State) :
  postBatch st <> [] ->
  processBatch st
  = applyRankedFiltering
      {| filters := filters st;
         processedPosts :=
           fst (fold_left cache_post (firstn batchSize (postBatch st))
                          (processedPosts st, stats_processed st));
         postBatch := skipn batchSize (postBatch st);
         stats_processed :=
           snd (fold_left cache_post (firstn batchSize (postBatch st))
                          (processedPosts st, stats_processed st));
         stats_hidden := stats_hidden st;
         enabled := enabled st;
         batchTimeout := batchTimeout st |}.
Proof.
  intros Hne. unfold processBatch, processBatch_with.
  destruct (postBatch st) as [|p b] eqn:E; [congruence|]. rewrite <- E.
  unfold splice0.
  destruct (fold_left cache_post (firstn batchSize (postBatch st))
              (processedPosts st, stats_processed st)) as [m processed].
  reflexivity.
Qed.

Lemma processBatch_idle (st : State) : postBatch st = [] -> processBatch st = st.
Proof.
  intros E. unfold processBatch, processBatch_with. rewrite E. reflexivity.
Qed.

Lemma pass_consistent (st : State) :
  NoDup (map fst (processedPosts st)) -> consistent (applyRankedFiltering st).
Proof.
  intros H. split.
  - rewrite applyRankedFiltering_keys. exact H.
  - apply pass_counts.
Qed.

Lemma processBatch_consistent (st : State) :
  consistent st -> consistent (processBatch st).
Proof.
  intros [H1 H2]. destruct (postBatch st) as [|p b] eqn:E.
  - rewrite processBatch_idle by exact E. split; assumption.
  - rewrite processBatch_step by congruence. apply pass_consistent.
    cbn [processedPosts]. apply cache_posts_nodup. exact H1.
Qed.

Lemma show_all_keys (m : PostMap) : map fst (show_all m) = map fst m.
Proof.
  unfold show_all. rewrite map_map. apply map_ext.
  intros [k [t h]]. destruct h; reflexivity.
Qed.

Lemma runs_consistent (st : State) : runs st -> consistent st.
Proof.
  induction 1 as [stored|random data posts st Ht Hr IH|st Hr IH|command st Hr IH
                 |index st Hr IH|st Hr IH|e st Hr IH|st Hr IH].
  - split; [constructor|reflexivity].
  - unfold processPostData. destruct posts as [|p posts]; [exact IH|].
    destruct (new_posts (p :: posts) st) as [|q qs]; [exact IH|].
    cbv zeta. destruct (Nat.leb _ _).
    + apply processBatch_consistent. exact IH.
    + exact IH.
  - apply processBatch_consistent. exact IH.
  - unfold addFilter. destruct (parseCommand command); [|exact IH].
    apply pass_consistent. apply IH.
  - apply pass_consistent. apply IH.
  - apply pass_consistent. apply IH.
  - unfold toggle. cbn [enabled set_enabled]. destruct e; cbn [negb].
    + apply pass_consistent. apply IH.
    + split; cbn [processedPosts stats_hidden show_everything].
      * rewrite show_all_keys. apply IH.
      * rewrite count_hidden_show_all. reflexivity.
  - split; cbn [processedPosts stats_hidden reset].
    + rewrite show_all_keys. apply IH.
    + rewrite count_hidden_show_all. reflexivity.
Qed.

(** In every state of a run, the responses being those whose extracted
    posts are made of strings, the keys of the cache are pairwise distinct
    and the hidden count that [getStatus] reports to the popup is the number
    of cached posts whose hidden flag is set; it never exceeds the size of
    the cache. *)
Theorem hidden_count_exact (st : State) :
  runs st ->
  NoDup (map fst (processedPosts st))
  /\ status_hidden (getStatus st) = Z.of_nat (count_hidden (processedPosts st))
  /\ 0 <= status_hidden (getStatus st) <= Z.of_nat (List.length (processedPosts st)).
Proof.
  intros H. destruct (runs_consistent st H) as [H1 H2]. cbn [status_hidden getStatus].
  split; [exact H1|]. split; [exact H2|].
  pose proof (count_hidden_visible (processedPosts st)). lia.
Qed.

Lemma processBatch_processed (st : State) :
  Z.of_nat (List.length (processedPosts st)) <= stats_processed st ->
  Z.of_nat (List.length (processedPosts (processBatch st)))
  <= stats_processed (processBatch st).
Proof.
  intros H. destruct (postBatch st) as [|p b] eqn:E.
  - rewrite processBatch_idle by exact E. exact H.
  - rewrite processBatch_step by congruence.
    rewrite pass_length, pass_processed. cbn [processedPosts stats_processed].
    destruct (cache_posts_count (firstn batchSize (postBatch st))
                (processedPosts st) (stats_processed st)) as [H1 [H2 H3]].
    rewrite H1. lia.
Qed.

(** As long as the popup sends no reset, the processed count is at least the
    number of cached posts: every post that enters the cache is counted,
    and a post cached again is counted again. *)
Theorem processed_count_covers_cache (st : State) :
  reachable st ->
  Z.of_nat (List.length (processedPosts st)) <= stats_processed st.
Proof.
  induction 1 as [|posts st Hr IH|st Hr IH|command st Hr IH|index st Hr IH].
  - simpl. lia.
  - unfold processPostData. destruct posts as [|p posts]; [exact IH|].
    destruct (new_posts (p :: posts) st) as [|q qs]; [exact IH|].
    cbv zeta. destruct (Nat.leb _ _).
    + apply processBatch_processed. exact IH.
    + exact IH.
  - apply processBatch_processed. exact IH.
  - unfold addFilter. destruct (parseCommand command); [|exact IH].
    rewrite pass_length, pass_processed. exact IH.
  - unfold removeFilter. rewrite pass_length, pass_processed. exact IH.
Qed.

Lemma new_posts_none (posts : list Post) (st : State) :
  (forall p, In p posts -> map_has (id p) (processedPosts st) = true) ->
  new_posts posts st = [].
Proof.
  intros H. unfold new_posts. induction posts as [|p posts IH]; [reflexivity|].
  simpl. rewrite (H p) by (left; reflexivity). simpl.
  apply IH. intros q Hq. apply H. right. exact Hq.
Qed.

Lemma new_posts_all (posts : list Post) (st : State) :
  (forall p, In p posts -> map_has (id p) (processedPosts st) = false) ->
  new_posts posts st = posts.
Proof.
  intros H. unfold new_posts. induction posts as [|p posts IH]; [reflexivity|].
  simpl. rewrite (H p) by (left; reflexivity). simpl. f_equal.
  apply IH. intros q Hq. apply H. right. exact Hq.
Qed.

Lemma known_posts_skipped (posts : list Post) (st : State) :
  (forall p, In p posts -> map_has (id p) (processedPosts st) = true) ->
  processPostData posts st = st.
Proof.
  intros H. unfold processPostData. destruct posts as [|p posts]; [reflexivity|].
  rewrite (new_posts_none (p :: posts) st H). reflexivity.
Qed.

(** A response all of whose posts are cached already changes nothing: no
    text is refreshed, nothing is buffered or counted, no timer is armed
    and no pass runs. *)
Theorem known_posts_ignored (posts : list Post) (st : State) :
  (forall p, In p posts -> map_has (id p) (processedPosts st) = true) ->
  processPostData posts st = st.
Proof. exact (known_posts_skipped posts st). Qed.

Lemma map_has_show_all (k : string) (m : PostMap) :
  map_has k (show_all m) = map_has k m.
Proof.
  destruct (map_has k m) eqn:E.
  - apply map_has_true. rewrite show_all_keys. apply map_has_true. exact E.
  - destruct (map_has k (show_all m)) eqn:E'; [|reflexivity].
    apply map_has_true in E'. rewrite show_all_keys in E'.
    apply map_has_true in E'. congruence.
Qed.

(** A reset empties the filter list and both counters and shows every
    post, but it keeps the cache and the buffer: the posts seen before the
    reset stay known, so a response that brings them again is ignored and
    they are never counted again. *)
Theorem reset_keeps_cache (posts : list Post) (st : State) :
  (forall p, In p posts -> map_has (id p) (processedPosts st) = true) ->
  filters (reset st) = []
  /\ stats_processed (reset st) = 0
  /\ stats_hidden (reset st) = 0
  /\ count_hidden (processedPosts (reset st)) = 0%nat
  /\ skeleton (processedPosts (reset st)) = skeleton (processedPosts st)
  /\ postBatch (reset st) = postBatch st
  /\ processPostData posts (reset st) = reset st.
Proof.
  intros H. repeat split.
  - apply count_hidden_show_all.
  - cbn [processedPosts reset]. unfold skeleton, show_all. rewrite map_map.
    apply map_ext. intros [k [t h]]. destruct h; reflexivity.
  - apply known_posts_skipped. intros p Hp. cbn [processedPosts reset].
    rewrite map_has_show_all. apply H. exact Hp.
Qed.

(** The cache check of [processPostData] does not look at the buffer: a
    response delivered twice before its posts are processed is buffered
    twice, and when the timer fires its posts are counted twice although
    the cache grows by at most their number. *)
Theorem duplicate_delivery_counted_twice (posts : list Post) (st : State) :
  postBatch st = [] ->
  posts <> [] ->
  (2 * List.length posts < batchSize)%nat ->
  (forall p, In p posts -> map_has (id p) (processedPosts st) = false) ->
  NoDup (map fst (processedPosts st)) ->
  let st2 := processPostData posts (processPostData posts st) in
  let st3 := timeout_fired st2 in
  postBatch st2 = posts ++ posts
  /\ processedPosts st2 = processedPosts st
  /\ batchTimeout st2 = true
  /\ postBatch st3 = []
  /\ stats_processed st3 = stats_processed st + 2 * Z.of_nat (List.length posts)
  /\ (List.length (processedPosts st3)
      <= List.length (processedPosts st) + List.length posts)%nat.
Proof.
  intros Hb Hne Hlen Hnew Hnd.
  assert (H1 : processPostData posts st = set_batchTimeout true (set_postBatch posts st)).
  { unfold processPostData. destruct posts as [|p ps]; [congruence|].
    rewrite (new_posts_all (p :: ps) st Hnew), Hb. cbv zeta.
    cbn [postBatch set_postBatch app].
    destruct (Nat.leb batchSize (List.length (p :: ps))) eqn:E; [|reflexivity].
    apply Nat.leb_le in E. lia. }
  assert (H2 : processPostData posts (set_batchTimeout true (set_postBatch posts st))
               = set_batchTimeout true
                   (set_postBatch (posts ++ posts)
                      (set_batchTimeout true (set_postBatch posts st)))).
  { unfold processPostData. destruct posts as [|p ps]; [congruence|].
    rewrite (new_posts_all (p :: ps)
               (set_batchTimeout true (set_postBatch (p :: ps) st)) Hnew).
    cbv zeta.
    cbn [postBatch set_postBatch set_batchTimeout].
    destruct (Nat.leb batchSize (List.length ((p :: ps) ++ p :: ps))) eqn:E;
      [|reflexivity].
    apply Nat.leb_le in E. rewrite length_app in E. lia. }
  intros st2 st3. unfold st3, st2. rewrite H1, H2.
  split; [reflexivity|]. split; [reflexivity|]. split; [reflexivity|].
  unfold timeout_fired.
  rewrite processBatch_step
    by (cbn [postBatch set_postBatch set_batchTimeout]; destruct posts; [congruence|discriminate]).
  cbn [postBatch processedPosts stats_processed set_postBatch set_batchTimeout].
  assert (Hf : firstn batchSize (posts ++ posts) = posts ++ posts).
  { apply firstn_all2. rewrite length_app. lia. }
  assert (Hs : skipn batchSize (posts ++ posts) = []).
  { apply skipn_all2. rewrite length_app. lia. }
  rewrite Hf, Hs.
  split.
  { rewrite pass_postBatch. reflexivity. }
  rewrite pass_processed, pass_length.
  cbn [processedPosts stats_processed].
  destruct (cache_posts_count (posts ++ posts) (processedPosts st) (stats_processed st))
    as [C1 _].
  split.
  { rewrite C1, length_app. lia. }
  pose proof (cache_posts_nodup (posts ++ posts) (processedPosts st)
                (stats_processed st) Hnd) as Hnd'.
  pose proof (cache_posts_keys (posts ++ posts) (processedPosts st)
                (stats_processed st)) as Hin.
  assert (Hincl : incl (map fst (fst (fold_left cache_post (posts ++ posts)
                                        (processedPosts st, stats_processed st))))
                       (map fst (processedPosts st) ++ map id posts)).
  { intros k Hk. apply Hin in Hk. rewrite map_app in Hk.
    apply in_or_app. apply in_app_or in Hk. destruct Hk as [Hk|Hk]; [left; exact Hk|].
    right. apply in_app_or in Hk. destruct Hk; assumption. }
  pose proof (NoDup_incl_length Hnd' Hincl) as Hle.
  rewrite length_app, !length_map in Hle. exact Hle.
Qed.

(** The bookkeeping does not read the enabled flag ([hidePost] alone does,
    before it touches the page): with filtering switched off, responses, the
    timer and the filter commands change hidden flags, counters, buffer and
    filter list exactly as they do with filtering switched on. *)
Theorem disabled_still_filters (e : bool) (st : State) :
  (forall posts, processPostData posts (set_enabled e st)
                 = set_enabled e (processPostData posts st))
  /\ timeout_fired (set_enabled e st) = set_enabled e (timeout_fired st)
  /\ (forall command, addFilter command (set_enabled e st)
                      = set_enabled e (addFilter command st))
  /\ (forall index, removeFilter index (set_enabled e st)
                    = set_enabled e (removeFilter index st))
  /\ rescan (set_enabled e st) = set_enabled e (rescan st).
Proof.
  assert (Hp : forall s, applyRankedFiltering (set_enabled e s)
                         = set_enabled e (applyRankedFiltering s)).
  { intros s. unfold applyRankedFiltering. cbn [filters set_enabled].
    destruct (filters s); reflexivity. }
  assert (Hb : forall s, processBatch (set_enabled e s) = set_enabled e (processBatch s)).
  { intros s. destruct (postBatch s) as [|p b] eqn:E.
    - rewrite !processBatch_idle by exact E. reflexivity.
    - rewrite !processBatch_step by (cbn [postBatch set_enabled]; congruence).
      rewrite <- Hp. reflexivity. }
  split; [|split; [|split; [|split]]].
  - intros posts. unfold processPostData. destruct posts as [|p posts]; [reflexivity|].
    change (new_posts (p :: posts) (set_enabled e st)) with (new_posts (p :: posts) st).
    destruct (new_posts (p :: posts) st) as [|q qs]; [reflexivity|].
    cbv zeta. cbn [postBatch set_postBatch set_enabled].
    destruct (Nat.leb _ _).
    + rewrite <- Hb. reflexivity.
    + reflexivity.
  - unfold timeout_fired. rewrite <- Hb. reflexivity.
  - intros command. unfold addFilter. destruct (parseCommand command); [|reflexivity].
    rewrite <- Hp. reflexivity.
  - intros index. unfold removeFilter. rewrite <- Hp. reflexivity.
  - apply Hp.
Qed.

Lemma show_all_entry (m : PostMap) (i : nat) (kv : string * PostData) :
  nth_error m i = Some kv ->
  nth_error (show_all m) i = Some (fst kv, set_hidden false (snd kv)).
Proof.
  intros H. unfold show_all. rewrite nth_error_map, H. simpl.
  destruct kv as [k [t h]]. destruct h; reflexivity.
Qed.

(** Switching filtering off shows every post and keeps the filters;
    switching it on again runs a pass on the clean cache.  With hide filters
    only, a post is hidden after the cycle exactly when its relevance
    reaches the threshold of one of the filters: the flags left by filters
    that have been removed are gone. *)
Theorem toggle_cycle_clears_stale (st : State) (i : nat) (kv : string * PostData) :
  filters st <> [] ->
  Forall (fun f => mode f = hide) (filters st) ->
  nth_error (processedPosts st) i = Some kv ->
  nth_error (processedPosts (toggle false st)) i
  = Some (fst kv, set_hidden false (snd kv))
  /\ stats_hidden (toggle false st) = 0
  /\ filters (toggle false st) = filters st
  /\ nth_error (processedPosts (toggle true (toggle false st))) i
     = Some (fst kv,
             set_hidden
               (existsb (fun f => num_leb (threshold f) (relevance f (snd kv)))
                        (filters st))
               (snd kv)).
Proof.
  intros Hne Hall Hi.
  assert (H0 : nth_error (processedPosts (toggle false st)) i
               = Some (fst kv, set_hidden false (snd kv))).
  { apply show_all_entry. exact Hi. }
  split; [exact H0|]. split; [reflexivity|]. split; [reflexivity|].
  unfold toggle at 1. cbn [enabled set_enabled negb].
  rewrite (hide_only_entry (set_enabled true (toggle false st)) i
             (fst kv, set_hidden false (snd kv))).
  - reflexivity.
  - exact Hne.
  - exact Hall.
  - exact H0.
Qed.

End Counters.

Lemma hidden_count_exact_witness :
  let data := JObject [("rest_id"%string, JString "7");
                       ("legacy"%string, JObject [("full_text"%string, JString "post")])] in
  let posts := [{| id := "7"; post_text := "post"; user := "unknown" |};
                {| id := "0.5"; post_text := "post"; user := "unknown" |}] in
  let st := timeout_fired (M := Samples.mathlib64)
              (processPostData (M := Samples.mathlib64) posts
                 (addFilter (M := Samples.mathlib64) "hide post"
                    (init (N := Binary64.number) []))) in
  Extract.typed (Extract.extractPosts (fun _ => "0.5"%string) data) = Some posts
  /\ status_hidden (getStatus st) = Z.of_nat (count_hidden (processedPosts st)).
Proof.
  intros data posts st.
  assert (Ht : Extract.typed (Extract.extractPosts (fun _ => "0.5"%string) data)
               = Some posts) by reflexivity.
  split; [exact Ht|].
  assert (H : runs (M := Samples.mathlib64) st).
  { apply run_timeout, (run_response (fun _ => "0.5"%string) data posts _ Ht),
      run_add, run_init. }
  exact (proj1 (proj2 (hidden_count_exact (M := Samples.mathlib64) st H))).
Defined.

Lemma processed_count_covers_cache_witness :
  let st := timeout_fired
              (processPostData (Samples.numbered 2)
                 (initial_state (N := Ideal.number))) in
  Z.of_nat (List.length (processedPosts st)) <= stats_processed st.
Proof.
  intros st.
  assert (H : reachable st).
  { apply reach_timeout, reach_posts, reach_init. }
  exact (processed_count_covers_cache st H).
Defined.

Lemma known_posts_ignored_witness :
  let st := Samples.state_of [built hide "sports" 20] Samples.two_posts in
  let posts := [{| id := "2"; post_text := "edited"; user := "unknown" |}] in
  processPostData posts st = st.
Proof.
  intros st posts. apply (known_posts_ignored (N := Ideal.number) posts st).
  intros p [<-|[]]. reflexivity.
Defined.

Lemma reset_keeps_cache_witness :
  let st := Samples.state_of [built hide "sports" 20] Samples.two_posts in
  let posts := [{| id := "2"; post_text := "edited"; user := "unknown" |}] in
  stats_processed (reset st) = 0
  /\ skeleton (processedPosts (reset st)) = skeleton (processedPosts st)
  /\ processPostData posts (reset st) = reset st.
Proof.
  intros st posts.
  assert (H : forall p, In p posts -> map_has (id p) (processedPosts st) = true).
  { intros p [<-|[]]. reflexivity. }
  destruct (reset_keeps_cache (N := Ideal.number) posts st H)
    as [_ [H2 [_ [_ [H5 [_ H7]]]]]].
  split; [exact H2|]. split; [exact H5|exact H7].
Defined.

Lemma duplicate_delivery_counted_twice_witness :
  let st0 := initial_state (N := Ideal.number) in
  let st3 := timeout_fired
               (processPostData (Samples.numbered 2)
                  (processPostData (Samples.numbered 2) st0)) in
  stats_processed st3 = 4
  /\ (List.length (processedPosts st3) <= 2)%nat.
Proof.
  intros st0 st3.
  assert (Hne : Samples.numbered 2 <> []) by (intros H; discriminate H).
  assert (Hlen : (2 * List.length (Samples.numbered 2) < batchSize)%nat)
    by (unfold batchSize; simpl; lia).
  assert (Hnew : forall p, In p (Samples.numbered 2) ->
                           map_has (id p) (processedPosts st0) = false)
    by (intros p _; reflexivity).
  destruct (duplicate_delivery_counted_twice (Samples.numbered 2) st0
              eq_refl Hne Hlen Hnew (NoDup_nil _)) as [_ [_ [_ [_ [H5 H6]]]]].
  split; [exact H5|exact H6].
Defined.

Lemma toggle_cycle_clears_stale_witness :
  let kv := ("1"%string, {| text := "cats"; hidden := true |}) in
  let st := Samples.state_of [built hide "sports" 20] [kv] in
  nth_error (processedPosts (toggle true (toggle false st))) 0
  = Some (fst kv,
          set_hidden
            (existsb (fun f => num_leb (threshold f) (relevance f (snd kv)))
                     (filters st))
            (snd kv)).
Proof.
  intros kv st.
  assert (Hne : filters st <> []) by (intros H; discriminate H).
  assert (Hall : Forall (fun f => mode f = hide) (filters st))
    by (repeat constructor).
  exact (proj2 (proj2 (proj2
           (toggle_cycle_clears_stale (N := Ideal.number) st 0 kv Hne Hall eq_refl)))).
Defined.

(** ** Extraction of posts *)

Section Extraction.
Import Extract.
Variable random : nat -> string.

Lemma findTweets_eq (obj : JSON) (acc : list RawPost * nat) :
  findTweets random obj acc
  = match obj with
    | JObject props =>
        fold_left (fun acc kv => visit random acc (snd kv)) props
                  (push_tweet random obj acc)
    | JArray items => fold_left (visit random) items acc
    | _ => acc
    end.
Proof. destruct obj; reflexivity. Qed.

Section Extends.
Variable Q : RawPost -> Prop.

Lemma extends_refl (acc : list RawPost * nat) : extends Q acc acc.
Proof. exists []. split; [symmetry; apply app_nil_r|constructor]. Qed.

Lemma extends_trans (r1 r2 acc : list RawPost * nat) :
  extends Q r1 acc -> extends Q r2 r1 -> extends Q r2 acc.
Proof.
  intros [l1 [E1 F1]] [l2 [E2 F2]]. exists (l1 ++ l2). split.
  - rewrite E2, E1, app_assoc. reflexivity.
  - apply Forall_app. split; assumption.
Qed.

Lemma fold_extends {A : Type} (step : list RawPost * nat -> A -> list RawPost * nat)
      (xs : list A) :
  Forall (fun x => forall acc, extends Q (step acc x) acc) xs ->
  forall acc, extends Q (fold_left step xs acc) acc.
Proof.
  induction 1 as [|x xs Hx Hxs IH]; intros acc; simpl.
  - apply extends_refl.
  - apply (extends_trans (step acc x)); [apply Hx|apply IH].
Qed.

Hypothesis push_extends :
  forall obj acc, extends Q (push_tweet random obj acc) acc.

Lemma findTweets_extends (j : JSON) :
  forall acc,
    extends Q (findTweets random j acc) acc /\ extends Q (visit random acc j) acc.
Proof.
  induction j as [| b | x | s | items IH | props IH] using JSON_induction; intros acc;
    try (split; apply extends_refl).
  - split.
    + rewrite findTweets_eq. apply fold_extends.
      apply (Forall_impl _ (fun x Hx acc => proj2 (Hx acc)) IH).
    + cbn [visit].
      apply (fold_extends (fun acc item => findTweets random item acc)).
      apply (Forall_impl _ (fun x Hx acc => proj1 (Hx acc)) IH).
  - assert (H : extends Q (findTweets random (JObject props) acc) acc).
    { rewrite findTweets_eq.
      apply (extends_trans (push_tweet random (JObject props) acc)).
      - apply push_extends.
      - apply (fold_extends (fun acc kv => visit random acc (snd kv))).
        apply (Forall_impl _ (fun kv Hx acc => proj2 (Hx acc)) IH). }
    split; exact H.
Qed.

End Extends.

Lemma or_else_truthy (a b : option JSON) :
  truthy_opt b = true -> truthy_opt (or_else a b) = true.
Proof. intros H. unfold or_else. destruct (truthy_opt a) eqn:E; assumption. Qed.

Lemma default_truthy (d : JSON) (v : option JSON) :
  truthy_opt v = true -> truthy (default d v) = true.
Proof. destruct v; [trivial|discriminate]. Qed.

Lemma push_any (obj : JSON) (acc : list RawPost * nat) :
  extends (fun _ => True) (push_tweet random obj acc) acc.
Proof.
  unfold push_tweet. destruct (truthy_opt (tweet_text obj)); [|apply extends_refl].
  destruct acc as [posts n]. destruct (truthy_opt (tweet_id obj));
    (eexists; split; [reflexivity|repeat constructor]).
Qed.

Lemma push_complete (obj : JSON) (acc : list RawPost * nat) :
  (forall n, JSString.isEmpty (random n) = false) ->
  extends complete (push_tweet random obj acc) acc.
Proof.
  intros Hr. unfold push_tweet.
  destruct (truthy_opt (tweet_text obj)) eqn:Et; [|apply extends_refl].
  destruct acc as [posts n].
  assert (Ht : truthy (default (JString "")
                         (or_else (tweet_text obj) (Some (JString "")))) = true).
  { unfold or_else. rewrite Et. apply default_truthy. exact Et. }
  assert (Hu : truthy (default (JString "unknown")
                         (or_else (tweet_user obj) (Some (JString "unknown")))) = true).
  { apply default_truthy, or_else_truthy. reflexivity. }
  destruct (truthy_opt (tweet_id obj)) eqn:Ei.
  - eexists. split; [reflexivity|]. constructor; [|constructor].
    repeat split; cbn [raw_id raw_text raw_user]; try assumption.
    apply default_truthy. exact Ei.
  - eexists. split; [reflexivity|]. constructor; [|constructor].
    repeat split; cbn [raw_id raw_text raw_user]; try assumption.
    cbn [truthy]. rewrite Hr. reflexivity.
Qed.

(** Every post that [extractPosts] delivers has a truthy id, a truthy text
    and a truthy user, given that [Math.random().toString()] is never the
    empty string. *)
Theorem extracted_posts_complete (data : JSON) :
  (forall n, JSString.isEmpty (random n) = false) ->
  Forall complete (extractPosts random data).
Proof.
  intros Hr. unfold extractPosts.
  destruct (proj1 (findTweets_extends complete
                     (fun obj acc => push_complete obj acc Hr) data ([], O)))
    as [l [E F]].
  rewrite E. exact F.
Qed.

Lemma lookup_In (k : string) (props : list (string * JSON)) (v : JSON) :
  lookup k props = Some v -> exists p1 p2, props = p1 ++ (k, v) :: p2.
Proof.
  induction props as [|[k' v'] r IH]; simpl; [discriminate|].
  destruct (String.eqb k k') eqn:E.
  - intros H. inversion H; subst. apply String.eqb_eq in E. subst.
    exists [], r. reflexivity.
  - intros H. destruct (IH H) as [p1 [p2 ->]]. exists ((k', v') :: p1), p2. reflexivity.
Qed.

Lemma push_tweet_text (obj : JSON) (acc : list RawPost * nat) (t : JSON) :
  tweet_text obj = Some t -> truthy t = true ->
  exists p n, push_tweet random obj acc = (fst acc ++ [p], n) /\ raw_text p = t.
Proof.
  intros H Ht. unfold push_tweet. rewrite H. cbn [truthy_opt]. rewrite Ht.
  destruct acc as [posts n].
  assert (E : default (JString "") (or_else (Some t) (Some (JString ""))) = t).
  { unfold or_else. cbn [truthy_opt]. rewrite Ht. reflexivity. }
  destruct (truthy_opt (tweet_id obj)); eexists; eexists; (split; [reflexivity|exact E]).
Qed.

(** A tweet in the shape of the GraphQL responses, whose text is found only
    under [legacy.full_text], is extracted twice: once for the object
    itself and once more when the search descends into its [legacy]
    object. *)
Theorem legacy_tweet_extracted_twice
        (props lp : list (string * JSON)) (t : JSON) :
  truthy_opt (lookup "full_text" props) = false ->
  truthy_opt (lookup "text" props) = false ->
  lookup "legacy" props = Some (JObject lp) ->
  lookup "full_text" lp = Some t ->
  truthy t = true ->
  exists outer inner before after,
    extractPosts random (JObject props) = outer :: before ++ inner :: after
    /\ raw_text outer = t /\ raw_text inner = t.
Proof.
  intros H1 H2 H3 H4 Ht.
  assert (Ho : tweet_text (JObject props) = Some t).
  { unfold tweet_text, or_else. cbn [get get_opt]. rewrite H1, H2, H3.
    cbn [get get_opt]. exact H4. }
  assert (Hi : tweet_text (JObject lp) = Some t).
  { unfold tweet_text, or_else. cbn [get]. rewrite H4. cbn [truthy_opt].
    rewrite Ht. reflexivity. }
  destruct (lookup_In _ _ _ H3) as [p1 [p2 Hp]].
  unfold extractPosts. rewrite findTweets_eq.
  destruct (push_tweet_text (JObject props) ([], O) t Ho Ht) as [outer [n0 [E0 T0]]].
  rewrite E0. cbn [fst app].
  clear H1 H2 H3 Ho E0. subst props. rewrite fold_left_app. cbn [fold_left snd].
  set (step := fun (acc : list RawPost * nat) (kv : string * JSON) =>
                 visit random acc (snd kv)).
  assert (Hstep : forall xs acc, extends (fun _ => True) (fold_left step xs acc) acc).
  { intros xs acc. apply fold_extends. apply Forall_forall. intros kv _ acc'.
    apply (findTweets_extends (fun _ => True) push_any). }
  destruct (Hstep p1 ([outer], n0)) as [l1 [E1 _]]. cbn [fst] in E1.
  set (acc1 := fold_left step p1 ([outer], n0)) in *.
  cbn [visit]. rewrite findTweets_eq.
  destruct (push_tweet_text (JObject lp) acc1 t Hi Ht) as [inner [n1 [E2 T2]]].
  rewrite E2. fold step.
  destruct (Hstep lp (fst acc1 ++ [inner], n1)) as [l2 [E3 _]]. cbn [fst] in E3.
  destruct (Hstep p2 (fold_left step lp (fst acc1 ++ [inner], n1))) as [l3 [E4 _]].
  exists outer, inner, l1, (l2 ++ l3). split; [|split; assumption].
  rewrite E4, E3, E1. cbn [app]. rewrite <- !app_assoc. reflexivity.
Qed.

End Extraction.

Lemma extracted_posts_complete_witness :
  Forall Extract.complete
    (Extract.extractPosts (fun _ => "0.5"%string)
       (JArray [JObject [("text"%string, JString "hello")]; JNull])).
Proof.
  apply (extracted_posts_complete (fun _ => "0.5"%string)).
  intros n. reflexivity.
Defined.

Lemma legacy_tweet_extracted_twice_witness :
  exists outer inner before after,
    Extract.extractPosts (fun _ => "0.5"%string)
      (JObject [("rest_id"%string, JString "1");
                ("legacy"%string,
                 JObject [("full_text"%string, JString "hello");
                          ("id_str"%string, JString "1")])])
    = outer :: before ++ inner :: after
    /\ Extract.raw_text outer = JString "hello"
    /\ Extract.raw_text inner = JString "hello".
Proof.
  apply (legacy_tweet_extracted_twice (fun _ => "0.5"%string)
           [("rest_id"%string, JString "1");
            ("legacy"%string,
             JObject [("full_text"%string, JString "hello");
                      ("id_str"%string, JString "1")])]
           [("full_text"%string, JString "hello"); ("id_str"%string, JString "1")]
           (JString "hello")); reflexivity.
Defined.

(** ** Request matching *)

Lemma includes_tail (p : string) (c : ascii) (s : string) :
  JSString.includes p s = true -> JSString.includes p (String c s) = true.
Proof. intros H. cbn [JSString.includes]. rewrite H. apply orb_true_r. Qed.

Lemma startsWith_includes (p s : string) :
  JSString.startsWith p s = true -> JSString.includes p s = true.
Proof. intros H. destruct s; cbn [JSString.includes]; rewrite H; reflexivity. Qed.

Lemma startsWith_app_includes (x p s : string) :
  JSString.startsWith (x ++ p) s = true -> JSString.includes p s = true.
Proof.
  revert s. induction x as [|a x IH]; intros s H.
  - apply startsWith_includes. exact H.
  - destruct s as [|b s]; cbn [String.append JSString.startsWith] in H; [discriminate|].
    apply andb_true_iff in H. destruct H as [_ H].
    apply includes_tail, IH. exact H.
Qed.

Lemma includes_app (x p s : string) :
  JSString.includes (x ++ p) s = true -> JSString.includes p s = true.
Proof.
  induction s as [|c s IH]; cbn [JSString.includes]; intros H.
  - rewrite orb_false_r in H. apply (startsWith_app_includes x p ""). exact H.
  - apply orb_true_iff in H. destruct H as [H|H].
    + apply (startsWith_app_includes x p (String c s)). exact H.
    + fold (JSString.includes p (String c s)). apply includes_tail, IH. exact H.
Qed.

(** A request is taken for a timeline request exactly when its url contains
    "/timeline", "/home_timeline", "/search/adaptive" or "/graphql": the
    fifth entry of the endpoint list, "/2/timeline", matches nothing that
    the first does not match. *)
Theorem endpoint_list_redundant (url : string) :
  isTimelineRequest url
  = JSString.includes "/timeline" url
    || JSString.includes "/home_timeline" url
    || JSString.includes "/search/adaptive" url
    || JSString.includes "/graphql" url.
Proof.
  unfold isTimelineRequest, apiEndpoints. cbn [existsb].
  destruct (JSString.includes "/2/timeline" url) eqn:E.
  - rewrite (includes_app "/2" "/timeline" url E). reflexivity.
  - rewrite !orb_false_r, !orb_assoc. reflexivity.
Qed.
